(** * sos kernel: UDP socket core and virtio-MMIO block driver

    A shallow embedding of [kernel/udp.c] and [kernel/virtio.c].  C
    integers are [Z] with the wrap-around of their width written out,
    kernel objects that are reached through pointers live in finite maps
    keyed by an object id, byte buffers are maps from an offset to a
    byte, and every C function becomes a function that takes the kernel
    state and returns its result together with the new state. *)

From Stdlib Require Import ZArith Lia List.
From stdpp Require Import base option list gmap strings.

Local Open Scope Z_scope.

(** ** Fixed-width integers *)

Definition u8 (x : Z) : Z := x mod 2 ^ 8.
Definition u16 (x : Z) : Z := x mod 2 ^ 16.
Definition u32 (x : Z) : Z := x mod 2 ^ 32.
Definition u64 (x : Z) : Z := x mod 2 ^ 64.

(** Conversion of a 32-bit pattern to [int]. *)
Definition s32 (x : Z) : Z := (x + 2 ^ 31) mod 2 ^ 32 - 2 ^ 31.

(** Modelled from the spec: [htons]/[ntohs] come from net.h, which is not
    part of the sources.  The target is little-endian (the virtio magic
    is documented as "virt" read little-endian, and the design notes call
    the use of [htons] against host-order ports a byte-order mismatch), so
    both swap the two bytes of a 16-bit value. *)
Definition htons (x : Z) : Z := 2 ^ 8 * (x mod 2 ^ 8) + (x / 2 ^ 8) mod 2 ^ 8.
Definition ntohs (x : Z) : Z := htons x.

(** ** Byte-addressed memory

    A buffer maps an offset to the byte stored there; multi-byte accesses
    are little-endian. *)

Definition mem : Type := Z -> Z.

Definition load8 (m : mem) (a : Z) : Z := u8 (m a).
Definition store8 (m : mem) (a v : Z) : mem :=
  fun x => if x =? a then u8 v else m x.

(** An [n]-byte little-endian load and store. *)
Fixpoint loadn (n : nat) (m : mem) (a : Z) : Z :=
  match n with
  | O => 0
  | S k => load8 m a + 2 ^ 8 * loadn k m (a + 1)
  end.

Fixpoint storen (n : nat) (m : mem) (a v : Z) : mem :=
  match n with
  | O => m
  | S k => storen k (store8 m a v) (a + 1) (Z.shiftr v 8)
  end.

Definition load16 : mem -> Z -> Z := loadn 2.
Definition store16 : mem -> Z -> Z -> mem := storen 2.
Definition load32 : mem -> Z -> Z := loadn 4.
Definition store32 : mem -> Z -> Z -> mem := storen 4.
Definition load64 : mem -> Z -> Z := loadn 8.
Definition store64 : mem -> Z -> Z -> mem := storen 8.

(** [n] consecutive 16-bit words starting at [a], as [csum_add] reads
    them through a [uint16_t *]. *)
Fixpoint load_words (m : mem) (a : Z) (n : nat) : list Z :=
  match n with
  | O => []
  | S k => load16 m a :: load_words m (a + 2) k
  end.

Definition word_sum (ws : list Z) : Z := fold_right Z.add 0 ws.

(** Copy of a byte list into a buffer, first byte at [a]. *)
Fixpoint store_bytes (m : mem) (a : Z) (bs : list Z) : mem :=
  match bs with
  | [] => m
  | b :: bs' => store_bytes (store8 m a b) (a + 1) bs'
  end.

Fixpoint load_bytes (m : mem) (a : Z) (n : nat) : list Z :=
  match n with
  | O => []
  | S k => load8 m a :: load_bytes m (a + 1) k
  end.

(** ** Error numbers *)

(** Modelled from the spec: errno.h is not part of the sources.  The
    specification names the errors, which the kernel returns negated;
    they are numbered here as on Linux.  Only their sign and their being
    distinct matter below. *)

Definition EFAULT : Z := 14.
Definition EINVAL : Z := 22.
Definition EDESTADDRREQ : Z := 89.
Definition EMSGSIZE : Z := 90.
Definition EADDRINUSE : Z := 98.
Definition EADDRNOTAVAIL : Z := 99.

(** ** UDP socket core (kernel/udp.c) *)

Module Udp.

Definition UDP_HLIST_SIZE : Z := 128.
Definition EPH_BEGIN : Z := 20000.

(** Modelled from the spec: net.h and socket.h are not part of the
    sources.  The protocol number is that of the pseudo-header, the UDP
    header is the four 16-bit fields of the wire format, and a v4 socket
    address has the POSIX size. *)
Definition IPPROTO_UDP : Z := 17.
Definition sizeof_udphdr : Z := 8.
Definition sizeof_sockaddr_in : Z := 16.

(** Modelled from the spec: [struct packet] is declared outside the
    sources.  A packet is its buffer with the cursors this file uses,
    kept as offsets into the buffer.  [pkt->app] and [pkt->al] name the
    same cursor, and [pkt->udp] is the header overlaid at [pkt->tl]:
    src_port at +0, dst_port at +2, len at +4, csum at +6. *)
Record packet := {
  pkt_id : nat;
  data : mem;
  tl : Z;
  al : Z;
  pkt_end : Z
}.

Definition udp_src_port (p : packet) : Z := load16 (data p) (tl p).
Definition udp_dst_port (p : packet) : Z := load16 (data p) (tl p + 2).
Definition udp_len (p : packet) : Z := load16 (data p) (tl p + 4).
Definition udp_csum (p : packet) : Z := load16 (data p) (tl p + 6).

(** The two members of [struct sockaddr_in] that udp.c reads; [sin_port]
    is kept as the caller gave it, in network byte order. *)
Record sockaddr_in := {
  sin_port : Z;
  sin_addr : Z
}.

Record socket := {
  src : sockaddr_in;
  dst : sockaddr_in;
  sk_bound : bool;
  sk_connected : bool;
  recvq : list packet;
  recvwait : list nat
}.

(** [sock] and [proc] are pointers (object ids), [None] for NULL or for a
    member that was never assigned. *)
Record udp_wait_entry := {
  sock : option nat;
  proc : option nat;
  rcv : option packet;
  port : Z
}.

(** One call of [ip_send]. *)
Record ip_datagram := {
  ip_pkt : packet;
  ip_proto : Z;
  ip_src : Z;
  ip_dst : Z
}.

(** The kernel state the UDP code reads and writes.  [udp_hlist] maps a
    bucket number to its chain, first entry first; [eph_i] is the static
    cursor [i] of [udp_bind_to_ephemeral]; [umem] and [usockaddr] are the
    current process's address space as [copy_from_user] and
    [copy_to_user] see it ([None]: the access faults); [pkt_fresh n] is
    the content of the buffer that the [n]-th [packet_alloc] hands out. *)
Record kernel := {
  udp_hlist : gmap Z (list udp_wait_entry);
  sockets : gmap nat socket;
  pr_ready : gmap nat bool;
  current : nat;
  irq_enabled : bool;
  eph_i : Z;
  nif_ip : Z;
  umem : Z -> option Z;
  usockaddr : Z -> option sockaddr_in;
  console : list string;
  freed : list nat;
  ip_out : list ip_datagram;
  pkt_next : nat;
  pkt_fresh : nat -> mem
}.

Definition sockaddr_zero : sockaddr_in := {| sin_port := 0; sin_addr := 0 |}.

Definition socket_zero : socket :=
  {| src := sockaddr_zero; dst := sockaddr_zero; sk_bound := false;
     sk_connected := false; recvq := []; recvwait := [] |}.

#[global] Instance socket_inhabited : Inhabited socket := populate socket_zero.

Definition set_udp_hlist (t : gmap Z (list udp_wait_entry)) (st : kernel) : kernel :=
  {| udp_hlist := t; sockets := sockets st; pr_ready := pr_ready st;
     current := current st; irq_enabled := irq_enabled st; eph_i := eph_i st;
     nif_ip := nif_ip st; umem := umem st; usockaddr := usockaddr st;
     console := console st; freed := freed st; ip_out := ip_out st;
     pkt_next := pkt_next st; pkt_fresh := pkt_fresh st |}.

Definition set_sockets (s : gmap nat socket) (st : kernel) : kernel :=
  {| udp_hlist := udp_hlist st; sockets := s; pr_ready := pr_ready st;
     current := current st; irq_enabled := irq_enabled st; eph_i := eph_i st;
     nif_ip := nif_ip st; umem := umem st; usockaddr := usockaddr st;
     console := console st; freed := freed st; ip_out := ip_out st;
     pkt_next := pkt_next st; pkt_fresh := pkt_fresh st |}.

Definition set_pr_ready (r : gmap nat bool) (st : kernel) : kernel :=
  {| udp_hlist := udp_hlist st; sockets := sockets st; pr_ready := r;
     current := current st; irq_enabled := irq_enabled st; eph_i := eph_i st;
     nif_ip := nif_ip st; umem := umem st; usockaddr := usockaddr st;
     console := console st; freed := freed st; ip_out := ip_out st;
     pkt_next := pkt_next st; pkt_fresh := pkt_fresh st |}.

Definition set_irq_enabled (b : bool) (st : kernel) : kernel :=
  {| udp_hlist := udp_hlist st; sockets := sockets st; pr_ready := pr_ready st;
     current := current st; irq_enabled := b; eph_i := eph_i st;
     nif_ip := nif_ip st; umem := umem st; usockaddr := usockaddr st;
     console := console st; freed := freed st; ip_out := ip_out st;
     pkt_next := pkt_next st; pkt_fresh := pkt_fresh st |}.

Definition set_eph_i (i : Z) (st : kernel) : kernel :=
  {| udp_hlist := udp_hlist st; sockets := sockets st; pr_ready := pr_ready st;
     current := current st; irq_enabled := irq_enabled st; eph_i := i;
     nif_ip := nif_ip st; umem := umem st; usockaddr := usockaddr st;
     console := console st; freed := freed st; ip_out := ip_out st;
     pkt_next := pkt_next st; pkt_fresh := pkt_fresh st |}.

Definition set_umem (u : Z -> option Z) (st : kernel) : kernel :=
  {| udp_hlist := udp_hlist st; sockets := sockets st; pr_ready := pr_ready st;
     current := current st; irq_enabled := irq_enabled st; eph_i := eph_i st;
     nif_ip := nif_ip st; umem := u; usockaddr := usockaddr st;
     console := console st; freed := freed st; ip_out := ip_out st;
     pkt_next := pkt_next st; pkt_fresh := pkt_fresh st |}.

Definition set_console (c : list string) (st : kernel) : kernel :=
  {| udp_hlist := udp_hlist st; sockets := sockets st; pr_ready := pr_ready st;
     current := current st; irq_enabled := irq_enabled st; eph_i := eph_i st;
     nif_ip := nif_ip st; umem := umem st; usockaddr := usockaddr st;
     console := c; freed := freed st; ip_out := ip_out st;
     pkt_next := pkt_next st; pkt_fresh := pkt_fresh st |}.

Definition set_freed (f : list nat) (st : kernel) : kernel :=
  {| udp_hlist := udp_hlist st; sockets := sockets st; pr_ready := pr_ready st;
     current := current st; irq_enabled := irq_enabled st; eph_i := eph_i st;
     nif_ip := nif_ip st; umem := umem st; usockaddr := usockaddr st;
     console := console st; freed := f; ip_out := ip_out st;
     pkt_next := pkt_next st; pkt_fresh := pkt_fresh st |}.

Definition set_ip_out (o : list ip_datagram) (st : kernel) : kernel :=
  {| udp_hlist := udp_hlist st; sockets := sockets st; pr_ready := pr_ready st;
     current := current st; irq_enabled := irq_enabled st; eph_i := eph_i st;
     nif_ip := nif_ip st; umem := umem st; usockaddr := usockaddr st;
     console := console st; freed := freed st; ip_out := o;
     pkt_next := pkt_next st; pkt_fresh := pkt_fresh st |}.

Definition set_pkt_next (n : nat) (st : kernel) : kernel :=
  {| udp_hlist := udp_hlist st; sockets := sockets st; pr_ready := pr_ready st;
     current := current st; irq_enabled := irq_enabled st; eph_i := eph_i st;
     nif_ip := nif_ip st; umem := umem st; usockaddr := usockaddr st;
     console := console st; freed := freed st; ip_out := ip_out st;
     pkt_next := n; pkt_fresh := pkt_fresh st |}.

(** *** Collaborators outside the sources

    Modelled from the spec: list.h, the packet allocator, the user-copy
    helpers, the wait-list primitive, the console and [ip_send] are not
    part of the sources.  Their models follow the contracts of the
    specification's section on external interfaces. *)

(** The chain of bucket [h]; an absent key is an empty chain. *)
Definition bucket (st : kernel) (h : Z) : list udp_wait_entry :=
  default [] (udp_hlist st !! h).

(** [hlist_insert(&udp_hlist[h], &e->list)]: links [e] right after the
    head, so it becomes the first entry that [list_for_each_entry] visits. *)
Definition hlist_insert (h : Z) (e : udp_wait_entry) (st : kernel) : kernel :=
  set_udp_hlist (<[h := e :: bucket st h]> (udp_hlist st)) st.

Definition puts (s : string) (st : kernel) : kernel :=
  set_console (console st ++ [s]) st.

(** [packet_alloc()]: a fresh buffer; its cursors are not yet set. *)
Definition packet_alloc (st : kernel) : packet * kernel :=
  ({| pkt_id := pkt_next st; data := pkt_fresh st (pkt_next st);
      tl := 0; al := 0; pkt_end := 0 |},
   set_pkt_next (S (pkt_next st)) st).

Definition packet_free (p : packet) (st : kernel) : kernel :=
  set_freed (pkt_id p :: freed st) st.

(** [copy_from_user] of [n] bytes at user address [a]: the bytes, or
    [None] when one of them is not readable (the caller sees -EFAULT). *)
Fixpoint user_bytes (u : Z -> option Z) (a : Z) (n : nat) : option (list Z) :=
  match n with
  | O => Some []
  | S k =>
      match u a, user_bytes u (a + 1) k with
      | Some b, Some bs => Some (b :: bs)
      | _, _ => None
      end
  end.

(** [copy_to_user] of the bytes [bs] to user address [a]. *)
Fixpoint user_store (u : Z -> option Z) (a : Z) (bs : list Z) : Z -> option Z :=
  match bs with
  | [] => u
  | b :: bs' => user_store (fun x => if x =? a then Some b else u x) (a + 1) bs'
  end.

Definition copy_to_user (a : Z) (bs : list Z) (st : kernel) : Z * kernel :=
  match user_bytes (umem st) a (length bs) with
  | Some _ => (0, set_umem (user_store (umem st) a bs) st)
  | None => (- EFAULT, st)
  end.

Definition set_ready (p : nat) (b : bool) (st : kernel) : kernel :=
  set_pr_ready (<[p := b]> (pr_ready st)) st.

(** [wait_list_awaken]: every process on the list becomes ready and the
    list is emptied. *)
Definition wait_list_awaken (s : nat) (st : kernel) : kernel :=
  let so := sockets st !!! s in
  let st1 := fold_left (fun k p => set_ready p true k) (recvwait so) st in
  set_sockets (<[s := {| src := src so; dst := dst so; sk_bound := sk_bound so;
                         sk_connected := sk_connected so; recvq := recvq so;
                         recvwait := [] |}]> (sockets st1)) st1.

(** [wait_for]: the current process joins the list and stops being
    ready; it runs again only after an awakening. *)
Definition wait_for (s : nat) (st : kernel) : kernel :=
  let so := sockets st !!! s in
  let st1 := set_sockets (<[s := {| src := src so; dst := dst so;
                                    sk_bound := sk_bound so;
                                    sk_connected := sk_connected so;
                                    recvq := recvq so;
                                    recvwait := recvwait so ++ [current st] |}]>
                            (sockets st)) st in
  set_ready (current st) false st1.

Definition ip_send (p : packet) (proto src_ip dst_ip : Z) (st : kernel) : kernel :=
  set_ip_out (ip_out st ++ [{| ip_pkt := p; ip_proto := proto;
                               ip_src := src_ip; ip_dst := dst_ip |}]) st.

(** Modelled from the spec: the checksum helpers are not part of the
    sources; they are a one's-complement accumulator over 16-bit words.
    The accumulator is a [uint32_t]; finalizing folds the carries back
    into the low 16 bits (two folds exhaust a 32-bit sum) and complements. *)
Definition csum_init : Z := 0.
Definition csum_add_value (csum v : Z) : Z := u32 (csum + v).
Definition csum_add (csum : Z) (ws : list Z) : Z := fold_left csum_add_value ws csum.
Definition csum_fold (c : Z) : Z := Z.land c 65535 + Z.shiftr c 16.
Definition csum_finalize (csum : Z) : Z := u16 (Z.lnot (csum_fold (csum_fold csum))).

(** The two 16-bit halves of a [uint32_t] object, in memory order. *)
Definition words_of_u32 (x : Z) : list Z := [u16 x; u16 (Z.shiftr x 16)].

(** *** The functions of udp.c *)

Definition udp_hash (port : Z) : Z := port mod UDP_HLIST_SIZE.

Definition lookup_entry (p : Z) (st : kernel) : option udp_wait_entry :=
  List.find (fun entry => port entry =? p) (bucket st (udp_hash p)).

(** [udp_wait] up to its call of [schedule()]. *)
Definition udp_wait_arm (p : Z) (st : kernel) : kernel :=
  let hash := udp_hash p in
  let entry := {| sock := None; proc := Some (current st); rcv := None; port := p |} in
  let st := hlist_insert hash entry st in
  let st := set_ready (current st) false st in
  set_irq_enabled true st.

(** The stack entry that [udp_wait] linked for the current process. *)
Definition is_own_entry (st : kernel) (entry : udp_wait_entry) : bool :=
  match sock entry, proc entry with
  | None, Some q => Nat.eqb q (current st)
  | _, _ => false
  end.

Fixpoint hlist_remove_own (st : kernel) (l : list udp_wait_entry)
  : option packet * list udp_wait_entry :=
  match l with
  | [] => (None, [])
  | entry :: l' =>
      if is_own_entry st entry then (rcv entry, l')
      else let '(r, l'') := hlist_remove_own st l' in (r, entry :: l'')
  end.

(** [udp_wait] from the return of [schedule()] on. *)
Definition udp_wait_resume (p : Z) (st : kernel) : option packet * kernel :=
  let hash := udp_hash p in
  let '(r, l) := hlist_remove_own st (bucket st hash) in
  (r, set_udp_hlist (<[hash := l]> (udp_hlist st)) st).

Definition set_al (a : Z) (p : packet) : packet :=
  {| pkt_id := pkt_id p; data := data p; tl := tl p; al := a; pkt_end := pkt_end p |}.

Definition set_rcv (r : option packet) (entry : udp_wait_entry) : udp_wait_entry :=
  {| sock := sock entry; proc := proc entry; rcv := r; port := port entry |}.

Definition list_insert_end (s : nat) (p : packet) (st : kernel) : kernel :=
  let so := sockets st !!! s in
  set_sockets (<[s := {| src := src so; dst := dst so; sk_bound := sk_bound so;
                         sk_connected := sk_connected so;
                         recvq := recvq so ++ [p];
                         recvwait := recvwait so |}]> (sockets st)) st.

(** The loop of [udp_recv] over the chain of bucket [hash]: [seen] are
    the entries already passed, [rest] those still to visit.  [None]
    when the loop runs off the end of the chain. *)
Fixpoint udp_recv_walk (pkt : packet) (dport hash : Z)
    (seen rest : list udp_wait_entry) (st : kernel) : option kernel :=
  match rest with
  | [] => None
  | entry :: rest' =>
      match sock entry with
      | Some s =>
          Some (wait_list_awaken s (list_insert_end s pkt st))
      | None =>
          if port entry =? dport then
            let st1 := set_udp_hlist
                         (<[hash := seen ++ set_rcv (Some pkt) entry :: rest']>
                            (udp_hlist st)) st in
            Some (match proc entry with
                  | Some q => set_ready q true st1
                  | None => st1
                  end)
          else udp_recv_walk pkt dport hash (seen ++ [entry]) rest' st
      end
  end.

Definition udp_recv (pkt : packet) (st : kernel) : kernel :=
  let hash := udp_hash (ntohs (udp_dst_port pkt)) in
  let pkt := set_al (tl pkt + sizeof_udphdr) pkt in
  match udp_recv_walk pkt (ntohs (udp_dst_port pkt)) hash [] (bucket st hash) st with
  | Some st' => st'
  | None => packet_free pkt (puts "nobody was waiting for this packet, freeing\n" st)
  end.

Definition udp_send (pkt : packet) (src_ip dst_ip src_port dst_port : Z)
    (st : kernel) : kernel :=
  let t := al pkt - sizeof_udphdr in
  let d := store16 (data pkt) t src_port in
  let d := store16 d (t + 2) dst_port in
  let d := store16 d (t + 4) (htons (u16 (pkt_end pkt - t))) in
  let len_rounded := u32 (pkt_end pkt - t) in
  let len_rounded := u32 (len_rounded / 2 + len_rounded mod 2) in
  let d := store16 d (t + 6) 0 in
  let csum := csum_init in
  let csum := csum_add csum (words_of_u32 src_ip) in
  let csum := csum_add csum (words_of_u32 dst_ip) in
  let csum := csum_add_value csum (ntohs (u16 IPPROTO_UDP)) in
  let csum := csum_add csum (load_words d (t + 4) 1) in
  let csum := csum_add csum (load_words d t (Z.to_nat len_rounded)) in
  let d := store16 d (t + 6) (csum_finalize csum) in
  ip_send {| pkt_id := pkt_id pkt; data := d; tl := t; al := al pkt;
             pkt_end := pkt_end pkt |} IPPROTO_UDP src_ip dst_ip st.

Definition udp_do_bind (s : nat) (addr : sockaddr_in) (st : kernel) : kernel :=
  let hash := udp_hash (ntohs (sin_port addr)) in
  let entry := {| sock := Some s; proc := None; rcv := None;
                  port := ntohs (sin_port addr) |} in
  let st := hlist_insert hash entry st in
  let so := sockets st !!! s in
  set_sockets (<[s := {| src := addr; dst := dst so; sk_bound := true;
                         sk_connected := sk_connected so; recvq := recvq so;
                         recvwait := recvwait so |}]> (sockets st)) st.

(** The [while (tries--)] loop of [udp_bind_to_ephemeral]. *)
Fixpoint udp_bind_to_ephemeral_loop (tries : nat) (s : nat) (st : kernel)
  : bool * kernel :=
  match tries with
  | O => (false, st)
  | S tries' =>
      let ephemeral_begin := EPH_BEGIN in
      let ephemeral_end := 65535 in
      let prev := eph_i st in
      let st := set_eph_i (if eph_i st =? ephemeral_end then ephemeral_begin
                           else u16 (eph_i st + 1)) st in
      match lookup_entry (htons prev) st with
      | None =>
          (true, udp_do_bind s {| sin_port := htons prev; sin_addr := 0 |} st)
      | Some _ => udp_bind_to_ephemeral_loop tries' s st
      end
  end.

(** [uint16_t tries = 100]. *)
Definition EPH_TRIES : nat := 100.

Definition udp_bind_to_ephemeral (s : nat) (st : kernel) : bool * kernel :=
  udp_bind_to_ephemeral_loop EPH_TRIES s st.

Definition udp_bind (s : nat) (address address_len : Z) (st : kernel) : Z * kernel :=
  if sk_bound (sockets st !!! s) then (- EINVAL, st)
  else if negb (address_len =? sizeof_sockaddr_in) then (- EINVAL, st)
  else match usockaddr st address with
       | None => (- EFAULT, st)
       | Some addr =>
           if negb (sin_addr addr =? 0) && negb (sin_addr addr =? nif_ip st)
           then (- EADDRNOTAVAIL, st)
           else match lookup_entry (sin_port addr) st with
                | Some _ => (- EADDRINUSE, st)
                | None => (0, udp_do_bind s addr st)
                end
       end.

Definition udp_connect (s : nat) (address address_len : Z) (st : kernel) : Z * kernel :=
  if negb (address_len =? sizeof_sockaddr_in) then (- EINVAL, st)
  else match usockaddr st address with
       | None => (- EFAULT, st)
       | Some addr =>
           let so := sockets st !!! s in
           (0, set_sockets (<[s := {| src := src so; dst := addr;
                                      sk_bound := sk_bound so;
                                      sk_connected := true;
                                      recvq := recvq so;
                                      recvwait := recvwait so |}]> (sockets st)) st)
       end.

Section Send.

(** [ip_reserve()] and [MAX_ETH_PKT_SIZE] are defined outside the
    sources; the send path takes them as parameters. *)
Variable ip_reserve : Z.
Variable MAX_ETH_PKT_SIZE : Z.

Definition udp_reserve : Z := ip_reserve + sizeof_udphdr.

Definition udp_sys_send (s : nat) (buf len flags : Z) (st : kernel) : Z * kernel :=
  let space := udp_reserve in
  if u32 MAX_ETH_PKT_SIZE <? u32 (space + len) then (- EMSGSIZE, st)
  else if negb (sk_connected (sockets st !!! s)) then (- EDESTADDRREQ, st)
  else
    let '(bound, st) :=
      if negb (sk_bound (sockets st !!! s)) then udp_bind_to_ephemeral s st
      else (true, st) in
    if negb bound then (- EADDRINUSE, st)
    else
      let '(pkt, st) := packet_alloc st in
      let app := space in
      match user_bytes (umem st) buf (Z.to_nat len) with
      | None => (- EFAULT, packet_free (set_al app pkt) st)
      | Some payload =>
          let pkt := {| pkt_id := pkt_id pkt;
                        data := store_bytes (data pkt) app payload;
                        tl := tl pkt; al := app; pkt_end := app + len |} in
          let so := sockets st !!! s in
          let src_ip := if negb (sin_addr (src so) =? 0) then sin_addr (src so)
                        else nif_ip st in
          (s32 len,
           udp_send pkt src_ip (sin_addr (dst so)) (sin_port (src so))
                    (sin_port (dst so)) st)
      end.

End Send.

Definition socket_recvq_get (so : socket) : option packet := head (recvq so).

(** [list_remove(&pkt->list)] for the packet at the head of the queue. *)
Definition list_remove_head (s : nat) (st : kernel) : kernel :=
  let so := sockets st !!! s in
  set_sockets (<[s := {| src := src so; dst := dst so; sk_bound := sk_bound so;
                         sk_connected := sk_connected so;
                         recvq := tail (recvq so);
                         recvwait := recvwait so |}]> (sockets st)) st.

(** [udp_sys_recv] either returns, or sleeps in [wait_for] with the queue
    empty; once awakened it peeks the queue again, which is this function
    run from the new state. *)
Inductive recv_outcome :=
  | Returned (rv : Z) (st : kernel)
  | Sleeping (st : kernel).

Definition udp_sys_recv (s : nat) (buf len flags : Z) (st : kernel) : recv_outcome :=
  if negb (sk_bound (sockets st !!! s)) then Returned (- EINVAL) st
  else match socket_recvq_get (sockets st !!! s) with
       | None => Sleeping (wait_for s st)
       | Some pkt =>
           let pktlen := u32 (pkt_end pkt - al pkt) in
           if len <? pktlen then Returned (- EMSGSIZE) st
           else
             let '(rv, st1) :=
               copy_to_user buf (load_bytes (data pkt) (al pkt) (Z.to_nat pktlen)) st in
             if rv <? 0 then Returned rv st1
             else Returned (s32 pktlen) (packet_free pkt (list_remove_head s st1))
       end.

Definition udp_init (st : kernel) : kernel :=
  set_udp_hlist
    (fold_left (fun t i => <[Z.of_nat i := []]> t)
               (seq 0 (Z.to_nat UDP_HLIST_SIZE)) (udp_hlist st)) st.

(** The bytes of a buffer paired into 16-bit words, low byte first; an
    odd last byte is paired with zero. *)
Fixpoint words_of_bytes (bs : list Z) : list Z :=
  match bs with
  | [] => []
  | [b] => [b]
  | b0 :: b1 :: bs' => (b0 + 2 ^ 8 * b1) :: words_of_bytes bs'
  end.

(** The check a receiver makes of a datagram handed to [ip_send]: the
    one's-complement sum over the pseudo-header (source address,
    destination address, protocol, UDP length) and over exactly the
    bytes of the datagram, header and payload, their number taken from
    the length field and an odd number padded with one zero byte.  A
    datagram verifies when the result is zero. *)
Definition udp_verify_padded (d : ip_datagram) : Z :=
  let p := ip_pkt d in
  let ulen := ntohs (udp_len p) in
  let csum := csum_init in
  let csum := csum_add csum (words_of_u32 (ip_src d)) in
  let csum := csum_add csum (words_of_u32 (ip_dst d)) in
  let csum := csum_add_value csum (ntohs (u16 (ip_proto d))) in
  let csum := csum_add_value csum (udp_len p) in
  let csum := csum_add csum
                (words_of_bytes (load_bytes (data p) (tl p) (Z.to_nat ulen))) in
  csum_finalize csum.

(** Whether [udp_recv] hands a packet for [dport] to [entry]: always if
    the entry is socket-bound, and for a waiter if its port is [dport]. *)
Definition takes (dport : Z) (entry : udp_wait_entry) : bool :=
  match sock entry with
  | Some _ => true
  | None => port entry =? dport
  end.

(** *** A concrete machine for the examples

    The kernel right after [udp_init]: interface address 10.0.2.15, no
    socket bound, the ephemeral cursor at its initial value.  The current
    process has three socket addresses in its memory (port 5000 at 4096,
    port 20000 at 4112, both with the "any" address, and the remote
    endpoint 10.0.2.3:53 at 4128) and the two bytes "hi" at 8192. *)
Definition boot : kernel :=
  udp_init
    {| udp_hlist := ∅; sockets := ∅; pr_ready := ∅; current := 0%nat;
       irq_enabled := true; eph_i := EPH_BEGIN; nif_ip := 0x0f02000a;
       umem := fun a => if a =? 8192 then Some 104
                        else if a =? 8193 then Some 105 else None;
       usockaddr := fun a =>
         if a =? 4096 then Some {| sin_port := htons 5000; sin_addr := 0 |}
         else if a =? 4112 then Some {| sin_port := htons 20000; sin_addr := 0 |}
         else if a =? 4128 then Some {| sin_port := htons 53; sin_addr := 0x0302000a |}
         else None;
       console := []; freed := []; ip_out := []; pkt_next := 0%nat;
       pkt_fresh := fun _ _ => 0xA5 |}.

(** A received packet for port 5128, which shares bucket 8 with port
    5000: transport header at offset 34, two bytes of payload. *)
Definition pkt_for_5128 : packet :=
  {| pkt_id := 7%nat; data := store16 (fun _ => 0) 36 (htons 5128);
     tl := 34; al := 0; pkt_end := 44 |}.


(** *** The shape of the endpoint table *)

(** The numbers of the buckets of [udp_hlist]. *)
Definition buckets : list Z := map Z.of_nat (seq 0 (Z.to_nat UDP_HLIST_SIZE)).

(** Every entry of the chain of bucket [h] carries a port that hashes to
    [h]: the entry is where [lookup_entry] and [udp_recv] look for it. *)
Definition bucket_ok (h : Z) (l : list udp_wait_entry) : bool :=
  forallb (fun entry => udp_hash (port entry) =? h) l.

Definition table_ok (st : kernel) : bool :=
  forallb (fun h => bucket_ok h (bucket st h)) buckets.

(** The ports filed in the table, bucket by bucket. *)
Definition table_ports (st : kernel) : list Z :=
  flat_map (fun h => map port (bucket st h)) buckets.

(** The state in which [udp_sys_recv] leaves the kernel. *)
Definition recv_state (o : recv_outcome) : kernel :=
  match o with
  | Returned _ st => st
  | Sleeping st => st
  end.

(** *** Further concrete states *)

(** [boot] after socket 1 was bound to port 5000. *)
Definition bound_5000 : kernel := snd (udp_bind 1 4096 16 boot).

(** A received packet for port 5000 that carries the two bytes "ok":
    transport header at offset 34, payload at 42. *)
Definition pkt_for_5000 : packet :=
  {| pkt_id := 9%nat;
     data := store8 (store8 (store16 (fun _ => 0) 36 (htons 5000)) 42 111) 43 107;
     tl := 34; al := 0; pkt_end := 44 |}.

End Udp.

(** ** virtio-MMIO block driver (kernel/virtio.c) *)

Module Virtio.

Definition VIRTIO_MAGIC : Z := 0x74726976.
Definition VIRTIO_VERSION : Z := 2.
Definition VIRTIO_DEV_BLK : Z := 2.

(** Modelled from the spec: virtio.h and kernel.h are not part of the
    sources.  The status bits, descriptor flags, block constants and
    structure sizes are those of the specification's interface section
    and data model; [PAGE_SIZE] is the 4 KiB page of the target. *)
Definition VIRTIO_STATUS_ACKNOWLEDGE : Z := 1.
Definition VIRTIO_STATUS_DRIVER : Z := 2.
Definition VIRTIO_STATUS_DRIVER_OK : Z := 4.
Definition VIRTIO_STATUS_FEATURES_OK : Z := 8.
Definition VIRTQ_DESC_F_NEXT : Z := 1.
Definition VIRTQ_DESC_F_WRITE : Z := 2.
Definition VIRTIO_BLK_T_IN : Z := 0.
Definition VIRTIO_BLK_SECTOR_SIZE : Z := 512.
Definition VIRTIO_BLK_REQ_HEADER_SIZE : Z := 16.
Definition VIRTIO_BLK_REQ_FOOTER_SIZE : Z := 1.
Definition PAGE_SIZE : Z := 4096.
Definition sizeof_virtqueue_desc : Z := 16.
Definition sizeof_virtqueue_avail : Z := 4.
Definition sizeof_virtqueue_used : Z := 4.
Definition sizeof_virtqueue_used_elem : Z := 8.
Definition sizeof_uint16_t : Z := 2.

(** [struct virtqueue] is declared in virtio.h.  [virtq_create] assigns
    its seven members: [phys] and [len] from [uint32_t] values, and
    [desc], [avail], [used_event], [used], [avail_event] from pointers,
    which are 32 bits wide on this target (the function casts a
    [uint32_t] to the structure pointer).  Seven 4-byte members make 28
    bytes. *)
Definition sizeof_virtqueue : Z := 28.

(** Modelled from the spec: [ALIGN(x, a)] rounds [x] up to a multiple of
    the power of two [a], in 32-bit arithmetic. *)
Definition ALIGN (x a : Z) : Z := Z.land (u32 (x + a - 1)) (Z.lnot (a - 1)).

(** The registers of one virtio-MMIO slot that the driver touches;
    [ConfigCapacity] is the [capacity] member of the block configuration
    space at [Config]. *)
Inductive reg :=
  | MagicValue | Version | DeviceID | VendorID
  | DeviceFeatures | DeviceFeaturesSel | DriverFeatures | DriverFeaturesSel
  | QueueSel | QueueNumMax | QueueNum | QueueReady | QueueNotify
  | InterruptStatus | Status
  | QueueDescLow | QueueDescHigh | QueueAvailLow | QueueAvailHigh
  | QueueUsedLow | QueueUsedHigh
  | ConfigCapacity.

(** What the driver does on the bus, in program order.  [base] is the
    virtual address of the slot. *)
Inductive mmio_event :=
  | MmioRead (base : Z) (r : reg) (v : Z)
  | MmioWrite (base : Z) (r : reg) (v : Z)
  | Barrier.

(** One console line: the format string with its string and integer
    arguments. *)
Record msg := Msg {
  fmt : string;
  sargs : list string;
  nargs : list Z
}.

Record virtio_cap := {
  name : string;
  bit : Z;
  support : bool;
  help : string
}.

Definition indp_caps : list virtio_cap := [
  {| name := "VIRTIO_F_RING_INDIRECT_DESC"; bit := Z.shiftl 1 28; support := false;
     help := "Negotiating this feature indicates that the driver can use descriptors with the VIRTQ_DESC_F_INDIRECT flag set, as described in 2.4.5.3 Indirect Descriptors." |};
  {| name := "VIRTIO_F_RING_EVENT_IDX"; bit := Z.shiftl 1 29; support := false;
     help := "This feature enables the used_event and the avail_event fields as described in 2.4.7 and 2.4.8." |}
].

Definition blk_caps : list virtio_cap := [
  {| name := "VIRTIO_BLK_F_SIZE_MAX"; bit := Z.shiftl 1 1; support := false;
     help := "Maximum size of any single segment is in size_max." |};
  {| name := "VIRTIO_BLK_F_SEG_MAX"; bit := Z.shiftl 1 2; support := false;
     help := "Maximum number of segments in a request is in seg_max." |};
  {| name := "VIRTIO_BLK_F_GEOMETRY"; bit := Z.shiftl 1 4; support := false;
     help := "Disk-style geometry specified in geometry." |};
  {| name := "VIRTIO_BLK_F_RO"; bit := Z.shiftl 1 5; support := false;
     help := "Device is read-only." |};
  {| name := "VIRTIO_BLK_F_BLK_SIZE"; bit := Z.shiftl 1 6; support := false;
     help := "Block size of disk is in blk_size." |};
  {| name := "VIRTIO_BLK_F_FLUSH"; bit := Z.shiftl 1 9; support := false;
     help := "Cache flush command support." |};
  {| name := "VIRTIO_BLK_F_TOPOLOGY"; bit := Z.shiftl 1 10; support := false;
     help := "Device exports information on optimal I/O alignment." |};
  {| name := "VIRTIO_BLK_F_CONFIG_WCE"; bit := Z.shiftl 1 11; support := false;
     help := "Device can toggle its cache between writeback and writethrough modes." |}
].

(** The members of [struct virtqueue]; the pointers are kernel virtual
    addresses. *)
Record virtqueue := {
  phys : Z;
  len : Z;
  desc : Z;
  avail : Z;
  used_event : Z;
  used : Z;
  avail_event : Z
}.

(** [struct virtio_blk]; [virtq] is [None] for a NULL pointer. *)
Record virtio_blk := {
  regs : Z;
  virtq : option Z;
  intid : Z
}.

(** The members of a request header that the driver writes. *)
Record virtio_blk_req := {
  type : Z;
  sector : Z
}.

(** One descriptor as it lies in the descriptor table: addr (64 bits) at
    +0, len (32) at +8, flags (16) at +12, next (16) at +14. *)
Record virtqueue_desc := {
  d_addr : Z;
  d_len : Z;
  d_flags : Z;
  d_next : Z
}.

(** The kernel state the driver reads and writes.  [dev] is the device
    side of the bus: the value a register read returns, given everything
    that happened on the bus before; [mmio] is that history, oldest
    first.  [kmem] is kernel memory by virtual address (the virtqueue
    rings live there); structures the driver only reaches through typed
    pointers are kept in [virtqs] and [reqs], keyed by address.
    [phys_of] is the page-table translation behind [kmem_lookup_phys].
    [alloc_pick n] is the address that the [n]-th allocation of the run
    returns, whichever allocator serves it.  [buffer] is the address of
    the global sector buffer. *)
Record kernel := {
  dev : list mmio_event -> Z -> reg -> Z;
  mmio : list mmio_event;
  kmem : mem;
  virtqs : gmap Z virtqueue;
  reqs : gmap Z virtio_blk_req;
  console : list msg;
  blkdev : virtio_blk;
  blkreq_slab : option Z;
  phys_of : Z -> Z;
  alloc_pick : nat -> Z;
  alloc_count : nat;
  irqs : list Z;
  buffer : Z
}.

Definition set_mmio (x : list mmio_event) (st : kernel) : kernel :=
  {| dev := dev st; mmio := x; kmem := kmem st; virtqs := virtqs st;
     reqs := reqs st; console := console st; blkdev := blkdev st;
     blkreq_slab := blkreq_slab st; phys_of := phys_of st;
     alloc_pick := alloc_pick st; alloc_count := alloc_count st;
     irqs := irqs st; buffer := buffer st |}.

Definition set_kmem (x : mem) (st : kernel) : kernel :=
  {| dev := dev st; mmio := mmio st; kmem := x; virtqs := virtqs st;
     reqs := reqs st; console := console st; blkdev := blkdev st;
     blkreq_slab := blkreq_slab st; phys_of := phys_of st;
     alloc_pick := alloc_pick st; alloc_count := alloc_count st;
     irqs := irqs st; buffer := buffer st |}.

Definition set_virtqs (x : gmap Z virtqueue) (st : kernel) : kernel :=
  {| dev := dev st; mmio := mmio st; kmem := kmem st; virtqs := x;
     reqs := reqs st; console := console st; blkdev := blkdev st;
     blkreq_slab := blkreq_slab st; phys_of := phys_of st;
     alloc_pick := alloc_pick st; alloc_count := alloc_count st;
     irqs := irqs st; buffer := buffer st |}.

Definition set_reqs (x : gmap Z virtio_blk_req) (st : kernel) : kernel :=
  {| dev := dev st; mmio := mmio st; kmem := kmem st; virtqs := virtqs st;
     reqs := x; console := console st; blkdev := blkdev st;
     blkreq_slab := blkreq_slab st; phys_of := phys_of st;
     alloc_pick := alloc_pick st; alloc_count := alloc_count st;
     irqs := irqs st; buffer := buffer st |}.

Definition set_console (x : list msg) (st : kernel) : kernel :=
  {| dev := dev st; mmio := mmio st; kmem := kmem st; virtqs := virtqs st;
     reqs := reqs st; console := x; blkdev := blkdev st;
     blkreq_slab := blkreq_slab st; phys_of := phys_of st;
     alloc_pick := alloc_pick st; alloc_count := alloc_count st;
     irqs := irqs st; buffer := buffer st |}.

Definition set_blkdev (x : virtio_blk) (st : kernel) : kernel :=
  {| dev := dev st; mmio := mmio st; kmem := kmem st; virtqs := virtqs st;
     reqs := reqs st; console := console st; blkdev := x;
     blkreq_slab := blkreq_slab st; phys_of := phys_of st;
     alloc_pick := alloc_pick st; alloc_count := alloc_count st;
     irqs := irqs st; buffer := buffer st |}.

Definition set_blkreq_slab (x : option Z) (st : kernel) : kernel :=
  {| dev := dev st; mmio := mmio st; kmem := kmem st; virtqs := virtqs st;
     reqs := reqs st; console := console st; blkdev := blkdev st;
     blkreq_slab := x; phys_of := phys_of st;
     alloc_pick := alloc_pick st; alloc_count := alloc_count st;
     irqs := irqs st; buffer := buffer st |}.

Definition set_phys_of (x : Z -> Z) (st : kernel) : kernel :=
  {| dev := dev st; mmio := mmio st; kmem := kmem st; virtqs := virtqs st;
     reqs := reqs st; console := console st; blkdev := blkdev st;
     blkreq_slab := blkreq_slab st; phys_of := x;
     alloc_pick := alloc_pick st; alloc_count := alloc_count st;
     irqs := irqs st; buffer := buffer st |}.

Definition set_alloc_count (x : nat) (st : kernel) : kernel :=
  {| dev := dev st; mmio := mmio st; kmem := kmem st; virtqs := virtqs st;
     reqs := reqs st; console := console st; blkdev := blkdev st;
     blkreq_slab := blkreq_slab st; phys_of := phys_of st;
     alloc_pick := alloc_pick st; alloc_count := x;
     irqs := irqs st; buffer := buffer st |}.

Definition set_irqs (x : list Z) (st : kernel) : kernel :=
  {| dev := dev st; mmio := mmio st; kmem := kmem st; virtqs := virtqs st;
     reqs := reqs st; console := console st; blkdev := blkdev st;
     blkreq_slab := blkreq_slab st; phys_of := phys_of st;
     alloc_pick := alloc_pick st; alloc_count := alloc_count st;
     irqs := x; buffer := buffer st |}.

(** *** A state monad with faults

    A driver function runs on the kernel state and either yields a value
    and the new state or faults ([None]: a dereference of NULL or of an
    address that holds no such structure). *)

Definition M (A : Type) : Type := kernel -> option (A * kernel).

Definition ret {A : Type} (x : A) : M A := fun st => Some (x, st).

Definition bind {A B : Type} (c : M A) (k : A -> M B) : M B :=
  fun st => match c st with
            | Some (x, st') => k x st'
            | None => None
            end.

Definition fault {A : Type} : M A := fun _ => None.
Definition gets {A : Type} (f : kernel -> A) : M A := fun st => Some (f st, st).
Definition modify (f : kernel -> kernel) : M unit := fun st => Some (tt, f st).

Declare Scope drv_scope.
Delimit Scope drv_scope with drv.
Notation "x <- c ;; k" := (bind c (fun x => k))
  (at level 100, c at next level, right associativity) : drv_scope.
Notation "c ;; k" := (bind c (fun _ => k))
  (at level 100, right associativity) : drv_scope.
Local Open Scope drv_scope.

(** *** Collaborators outside the sources

    Modelled from the spec: the register access macros, the barrier, the
    console, the page and slab allocators, the mapping helpers and the
    interrupt controller are not part of the sources.  Register accesses
    and barriers are recorded on the bus history in program order. *)

Definition READ32 (base : Z) (r : reg) : M Z :=
  fun st =>
    let v := u32 (dev st (mmio st) base r) in
    Some (v, set_mmio (mmio st ++ [MmioRead base r v]) st).

Definition READ64 (base : Z) (r : reg) : M Z :=
  fun st =>
    let v := u64 (dev st (mmio st) base r) in
    Some (v, set_mmio (mmio st ++ [MmioRead base r v]) st).

Definition WRITE32 (base : Z) (r : reg) (v : Z) : M unit :=
  modify (fun st => set_mmio (mmio st ++ [MmioWrite base r (u32 v)]) st).

Definition mb : M unit :=
  modify (fun st => set_mmio (mmio st ++ [Barrier]) st).

Definition printf (f : string) (ss : list string) (ns : list Z) : M unit :=
  modify (fun st => set_console (console st ++ [Msg f ss ns]) st).

Definition puts (s : string) : M unit := printf s [] [].

(** [alloc_pages], [slab_new] and [slab_alloc] return the next address
    the allocators choose. *)
Definition alloc : M Z :=
  fun st => Some (u32 (alloc_pick st (alloc_count st)),
                  set_alloc_count (S (alloc_count st)) st).

(** [kmem_map_pages(virt, phys, size, ...)]: afterwards the [size] bytes
    at [virt] translate to those at [phys]. *)
Definition kmem_map_pages (virt phys size : Z) : M unit :=
  modify (fun st =>
    set_phys_of (fun a => if negb (a <? virt) && (a <? virt + size)
                          then a - virt + phys else phys_of st a) st).

Definition kmem_lookup_phys (a : Z) : M Z := gets (fun st => u32 (phys_of st a)).

Definition gic_enable_interrupt (i : Z) : M unit :=
  modify (fun st => set_irqs (irqs st ++ [i]) st).

(** Dereference of a [struct virtqueue *]. *)
Definition deref_virtq (p : option Z) : M virtqueue :=
  fun st => match p with
            | Some a => match virtqs st !! a with
                        | Some vq => Some (vq, st)
                        | None => None
                        end
            | None => None
            end.

Definition kload16 (a : Z) : M Z := gets (fun st => load16 (kmem st) a).
Definition kstore16 (a v : Z) : M unit :=
  modify (fun st => set_kmem (store16 (kmem st) a v) st).
Definition kstore32 (a v : Z) : M unit :=
  modify (fun st => set_kmem (store32 (kmem st) a v) st).
Definition kstore64 (a v : Z) : M unit :=
  modify (fun st => set_kmem (store64 (kmem st) a v) st).

(** The descriptor in slot [i] of the table at [d]. *)
Definition desc_at (m : mem) (d : Z) (i : Z) : virtqueue_desc :=
  let a := d + sizeof_virtqueue_desc * i in
  {| d_addr := load64 m a; d_len := load32 m (a + 8);
     d_flags := load16 m (a + 12); d_next := load16 m (a + 14) |}.

(** Members of [struct virtqueue_avail]: flags at +0, idx at +2, ring
    from +4. *)
Definition avail_idx (m : mem) (vq : virtqueue) : Z := load16 m (avail vq + 2).

(** *** The functions of virtio.c *)

Definition maybe_init_blkreq_slab : M unit :=
  s <- gets blkreq_slab ;;
  match s with
  | Some _ => ret tt
  | None => a <- alloc ;; modify (set_blkreq_slab (Some a))
  end.

(** The offsets that [virtq_create] computes for a queue of [len]
    entries, all in [uint32_t] arithmetic. *)
Record virtq_layout := {
  off_desc : Z;
  off_avail : Z;
  off_used_event : Z;
  off_used : Z;
  off_avail_event : Z;
  memsize : Z
}.

Definition virtq_offsets (len : Z) : virtq_layout :=
  let off_desc := ALIGN sizeof_virtqueue 16 in
  let off_avail := ALIGN (u32 (off_desc + len * sizeof_virtqueue_desc)) 2 in
  let off_used_event :=
    u32 (off_avail + sizeof_virtqueue_avail + len * sizeof_uint16_t) in
  let off_used := ALIGN (u32 (off_used_event + sizeof_uint16_t)) 4 in
  let off_avail_event :=
    u32 (off_used + sizeof_virtqueue_used + len * sizeof_virtqueue_used_elem) in
  let memsize := u32 (off_avail_event + sizeof_uint16_t) in
  {| off_desc := off_desc; off_avail := off_avail;
     off_used_event := off_used_event; off_used := off_used;
     off_avail_event := off_avail_event; memsize := memsize |}.

(** Returns the address of the new [struct virtqueue], [None] for NULL. *)
Definition virtq_create (len : Z) : M (option Z) :=
  let l := virtq_offsets len in
  printf "virtq_create: len=%u memsize=0x%x\n" [] [len; memsize l] ;;
  if PAGE_SIZE <? memsize l then
    printf "virtq_create: error, too big for a page\n" [] [] ;;
    ret None
  else
    page_phys <- alloc ;;
    page_virt <- alloc ;;
    kmem_map_pages page_virt page_phys PAGE_SIZE ;;
    let vq := {| phys := page_phys; len := len;
                 desc := u32 (page_virt + off_desc l);
                 avail := u32 (page_virt + off_avail l);
                 used_event := u32 (page_virt + off_used_event l);
                 used := u32 (page_virt + off_used l);
                 avail_event := u32 (page_virt + off_avail_event l) |} in
    modify (fun st => set_virtqs (<[page_virt := vq]> (virtqs st)) st) ;;
    kstore16 (avail vq + 2) 0 ;;
    kstore16 (used vq + 2) 0 ;;
    ret (Some page_virt).

Definition virtq_add_to_device (regs : Z) (virtq : option Z) (queue_sel : Z) : M unit :=
  WRITE32 regs QueueSel queue_sel ;;
  mb ;;
  vq <- deref_virtq virtq ;;
  let base := default 0 virtq in
  WRITE32 regs QueueNum (len vq) ;;
  WRITE32 regs QueueDescLow (phys vq + (desc vq - base)) ;;
  WRITE32 regs QueueDescHigh 0 ;;
  WRITE32 regs QueueAvailLow (phys vq + (avail vq - base)) ;;
  WRITE32 regs QueueAvailHigh 0 ;;
  WRITE32 regs QueueUsedLow (phys vq + (used vq - base)) ;;
  WRITE32 regs QueueUsedHigh 0 ;;
  mb ;;
  WRITE32 regs QueueReady 1.

(** Walks the table [caps]; yields the updated [*device] and [*request]. *)
Fixpoint virtio_check_capabilities (device request : Z) (caps : list virtio_cap)
  : M (Z * Z) :=
  match caps with
  | [] => ret (device, request)
  | cap :: caps' =>
      request' <-
        (if negb (Z.land device (bit cap) =? 0) then
           if support cap then ret (Z.lor request (bit cap))
           else
             printf "virtio supports unsupported option %s (%s)\n"
                    [name cap; help cap] [] ;;
             ret request
         else ret request) ;;
      virtio_check_capabilities (Z.land device (Z.lnot (bit cap))) request' caps'
  end.

Definition HI32 (x : Z) : Z := u32 (Z.shiftr (Z.land 0xFFFFFFFF00000000 x) 32).
Definition LO32 (x : Z) : Z := u32 (Z.land 0x00000000FFFFFFFF x).

(** [virtio_blk_init] up to the barrier that follows the write of
    FEATURES_OK: feature negotiation. *)
Definition virtio_blk_negotiate (regs : Z) : M unit :=
  let request_features := 0 in
  WRITE32 regs DeviceFeaturesSel 0 ;;
  WRITE32 regs DriverFeaturesSel 0 ;;
  mb ;;
  device_features <- READ32 regs DeviceFeatures ;;
  r <- virtio_check_capabilities device_features request_features blk_caps ;;
  let '(device_features, request_features) := r in
  r <- virtio_check_capabilities device_features request_features indp_caps ;;
  let '(device_features, request_features) := r in
  (if negb (device_features =? 0) then
     printf "virtio supports undocumented options 0x%x!\n" [] [device_features]
   else ret tt) ;;
  WRITE32 regs DriverFeatures request_features ;;
  s <- READ32 regs Status ;;
  WRITE32 regs Status (Z.lor s VIRTIO_STATUS_FEATURES_OK) ;;
  mb.

(** The function has no [return] on its success path: [None] is "no
    value returned". *)
Definition virtio_blk_init (regs intid : Z) : M (option Z) :=
  virtio_blk_negotiate regs ;;
  s <- READ32 regs Status ;;
  if Z.land s VIRTIO_STATUS_FEATURES_OK =? 0 then
    puts "error: virtio-blk did not accept our features\n" ;;
    ret (Some (-1))
  else
    hi <- READ64 regs ConfigCapacity ;;
    lo <- READ64 regs ConfigCapacity ;;
    printf "virtio-blk has 0x%x %x sectors\n" [] [HI32 hi; LO32 lo] ;;
    n <- READ32 regs QueueNumMax ;;
    printf "virtio-blk queuenummax %u\n" [] [n] ;;
    s <- READ32 regs Status ;;
    printf "virtio-blk Status %x\n" [] [s] ;;
    i <- READ32 regs InterruptStatus ;;
    printf "virtio-blk InterruptStatus %x\n" [] [i] ;;
    virtq <- virtq_create 128 ;;
    virtq_add_to_device regs virtq 0 ;;
    vq <- deref_virtq virtq ;;
    x <- kload16 (avail vq + 2) ;;
    printf "    avail.idx = %u\n" [] [x] ;;
    x <- kload16 (used vq + 2) ;;
    printf "    used.idx = %u\n" [] [x] ;;
    gic_enable_interrupt intid ;;
    modify (set_blkdev {| regs := regs; virtq := virtq; intid := intid |}) ;;
    s <- READ32 regs Status ;;
    WRITE32 regs Status (Z.lor s VIRTIO_STATUS_DRIVER_OK) ;;
    mb ;;
    s <- READ32 regs Status ;;
    printf "virtio-blk Status %x\n" [] [s] ;;
    maybe_init_blkreq_slab ;;
    p <- kmem_lookup_phys regs ;;
    printf "virtio-blk 0x%x (intid %u): ready!\n" [] [p; intid] ;;
    ret None.

(** [slab_alloc(blkreq_slab)]; the slab must have been created. *)
Definition slab_alloc_blkreq : M Z :=
  s <- gets blkreq_slab ;;
  match s with
  | Some _ => alloc
  | None => fault
  end.

Definition virtio_blk_read (blk : virtio_blk) (sector data : Z) : M (option Z) :=
  hdr <- slab_alloc_blkreq ;;
  hdr_phys <- kmem_lookup_phys hdr ;;
  data_phys <- kmem_lookup_phys data ;;
  modify (fun st => set_reqs (<[hdr := {| type := VIRTIO_BLK_T_IN;
                                          sector := u32 sector |}]> (reqs st)) st) ;;
  vq <- deref_virtq (virtq blk) ;;
  let d := fun i => desc vq + sizeof_virtqueue_desc * i in
  kstore64 (d 0) hdr_phys ;;
  kstore32 (d 0 + 8) VIRTIO_BLK_REQ_HEADER_SIZE ;;
  kstore16 (d 0 + 12) VIRTQ_DESC_F_NEXT ;;
  kstore16 (d 0 + 14) 1 ;;
  kstore64 (d 1) (u32 (data_phys + 16)) ;;
  kstore32 (d 1 + 8) VIRTIO_BLK_SECTOR_SIZE ;;
  kstore16 (d 1 + 12) (Z.lor VIRTQ_DESC_F_WRITE VIRTQ_DESC_F_NEXT) ;;
  kstore16 (d 1 + 14) 2 ;;
  kstore64 (d 2) (u32 (hdr_phys + VIRTIO_BLK_REQ_HEADER_SIZE)) ;;
  kstore32 (d 2 + 8) VIRTIO_BLK_REQ_FOOTER_SIZE ;;
  kstore16 (d 2 + 12) VIRTQ_DESC_F_WRITE ;;
  kstore16 (d 2 + 14) 0 ;;
  idx <- kload16 (avail vq + 2) ;;
  kstore16 (avail vq + 4 + 2 * idx) 0 ;;
  mb ;;
  idx <- kload16 (avail vq + 2) ;;
  kstore16 (avail vq + 2) (idx + 1) ;;
  mb ;;
  WRITE32 (regs blk) QueueNotify 0 ;;
  ret None.

(** The function returns a value only on its error paths and through
    [virtio_blk_init]. *)
Definition virtio_dev_init (virt intid : Z) : M (option Z) :=
  let regs := virt in
  magic <- READ32 regs MagicValue ;;
  if negb (magic =? VIRTIO_MAGIC) then
    m <- READ32 regs MagicValue ;;
    printf "error: virtio at 0x%x had wrong magic value 0x%x, expected 0x%x\n"
           [] [virt; m; VIRTIO_MAGIC] ;;
    ret (Some (-1))
  else
    version <- READ32 regs Version ;;
    if negb (version =? VIRTIO_VERSION) then
      v <- READ32 regs Version ;;
      printf "error: virtio at 0x%x had wrong version 0x%x, expected 0x%x\n"
             [] [virt; v; VIRTIO_VERSION] ;;
      ret (Some (-1))
    else
      id <- READ32 regs DeviceID ;;
      if id =? 0 then ret (Some (-1))
      else
        WRITE32 regs Status 0 ;;
        mb ;;
        s <- READ32 regs Status ;;
        WRITE32 regs Status (Z.lor s VIRTIO_STATUS_ACKNOWLEDGE) ;;
        mb ;;
        s <- READ32 regs Status ;;
        WRITE32 regs Status (Z.lor s VIRTIO_STATUS_DRIVER) ;;
        mb ;;
        id <- READ32 regs DeviceID ;;
        if id =? VIRTIO_DEV_BLK then virtio_blk_init regs intid
        else
          id <- READ32 regs DeviceID ;;
          printf "unsupported virtio device ID 0x%x\n" [] [id] ;;
          ret None.

Fixpoint virtio_init_probe (page_virt : Z) (slots : list nat) : M unit :=
  match slots with
  | [] => ret tt
  | i :: slots' =>
      virtio_dev_init (u32 (page_virt + 0x200 * Z.of_nat i))
                      (32 + 0x10 + Z.of_nat i) ;;
      virtio_init_probe page_virt slots'
  end.

Definition virtio_init : M unit :=
  page_virt <- alloc ;;
  kmem_map_pages page_virt 0x0a000000 0x4000 ;;
  virtio_init_probe page_virt (seq 0 32) ;;
  blk <- gets blkdev ;;
  b <- gets buffer ;;
  virtio_blk_read blk 0 b ;;
  ret tt.


Section Commands.

(** [atoi] is defined outside the sources; the shell command takes it as
    a parameter. *)
Variable atoi : string -> Z.

(** The function has no [return]. *)
Definition virtio_blk_cmd_status (argc : Z) (argv : list string) : M (option Z) :=
  blk <- gets blkdev ;;
  p <- kmem_lookup_phys (regs blk) ;;
  printf "virtio_blk_dev at 0x%x\n" [] [p] ;;
  v <- READ32 (regs blk) Status ;;
  printf "    Status=0x%x\n" [] [v] ;;
  v <- READ32 (regs blk) DeviceID ;;
  printf "    DeviceID=0x%x\n" [] [v] ;;
  v <- READ32 (regs blk) VendorID ;;
  printf "    VendorID=0x%x\n" [] [v] ;;
  v <- READ32 (regs blk) InterruptStatus ;;
  printf "    InterruptStatus=0x%x\n" [] [v] ;;
  v <- READ32 (regs blk) MagicValue ;;
  printf "    MagicValue=0x%x\n" [] [v] ;;
  printf "  Queue 0:\n" [] [] ;;
  vq <- deref_virtq (virtq blk) ;;
  x <- kload16 (avail vq + 2) ;;
  printf "    avail.idx = %u\n" [] [x] ;;
  vq <- deref_virtq (virtq blk) ;;
  x <- kload16 (used vq + 2) ;;
  printf "    used.idx = %u\n" [] [x] ;;
  WRITE32 (regs blk) QueueSel 0 ;;
  mb ;;
  v <- READ32 (regs blk) QueueReady ;;
  printf "    ready = 0x%x\n" [] [v] ;;
  ret None.

(** [sector] is parsed from [argv[1]]; the read that follows is given
    the literal 0. *)
Definition virtio_blk_cmd_read (argc : Z) (argv : list string) : M (option Z) :=
  if negb (argc =? 2) then
    puts "usage: read SECTOR\n" ;;
    ret (Some 1)
  else
    let sector := u32 (atoi (nth 1 argv ""%string)) in
    blk <- gets blkdev ;;
    b <- gets buffer ;;
    virtio_blk_read blk 0 b ;;
    ret (Some 0).

End Commands.

(** The bits of a capability table, or-ed together. *)
Definition caps_mask (caps : list virtio_cap) : Z :=
  fold_right (fun cap m => Z.lor (bit cap) m) 0 caps.

(** The register writes of a bus history, oldest first. *)
Fixpoint mmio_writes (h : list mmio_event) : list (Z * reg * Z) :=
  match h with
  | [] => []
  | MmioWrite base r v :: h' => (base, r, v) :: mmio_writes h'
  | _ :: h' => mmio_writes h'
  end.

(** *** Concrete machines for the examples *)

(** The value last written to [Status] of the slot at [base]. *)
Fixpoint last_status (base : Z) (h : list mmio_event) (acc : Z) : Z :=
  match h with
  | [] => acc
  | MmioWrite b Status v :: h' =>
      last_status base h' (if b =? base then v else acc)
  | _ :: h' => last_status base h' acc
  end.

(** A block device in the slot at 0x1000 that offers the read-only
    feature.  With [accepts] it keeps every status bit the driver
    writes; without, it drops FEATURES_OK. *)
Definition blk_device (accepts : bool) (h : list mmio_event) (base : Z) (r : reg) : Z :=
  if negb (base =? 0x1000) then 0
  else match r with
       | MagicValue => VIRTIO_MAGIC
       | Version => VIRTIO_VERSION
       | DeviceID => VIRTIO_DEV_BLK
       | DeviceFeatures => Z.shiftl 1 5
       | Status =>
           if accepts then last_status base h 0
           else Z.land (last_status base h 0) (Z.lnot VIRTIO_STATUS_FEATURES_OK)
       | QueueNumMax => 1024
       | ConfigCapacity => 2048
       | _ => 0
       end.

(** A slot whose identification registers read [magic], [version] and
    [id], and every other register zero. *)
Definition slot_device (magic version id : Z) (h : list mmio_event) (base : Z)
    (r : reg) : Z :=
  match r with
  | MagicValue => magic
  | Version => version
  | DeviceID => id
  | _ => 0
  end.

(** A kernel before [virtio_init], attached to the device [d]: the
    allocators hand out successive pages from 0x40000000. *)
Definition machine (d : list mmio_event -> Z -> reg -> Z) : kernel :=
  {| dev := d; mmio := []; kmem := fun _ => 0; virtqs := ∅; reqs := ∅;
     console := []; blkdev := {| regs := 0; virtq := None; intid := 0 |};
     blkreq_slab := None;
     phys_of := fun a => a;
     alloc_pick := fun n => Z.of_nat n * 0x1000 + 0x40000000;
     alloc_count := 0%nat; irqs := []; buffer := 0x3000 |}.

(** The machine with an accepting block device in the slot at 0x1000,
    after that slot has been initialized. *)
Definition blk_ready : kernel :=
  match virtio_dev_init 0x1000 48 (machine (blk_device true)) with
  | Some (_, st) => st
  | None => machine (blk_device true)
  end.

End Virtio.

(** * Properties *)

(** ** Integers and memory *)

Section Memory.

Lemma u16_small (x : Z) : 0 <= x < 2 ^ 16 -> u16 x = x.
Proof. intros H. unfold u16. apply Z.mod_small. exact H. Qed.

Lemma u32_small (x : Z) : 0 <= x < 2 ^ 32 -> u32 x = x.
Proof. intros H. unfold u32. apply Z.mod_small. exact H. Qed.

Lemma u32_range (x : Z) : 0 <= u32 x < 2 ^ 32.
Proof. unfold u32. apply Z.mod_pos_bound. lia. Qed.

Lemma u16_range (x : Z) : 0 <= u16 x < 2 ^ 16.
Proof. unfold u16. apply Z.mod_pos_bound. lia. Qed.

Lemma s32_small (x : Z) : 0 <= x < 2 ^ 31 -> s32 x = x.
Proof. intros H. unfold s32. rewrite Z.mod_small; lia. Qed.

Lemma htons_range (x : Z) : 0 <= htons x < 2 ^ 16.
Proof.
  unfold htons.
  pose proof (Z.mod_pos_bound x (2 ^ 8) ltac:(lia)).
  pose proof (Z.mod_pos_bound (x / 2 ^ 8) (2 ^ 8) ltac:(lia)).
  lia.
Qed.

(** Swapping the bytes twice gives the value back. *)
Lemma ntohs_htons (x : Z) : 0 <= x < 2 ^ 16 -> ntohs (htons x) = x.
Proof.
  intros H. unfold ntohs, htons.
  assert (Hq : 0 <= x / 2 ^ 8 < 2 ^ 8).
  { split; [apply Z.div_pos; lia | apply Z.div_lt_upper_bound; lia]. }
  pose proof (Z.mod_pos_bound x (2 ^ 8) ltac:(lia)) as Hr.
  rewrite (Z.mod_small (x / 2 ^ 8)) by exact Hq.
  replace ((2 ^ 8 * (x mod 2 ^ 8) + x / 2 ^ 8) mod 2 ^ 8) with (x / 2 ^ 8).
  2:{ rewrite Z.add_comm, Z.mul_comm, Z.mod_add by lia.
      symmetry. apply Z.mod_small. exact Hq. }
  replace ((2 ^ 8 * (x mod 2 ^ 8) + x / 2 ^ 8) / 2 ^ 8) with (x mod 2 ^ 8).
  2:{ rewrite Z.add_comm, Z.mul_comm, Z.div_add by lia.
      rewrite (Z.div_small (x / 2 ^ 8)) by exact Hq. lia. }
  rewrite (Z.mod_small (x mod 2 ^ 8)) by exact Hr.
  pose proof (Z.div_mod x (2 ^ 8) ltac:(lia)). lia.
Qed.

Lemma store8_same (m : mem) (a v : Z) : store8 m a v a = u8 v.
Proof. unfold store8. rewrite Z.eqb_refl. reflexivity. Qed.

Lemma store8_other (m : mem) (a v x : Z) : x <> a -> store8 m a v x = m x.
Proof.
  intros H. unfold store8. destruct (Z.eqb_spec x a); [contradiction | reflexivity].
Qed.

(** A store changes only the bytes it covers. *)
Lemma storen_outside (n : nat) (m : mem) (a v x : Z) :
  x < a \/ a + Z.of_nat n <= x -> storen n m a v x = m x.
Proof.
  revert m a v. induction n as [|n IH]; intros m a v H; simpl.
  - reflexivity.
  - rewrite IH by lia. apply store8_other. lia.
Qed.

(** A load depends only on the bytes it covers. *)
Lemma loadn_ext (n : nat) (m m' : mem) (a : Z) :
  (forall x, a <= x < a + Z.of_nat n -> m x = m' x) ->
  loadn n m a = loadn n m' a.
Proof.
  revert a. induction n as [|n IH]; intros a H; simpl.
  - reflexivity.
  - unfold load8. rewrite (H a) by lia.
    rewrite (IH (a + 1)); [reflexivity |].
    intros x Hx. apply H. lia.
Qed.

Lemma loadn_storen_other (n k : nat) (m : mem) (a b v : Z) :
  b + Z.of_nat k <= a \/ a + Z.of_nat n <= b ->
  loadn k (storen n m a v) b = loadn k m b.
Proof.
  intros H. apply loadn_ext. intros x Hx. apply storen_outside. lia.
Qed.

Lemma loadn_range (n : nat) (m : mem) (a : Z) :
  0 <= loadn n m a < 2 ^ (8 * Z.of_nat n).
Proof.
  revert a. induction n as [|n IH]; intros a; simpl loadn.
  - simpl. lia.
  - specialize (IH (a + 1)).
    assert (Hb : 0 <= load8 m a < 2 ^ 8).
    { unfold load8, u8. apply Z.mod_pos_bound. lia. }
    replace (8 * Z.of_nat (S n)) with (8 + 8 * Z.of_nat n) by lia.
    rewrite Z.pow_add_r by lia. nia.
Qed.

(** Reading back what was stored gives the value truncated to the width. *)
Lemma loadn_storen_same (n : nat) (m : mem) (a v : Z) :
  loadn n (storen n m a v) a = v mod 2 ^ (8 * Z.of_nat n).
Proof.
  revert m a v. induction n as [|n IH]; intros m a v.
  - simpl. rewrite Z.mod_1_r. reflexivity.
  - simpl loadn. simpl storen. rewrite IH.
    unfold load8. rewrite storen_outside by lia. rewrite store8_same.
    unfold u8. rewrite Z.mod_mod by lia. rewrite Z.shiftr_div_pow2 by lia.
    replace (8 * Z.of_nat (S n)) with (8 + 8 * Z.of_nat n) by lia.
    rewrite Z.pow_add_r by lia.
    rewrite (Z.rem_mul_r v (2 ^ 8) (2 ^ (8 * Z.of_nat n))); [reflexivity | lia |].
    apply Z.pow_pos_nonneg; lia.
Qed.

Lemma load16_store16_same (m : mem) (a v : Z) : load16 (store16 m a v) a = u16 v.
Proof. unfold load16, store16. rewrite loadn_storen_same. reflexivity. Qed.

Lemma load32_store32_same (m : mem) (a v : Z) : load32 (store32 m a v) a = u32 v.
Proof. unfold load32, store32. rewrite loadn_storen_same. reflexivity. Qed.

Lemma load64_store64_same (m : mem) (a v : Z) : load64 (store64 m a v) a = u64 v.
Proof. unfold load64, store64. rewrite loadn_storen_same. reflexivity. Qed.

Lemma load16_range (m : mem) (a : Z) : 0 <= load16 m a < 2 ^ 16.
Proof. apply (loadn_range 2). Qed.

Lemma load16_store16_other (m : mem) (a b v : Z) :
  b + 2 <= a \/ a + 2 <= b -> load16 (store16 m a v) b = load16 m b.
Proof. intros H. apply (loadn_storen_other 2 2). lia. Qed.

Lemma load_words_ext (n : nat) (m m' : mem) (a : Z) :
  (forall x, a <= x < a + 2 * Z.of_nat n -> m x = m' x) ->
  load_words m a n = load_words m' a n.
Proof.
  revert a. induction n as [|n IH]; intros a H; simpl.
  - reflexivity.
  - f_equal.
    + apply (loadn_ext 2). intros x Hx. apply H. lia.
    + apply IH. intros x Hx. apply H. lia.
Qed.

Lemma load_words_length (n : nat) (m : mem) (a : Z) :
  length (load_words m a n) = n.
Proof. revert a. induction n as [|n IH]; intros a; simpl; [reflexivity | now rewrite IH]. Qed.

Lemma word_sum_load_words_bound (n : nat) (m : mem) (a : Z) :
  0 <= word_sum (load_words m a n) <= (2 ^ 16 - 1) * Z.of_nat n.
Proof.
  revert a. induction n as [|n IH]; intros a.
  - simpl. lia.
  - cbn [load_words word_sum fold_right].
    pose proof (load16_range m a). specialize (IH (a + 2)).
    unfold word_sum in IH. lia.
Qed.

(** Overwriting the [k]-th of [n] words changes their sum by the
    difference of the new and the old word. *)
Lemma word_sum_store16 (n : nat) (m : mem) (a k v : Z) :
  0 <= k < Z.of_nat n ->
  word_sum (load_words (store16 m (a + 2 * k) v) a n)
  = word_sum (load_words m a n) - load16 m (a + 2 * k) + u16 v.
Proof.
  revert a k. induction n as [|n IH]; intros a k Hk.
  - simpl in Hk. lia.
  - cbn [load_words word_sum fold_right].
    destruct (Z.eq_dec k 0) as [-> | Hne].
    + replace (a + 2 * 0) with a by lia.
      rewrite load16_store16_same.
      rewrite (load_words_ext n (store16 m a v) m (a + 2)).
      * lia.
      * intros x Hx. apply (storen_outside 2). lia.
    + rewrite load16_store16_other by lia.
      specialize (IH (a + 2) (k - 1) ltac:(lia)).
      replace (a + 2 + 2 * (k - 1)) with (a + 2 * k) in IH by lia.
      unfold word_sum in IH. rewrite IH. lia.
Qed.

End Memory.

(** ** UDP socket core *)

Module UdpFacts.
Import Udp.

(** *** Binding *)

(** [udp_bind] refuses a port for which [lookup_entry], given the port
    as the caller passed it, finds an entry; nothing changes. *)
Lemma udp_bind_in_use (s : nat) (address : Z) (addr : sockaddr_in)
    (entry : udp_wait_entry) (st : kernel) :
  sk_bound (sockets st !!! s) = false ->
  usockaddr st address = Some addr ->
  sin_addr addr = 0 \/ sin_addr addr = nif_ip st ->
  lookup_entry (sin_port addr) st = Some entry ->
  udp_bind s address sizeof_sockaddr_in st = (- EADDRINUSE, st).
Proof.
  intros Hb Hu Ha Hl. unfold udp_bind. rewrite Hb, Z.eqb_refl, Hu. cbn [negb].
  replace (negb (sin_addr addr =? 0) && negb (sin_addr addr =? nif_ip st)) with false.
  - rewrite Hl. reflexivity.
  - destruct Ha as [-> | ->]; rewrite Z.eqb_refl; cbn [negb andb];
      [reflexivity | rewrite andb_false_r; reflexivity].
Qed.

(** Otherwise it binds. *)
Lemma udp_bind_free (s : nat) (address : Z) (addr : sockaddr_in) (st : kernel) :
  sk_bound (sockets st !!! s) = false ->
  usockaddr st address = Some addr ->
  sin_addr addr = 0 \/ sin_addr addr = nif_ip st ->
  lookup_entry (sin_port addr) st = None ->
  udp_bind s address sizeof_sockaddr_in st = (0, udp_do_bind s addr st).
Proof.
  intros Hb Hu Ha Hl. unfold udp_bind. rewrite Hb, Z.eqb_refl, Hu. cbn [negb].
  replace (negb (sin_addr addr =? 0) && negb (sin_addr addr =? nif_ip st)) with false.
  - rewrite Hl. reflexivity.
  - destruct Ha as [-> | ->]; rewrite Z.eqb_refl; cbn [negb andb];
      [reflexivity | rewrite andb_false_r; reflexivity].
Qed.

(** What a bind leaves behind: the socket is bound to the address, and
    its entry heads the bucket of the host-order port. *)
Lemma udp_do_bind_bound (s : nat) (addr : sockaddr_in) (st : kernel) :
  let st' := udp_do_bind s addr st in
  sk_bound (sockets st' !!! s) = true /\
  src (sockets st' !!! s) = addr /\
  head (bucket st' (udp_hash (ntohs (sin_port addr))))
  = Some {| sock := Some s; proc := None; rcv := None;
            port := ntohs (sin_port addr) |}.
Proof.
  cbn. rewrite lookup_total_insert_eq. cbn.
  unfold bucket. cbn. rewrite lookup_insert_eq. cbn. auto.
Qed.

(** C1.  Two sockets bind port 5000 one after the other, each passing
    the port in network byte order as [bind] requires.  After the first
    bind the table holds an entry for port 5000, yet the second bind
    returns 0 instead of -EADDRINUSE and adds a second entry for the
    port: [udp_bind] looks the port up as the caller gave it, while the
    table is keyed by the host-order port. *)
Theorem udp_bind_same_port_twice :
  let r1 := udp_bind 1 4096 16 boot in
  let r2 := udp_bind 2 4096 16 (snd r1) in
  usockaddr boot 4096 = Some {| sin_port := htons 5000; sin_addr := 0 |} /\
  fst r1 = 0 /\
  map port (bucket (snd r1) (udp_hash 5000)) = [5000] /\
  fst r2 = 0 /\
  fst r2 <> - EADDRINUSE /\
  map (fun e => (sock e, port e)) (bucket (snd r2) (udp_hash 5000))
  = [(Some 2%nat, 5000); (Some 1%nat, 5000)] /\
  sk_bound (sockets (snd r2) !!! 2%nat) = true.
Proof. vm_compute. repeat split; try reflexivity. discriminate. Qed.

(** *** Demultiplexing *)

(** The walk runs off the end exactly when no entry of the chain takes
    the packet. *)
Lemma udp_recv_walk_none (pkt : packet) (dport hash : Z)
    (seen rest : list udp_wait_entry) (st : kernel) :
  Forall (fun entry => takes dport entry = false) rest ->
  udp_recv_walk pkt dport hash seen rest st = None.
Proof.
  intros H. revert seen. induction H as [|entry rest He _ IH]; intros seen.
  - reflexivity.
  - cbn [udp_recv_walk]. unfold takes in He.
    destruct (sock entry); [discriminate |]. rewrite He. apply IH.
Qed.

(** The first entry that takes the packet gets it: a socket-bound entry
    whatever its port, a waiter when its port is the destination port. *)
Lemma udp_recv_walk_first (pkt : packet) (dport hash : Z)
    (seen pre post : list udp_wait_entry) (entry : udp_wait_entry) (st : kernel) :
  Forall (fun e => takes dport e = false) pre ->
  takes dport entry = true ->
  udp_recv_walk pkt dport hash seen (pre ++ entry :: post) st
  = Some (match sock entry with
          | Some s => wait_list_awaken s (list_insert_end s pkt st)
          | None =>
              let st1 := set_udp_hlist
                           (<[hash := (seen ++ pre) ++ set_rcv (Some pkt) entry :: post]>
                              (udp_hlist st)) st in
              match proc entry with
              | Some q => set_ready q true st1
              | None => st1
              end
          end).
Proof.
  intros Hpre He. revert seen. induction Hpre as [|e pre Hn _ IH]; intros seen.
  - cbn [app udp_recv_walk]. unfold takes in He. rewrite app_nil_r.
    destruct (sock entry); [reflexivity |]. rewrite He. reflexivity.
  - cbn [app udp_recv_walk]. unfold takes in Hn.
    destruct (sock e); [discriminate |]. rewrite Hn. rewrite IH.
    replace ((seen ++ [e]) ++ pre) with (seen ++ e :: pre)
      by (rewrite <- app_assoc; reflexivity).
    reflexivity.
Qed.

(** [udp_recv] frees the packet, with the diagnostic, exactly when no
    entry of the destination port's bucket takes it. *)
Lemma udp_recv_unclaimed (pkt : packet) (st : kernel) :
  let dport := ntohs (udp_dst_port pkt) in
  Forall (fun entry => takes dport entry = false) (bucket st (udp_hash dport)) ->
  udp_recv pkt st
  = packet_free (set_al (tl pkt + sizeof_udphdr) pkt)
      (puts "nobody was waiting for this packet, freeing\n" st).
Proof.
  intros dport H. unfold udp_recv.
  change (udp_dst_port (set_al (tl pkt + sizeof_udphdr) pkt)) with (udp_dst_port pkt).
  fold dport. rewrite udp_recv_walk_none by exact H. reflexivity.
Qed.

(** C2.  Socket 1 is bound to port 5000 and a packet for port 5128
    arrives.  Both ports hash to bucket 8, and [udp_recv] hands the
    packet to the first socket-bound entry of the bucket without
    comparing ports: the packet ends up in the receive queue of the
    socket bound to port 5000; it is neither freed nor reported. *)
Theorem udp_recv_delivers_to_other_port :
  let st := snd (udp_bind 1 4096 16 boot) in
  let st' := udp_recv pkt_for_5128 st in
  ntohs (udp_dst_port pkt_for_5128) = 5128 /\
  map (fun e => (sock e, port e)) (bucket st (udp_hash 5128)) = [(Some 1%nat, 5000)] /\
  map pkt_id (recvq (sockets st' !!! 1%nat)) = [7%nat] /\
  freed st' = [] /\
  console st' = [].
Proof. vm_compute. repeat split; reflexivity. Qed.

(** *** The ephemeral allocator *)

Lemma udp_bind_to_ephemeral_eq (s : nat) (st : kernel) :
  udp_bind_to_ephemeral s st = udp_bind_to_ephemeral_loop EPH_TRIES s st.
Proof. reflexivity. Qed.

(** A successful run of the allocator loop advances the cursor and then
    binds the socket to the one port [p] whose probe [htons p] found no
    entry; a run in range stays in range. *)
Lemma udp_bind_to_ephemeral_loop_ok (tries : nat) (s : nat) (st st' : kernel) :
  udp_bind_to_ephemeral_loop tries s st = (true, st') ->
  exists p i,
    st' = udp_do_bind s {| sin_port := htons p; sin_addr := 0 |} (set_eph_i i st) /\
    lookup_entry (htons p) st = None /\
    (EPH_BEGIN <= eph_i st <= 65535 -> EPH_BEGIN <= p <= 65535).
Proof.
  revert st. induction tries as [|n IH]; intros st H.
  - discriminate.
  - cbn [udp_bind_to_ephemeral_loop] in H.
    set (i1 := if eph_i st =? 65535 then EPH_BEGIN else u16 (eph_i st + 1)) in *.
    change (lookup_entry (htons (eph_i st)) (set_eph_i i1 st))
      with (lookup_entry (htons (eph_i st)) st) in H.
    destruct (lookup_entry (htons (eph_i st)) st) eqn:E.
    + apply IH in H. destruct H as (p & i & -> & Hl & Hr).
      exists p, i. split; [reflexivity |]. split; [exact Hl |].
      intros Hi. apply Hr. cbn [eph_i set_eph_i]. subst i1.
      destruct (Z.eqb_spec (eph_i st) 65535).
      * unfold EPH_BEGIN. lia.
      * rewrite u16_small; unfold EPH_BEGIN in *; lia.
    + inversion H; subst st'. exists (eph_i st), i1.
      split; [reflexivity |]. split; [exact E | tauto].
Qed.

(** When every probe finds an entry the allocator fails, and all it has
    changed is the position of the cursor. *)
Lemma udp_bind_to_ephemeral_loop_exhausted (tries : nat) (s : nat) (st st' : kernel) :
  udp_bind_to_ephemeral_loop tries s st = (false, st') ->
  exists i, st' = set_eph_i i st.
Proof.
  revert st. induction tries as [|n IH]; intros st H.
  - inversion H; subst st'. exists (eph_i st). destruct st; reflexivity.
  - cbn [udp_bind_to_ephemeral_loop] in H.
    set (i1 := if eph_i st =? 65535 then EPH_BEGIN else u16 (eph_i st + 1)) in *.
    destruct (lookup_entry (htons (eph_i st)) (set_eph_i i1 st)) eqn:E.
    + apply IH in H. destruct H as (i & ->). exists i. reflexivity.
    + discriminate.
Qed.

(** When all probes of the allocator find an entry, a send on an
    unbound connected socket returns -EADDRINUSE. *)
Lemma udp_sys_send_exhausted (ip_reserve MAX_ETH_PKT_SIZE : Z) (s : nat)
    (buf len flags : Z) (st st1 : kernel) :
  u32 (udp_reserve ip_reserve + len) <= u32 MAX_ETH_PKT_SIZE ->
  sk_connected (sockets st !!! s) = true ->
  sk_bound (sockets st !!! s) = false ->
  udp_bind_to_ephemeral s st = (false, st1) ->
  udp_sys_send ip_reserve MAX_ETH_PKT_SIZE s buf len flags st = (- EADDRINUSE, st1).
Proof.
  intros Hsz Hc Hb He. unfold udp_sys_send.
  destruct (Z.ltb_spec (u32 MAX_ETH_PKT_SIZE) (u32 (udp_reserve ip_reserve + len)));
    [lia |].
  rewrite Hc, Hb. cbn [negb]. rewrite He. reflexivity.
Qed.

(** C3.  Socket 1 binds port 20000; socket 2 connects and sends without
    having bound.  The ephemeral allocator probes [htons 20000] instead
    of 20000, finds nothing, and binds socket 2 to port 20000 although
    the table already holds an entry for that port. *)
Theorem udp_ephemeral_takes_bound_port :
  let st1 := snd (udp_bind 1 4112 16 boot) in
  let st2 := snd (udp_connect 2 4128 16 st1) in
  let r := udp_sys_send 34 1514 2 8192 2 0 st2 in
  map (fun e => (sock e, port e)) (bucket st2 (udp_hash 20000)) = [(Some 1%nat, 20000)] /\
  eph_i st2 = 20000 /\
  fst r = 2 /\
  src (sockets (snd r) !!! 2%nat) = {| sin_port := htons 20000; sin_addr := 0 |} /\
  map (fun e => (sock e, port e)) (bucket (snd r) (udp_hash 20000))
  = [(Some 2%nat, 20000); (Some 1%nat, 20000)].
Proof. vm_compute. repeat split; reflexivity. Qed.

(** *** Connect *)

(** C9.  [udp_connect] with a readable v4 address returns 0, stores the
    address as the socket's destination and sets the connected flag.
    Connecting again with the same address leaves the kernel state as it
    was after the first connect, and connecting with a second address
    gives the state that the second connect alone would have given. *)
Theorem udp_connect_overwrites (s : nat) (a1 a2 : Z) (addr1 addr2 : sockaddr_in)
    (st : kernel) :
  usockaddr st a1 = Some addr1 ->
  usockaddr st a2 = Some addr2 ->
  let st1 := snd (udp_connect s a1 sizeof_sockaddr_in st) in
  fst (udp_connect s a1 sizeof_sockaddr_in st) = 0 /\
  dst (sockets st1 !!! s) = addr1 /\
  sk_connected (sockets st1 !!! s) = true /\
  udp_connect s a1 sizeof_sockaddr_in st1 = (0, st1) /\
  udp_connect s a2 sizeof_sockaddr_in st1 = udp_connect s a2 sizeof_sockaddr_in st.
Proof.
  intros H1 H2. unfold udp_connect. rewrite Z.eqb_refl. cbn [negb].
  rewrite H1. cbn [fst snd].
  repeat split.
  - cbn. rewrite lookup_total_insert_eq. reflexivity.
  - cbn. rewrite lookup_total_insert_eq. reflexivity.
  - cbn [usockaddr set_sockets sockets]. rewrite H1.
    rewrite lookup_total_insert_eq. cbn.
    rewrite insert_insert_eq. reflexivity.
  - cbn [usockaddr set_sockets sockets]. rewrite H2.
    rewrite lookup_total_insert_eq. cbn.
    rewrite insert_insert_eq. reflexivity.
Qed.

Lemma udp_connect_overwrites_witness :
  let st1 := snd (udp_connect 2 4128 sizeof_sockaddr_in boot) in
  usockaddr boot 4128 = Some {| sin_port := htons 53; sin_addr := 0x0302000a |} /\
  usockaddr boot 4096 = Some {| sin_port := htons 5000; sin_addr := 0 |} /\
  dst (sockets st1 !!! 2%nat) = {| sin_port := htons 53; sin_addr := 0x0302000a |} /\
  udp_connect 2 4096 sizeof_sockaddr_in st1 = udp_connect 2 4096 sizeof_sockaddr_in boot.
Proof.
  pose proof (udp_connect_overwrites 2 4128 4096
                {| sin_port := htons 53; sin_addr := 0x0302000a |}
                {| sin_port := htons 5000; sin_addr := 0 |} boot
                eq_refl eq_refl) as H.
  cbv zeta in H. destruct H as (_ & Hd & _ & _ & Ho).
  split; [reflexivity |]. split; [reflexivity |]. split; [exact Hd | exact Ho].
Defined.

(** *** Receive *)

(** C5.  On a bound socket whose receive queue starts with a packet of
    payload length [pkt_end - al], a receive with a shorter buffer
    returns -EMSGSIZE and changes nothing: the packet stays at the head
    of the queue and is not freed. *)
Theorem udp_sys_recv_short_buffer (s : nat) (buf len flags : Z) (st : kernel)
    (pkt : packet) (q : list packet) :
  sk_bound (sockets st !!! s) = true ->
  recvq (sockets st !!! s) = pkt :: q ->
  0 <= pkt_end pkt - al pkt < 2 ^ 32 ->
  len < pkt_end pkt - al pkt ->
  udp_sys_recv s buf len flags st = Returned (- EMSGSIZE) st.
Proof.
  intros Hb Hq Hr Hl. unfold udp_sys_recv.
  rewrite Hb. cbn [negb]. unfold socket_recvq_get. rewrite Hq. cbn [head].
  rewrite u32_small by exact Hr.
  destruct (Z.ltb_spec len (pkt_end pkt - al pkt)); [reflexivity | lia].
Qed.

Lemma udp_sys_recv_short_buffer_witness :
  let st := udp_recv pkt_for_5128 (snd (udp_bind 1 4096 16 boot)) in
  let pkt := set_al 42 pkt_for_5128 in
  sk_bound (sockets st !!! 1%nat) = true /\
  recvq (sockets st !!! 1%nat) = [pkt] /\
  pkt_end pkt - al pkt = 2 /\
  udp_sys_recv 1 8192 1 0 st = Returned (- EMSGSIZE) st.
Proof.
  intros st pkt.
  assert (H1 : sk_bound (sockets st !!! 1%nat) = true) by reflexivity.
  assert (H2 : recvq (sockets st !!! 1%nat) = [pkt]) by reflexivity.
  assert (H3 : 0 <= pkt_end pkt - al pkt < 2 ^ 32)
    by (vm_compute; split; [discriminate | reflexivity]).
  assert (H4 : 1 < pkt_end pkt - al pkt) by (vm_compute; reflexivity).
  split; [exact H1 |]. split; [exact H2 |]. split; [reflexivity |].
  exact (udp_sys_recv_short_buffer 1 8192 1 0 st pkt [] H1 H2 H3 H4).
Defined.

(** *** A send whose copy faults *)

(** C10.  A send on a connected socket that gets as far as copying the
    payload, and whose copy faults, returns the negative fault code
    after freeing the packet it had just allocated; nothing is sent.  If
    the socket was unbound on entry, the ephemeral bind made earlier in
    the call stays: the socket is bound, and its entry heads the bucket
    of the ephemeral port. *)
Theorem udp_sys_send_fault_keeps_bind (ip_reserve MAX_ETH_PKT_SIZE : Z) (s : nat)
    (buf len flags : Z) (st : kernel) :
  sk_connected (sockets st !!! s) = true ->
  u32 (udp_reserve ip_reserve + len) <= u32 MAX_ETH_PKT_SIZE ->
  fst (if sk_bound (sockets st !!! s) then (true, st)
       else udp_bind_to_ephemeral s st) = true ->
  user_bytes (umem st) buf (Z.to_nat len) = None ->
  let r := udp_sys_send ip_reserve MAX_ETH_PKT_SIZE s buf len flags st in
  fst r = - EFAULT /\
  fst r < 0 /\
  freed (snd r) = pkt_next st :: freed st /\
  ip_out (snd r) = ip_out st /\
  (sk_bound (sockets st !!! s) = true ->
   sockets (snd r) = sockets st /\ udp_hlist (snd r) = udp_hlist st) /\
  (sk_bound (sockets st !!! s) = false ->
   sk_bound (sockets (snd r) !!! s) = true /\
   exists p,
     lookup_entry (htons p) st = None /\
     src (sockets (snd r) !!! s) = {| sin_port := htons p; sin_addr := 0 |} /\
     head (bucket (snd r) (udp_hash (ntohs (htons p))))
     = Some {| sock := Some s; proc := None; rcv := None;
               port := ntohs (htons p) |}).
Proof.
  intros Hc Hsz Hb Hu r. subst r. unfold udp_sys_send.
  destruct (Z.ltb_spec (u32 MAX_ETH_PKT_SIZE) (u32 (udp_reserve ip_reserve + len)));
    [lia |].
  rewrite Hc. cbn [negb].
  destruct (sk_bound (sockets st !!! s)) eqn:Eb; cbn [negb].
  - cbn [packet_alloc umem set_pkt_next]. rewrite Hu.
    cbn [fst snd packet_free set_al freed set_freed pkt_id ip_out sockets
         udp_hlist set_pkt_next].
    split; [reflexivity |]. split; [reflexivity |].
    split; [reflexivity |]. split; [reflexivity |].
    split; [intros _; split; reflexivity | discriminate].
  - destruct (udp_bind_to_ephemeral s st) as [ok st1] eqn:Ee.
    cbn [fst] in Hb. subst ok. cbn [negb].
    rewrite udp_bind_to_ephemeral_eq in Ee.
    apply udp_bind_to_ephemeral_loop_ok in Ee.
    destruct Ee as (p & i & -> & Hl & _).
    pose proof (udp_do_bind_bound s {| sin_port := htons p; sin_addr := 0 |}
                  (set_eph_i i st)) as B.
    cbv zeta in B. destruct B as (B1 & B2 & B3).
    set (st1 := udp_do_bind s {| sin_port := htons p; sin_addr := 0 |}
                  (set_eph_i i st)) in *.
    assert (Hum : umem st1 = umem st) by reflexivity.
    cbn [packet_alloc umem set_pkt_next]. rewrite Hum, Hu.
    cbn [fst snd packet_free set_al freed set_freed pkt_id ip_out sockets
         udp_hlist set_pkt_next].
    split; [reflexivity |]. split; [reflexivity |].
    split; [reflexivity |]. split; [reflexivity |].
    split; [discriminate |]. intros _.
    split; [exact B1 |]. exists p.
    split; [exact Hl |]. split; [exact B2 | exact B3].
Qed.

Lemma udp_sys_send_fault_keeps_bind_witness :
  let st := snd (udp_connect 2 4128 16 boot) in
  let r := udp_sys_send 34 1514 2 12288 2 0 st in
  sk_connected (sockets st !!! 2%nat) = true /\
  sk_bound (sockets st !!! 2%nat) = false /\
  user_bytes (umem st) 12288 (Z.to_nat 2) = None /\
  fst r = - EFAULT /\
  freed (snd r) = pkt_next st :: freed st /\
  sk_bound (sockets (snd r) !!! 2%nat) = true.
Proof.
  intros st r.
  assert (H1 : sk_connected (sockets st !!! 2%nat) = true) by (vm_compute; reflexivity).
  assert (H2 : u32 (udp_reserve 34 + 2) <= u32 1514) by (vm_compute; discriminate).
  assert (H3 : fst (if sk_bound (sockets st !!! 2%nat) then (true, st)
                    else udp_bind_to_ephemeral 2 st) = true)
    by (vm_compute; reflexivity).
  assert (H4 : user_bytes (umem st) 12288 (Z.to_nat 2) = None)
    by (vm_compute; reflexivity).
  assert (H5 : sk_bound (sockets st !!! 2%nat) = false) by (vm_compute; reflexivity).
  destruct (udp_sys_send_fault_keeps_bind 34 1514 2 12288 2 0 st H1 H2 H3 H4)
    as (R1 & _ & R3 & _ & _ & R6).
  destruct (R6 H5) as (R7 & _).
  repeat split; assumption.
Defined.

(** *** The checksum *)

Lemma csum_add_value_small (c v : Z) :
  0 <= c -> 0 <= v -> c + v < 2 ^ 32 -> csum_add_value c v = c + v.
Proof. intros Hc Hv H. unfold csum_add_value. apply u32_small. lia. Qed.

Lemma word_sum_cons (w : Z) (ws : list Z) : word_sum (w :: ws) = w + word_sum ws.
Proof. reflexivity. Qed.

Lemma word_sum_nonneg (ws : list Z) :
  Forall (fun w => 0 <= w) ws -> 0 <= word_sum ws.
Proof.
  induction 1 as [|w ws Hw _ IH]; [cbn; lia |].
  rewrite word_sum_cons. cbv beta in Hw. lia.
Qed.

(** As long as the accumulator does not overflow it holds the plain sum
    of the words added. *)
Lemma csum_add_small (ws : list Z) (c : Z) :
  0 <= c -> Forall (fun w => 0 <= w) ws -> c + word_sum ws < 2 ^ 32 ->
  csum_add c ws = c + word_sum ws.
Proof.
  intros Hc Hws. revert c Hc.
  induction Hws as [|w ws Hw Hws IH]; intros c Hc H.
  - cbn. lia.
  - rewrite word_sum_cons in *. pose proof (word_sum_nonneg ws Hws) as Hn.
    cbv beta in Hw.
    unfold csum_add. cbn [fold_left]. fold (csum_add (csum_add_value c w) ws).
    rewrite csum_add_value_small by lia.
    rewrite IH by lia. lia.
Qed.

Lemma load_words_nonneg (n : nat) (m : mem) (a : Z) :
  Forall (fun w => 0 <= w) (load_words m a n).
Proof.
  revert a. induction n as [|n IH]; intros a; cbn [load_words]; constructor.
  - apply load16_range.
  - apply IH.
Qed.

Lemma csum_fold_spec (c : Z) :
  0 <= c -> csum_fold c = c mod 2 ^ 16 + c / 2 ^ 16.
Proof.
  intros Hc. unfold csum_fold.
  change 65535 with (Z.ones 16). rewrite Z.land_ones by lia.
  rewrite Z.shiftr_div_pow2 by lia. reflexivity.
Qed.

(** Folding twice brings a 32-bit sum into 16 bits without changing it
    modulo 2^16 - 1, and only zero folds to zero. *)
Lemma csum_fold_twice (c : Z) :
  0 <= c < 2 ^ 32 ->
  exists k, csum_fold (csum_fold c) = c - (2 ^ 16 - 1) * k /\
            0 <= csum_fold (csum_fold c) <= 2 ^ 16 - 1 /\
            (0 < c <-> 0 < csum_fold (csum_fold c)).
Proof.
  intros Hc.
  assert (H1 : csum_fold c = c mod 2 ^ 16 + c / 2 ^ 16) by (apply csum_fold_spec; lia).
  assert (Hb : 0 <= csum_fold c).
  { rewrite H1. pose proof (Z.mod_pos_bound c (2 ^ 16) ltac:(lia)).
    pose proof (Z.div_pos c (2 ^ 16) ltac:(lia) ltac:(lia)). lia. }
  rewrite (csum_fold_spec (csum_fold c)) by exact Hb.
  rewrite H1.
  exists (c / 2 ^ 16 + (c mod 2 ^ 16 + c / 2 ^ 16) / 2 ^ 16).
  change (2 ^ 16) with 65536 in *. change (2 ^ 32) with 4294967296 in *.
  Z.div_mod_to_equations. lia.
Qed.

Lemma csum_finalize_spec (c : Z) :
  0 <= c < 2 ^ 32 -> csum_finalize c = 2 ^ 16 - 1 - csum_fold (csum_fold c).
Proof.
  intros Hc. destruct (csum_fold_twice c Hc) as (k & _ & Hr & _).
  unfold csum_finalize, u16, Z.lnot.
  replace (Z.pred (- csum_fold (csum_fold c)))
    with (2 ^ 16 - 1 - csum_fold (csum_fold c) + (-1) * 2 ^ 16) by lia.
  rewrite Z.mod_add by lia. apply Z.mod_small. lia.
Qed.

(** Adding its own checksum to a sum makes the sum verify. *)
Lemma csum_finalize_verifies (c : Z) :
  0 <= c < 2 ^ 32 - 2 ^ 16 -> csum_finalize (c + csum_finalize c) = 0.
Proof.
  intros Hc.
  rewrite (csum_finalize_spec c) by lia.
  destruct (csum_fold_twice c ltac:(lia)) as (k & Hk & Hr & Hp).
  generalize dependent (csum_fold (csum_fold c)). intros f Hk Hr Hp.
  assert (Hc' : 0 <= c + (2 ^ 16 - 1 - f) < 2 ^ 32) by lia.
  rewrite csum_finalize_spec by exact Hc'.
  destruct (csum_fold_twice _ Hc') as (k' & Hk' & Hr' & Hp').
  generalize dependent (csum_fold (csum_fold (c + (2 ^ 16 - 1 - f)))).
  intros f' Hk' Hr' Hp'.
  assert (0 < f') by (apply Hp'; lia).
  lia.
Qed.

Lemma words_of_u32_sum (x : Z) :
  Forall (fun w => 0 <= w) (words_of_u32 x) /\
  0 <= word_sum (words_of_u32 x) <= 2 * (2 ^ 16 - 1).
Proof.
  unfold words_of_u32.
  pose proof (u16_range x). pose proof (u16_range (Z.shiftr x 16)).
  split.
  - repeat constructor; lia.
  - cbn [word_sum fold_right]. lia.
Qed.

(** The part of the sum that covers the pseudo-header's addresses and
    protocol. *)
Lemma pseudo_header_sum (src_ip dst_ip v : Z) :
  0 <= v < 2 ^ 16 ->
  0 <= csum_add_value
         (csum_add (csum_add csum_init (words_of_u32 src_ip)) (words_of_u32 dst_ip)) v
    <= 5 * (2 ^ 16 - 1).
Proof.
  intros Hv.
  destruct (words_of_u32_sum src_ip) as (F1 & B1).
  destruct (words_of_u32_sum dst_ip) as (F2 & B2).
  unfold csum_init.
  rewrite (csum_add_small (words_of_u32 src_ip) 0) by (trivial; lia).
  rewrite csum_add_small by (trivial; lia).
  rewrite csum_add_value_small by lia.
  lia.
Qed.

(** *** Bytes and words of a buffer *)

Lemma load8_range (m : mem) (a : Z) : 0 <= load8 m a < 2 ^ 8.
Proof. unfold load8, u8. apply Z.mod_pos_bound. lia. Qed.

Lemma store_bytes_outside (bs : list Z) (m : mem) (a x : Z) :
  x < a \/ a + Z.of_nat (length bs) <= x -> store_bytes m a bs x = m x.
Proof.
  revert m a. induction bs as [|b bs IH]; intros m a H.
  - reflexivity.
  - cbn [store_bytes]. cbn [length] in H. rewrite IH by lia.
    apply store8_other. lia.
Qed.

Lemma user_bytes_length (n : nat) (u : Z -> option Z) (a : Z) (bs : list Z) :
  user_bytes u a n = Some bs -> length bs = n.
Proof.
  revert a bs. induction n as [|n IH]; intros a bs H; cbn [user_bytes] in H.
  - injection H as <-. reflexivity.
  - destruct (u a) as [b |]; [| discriminate].
    destruct (user_bytes u (a + 1) n) as [bs' |] eqn:E; [| discriminate].
    injection H as <-. cbn [length]. f_equal. apply (IH _ _ E).
Qed.

(** An even number of bytes pairs into the words a [uint16_t] pointer
    reads. *)
Lemma load_words_bytes_even (n : nat) (m : mem) (a : Z) :
  words_of_bytes (load_bytes m a (2 * n)) = load_words m a n.
Proof.
  revert a. induction n as [|n IH]; intros a.
  - reflexivity.
  - replace (2 * S n)%nat with (S (S (2 * n))) by lia.
    cbn [load_bytes words_of_bytes load_words].
    replace (a + 1 + 1) with (a + 2) by lia. rewrite IH.
    f_equal. unfold load16. cbn [loadn]. lia.
Qed.

(** An odd number of bytes, the last one padded with zero, sums to what
    the words read through the pointer sum to, less the byte behind the
    last one, which the last word read has as its high byte. *)
Lemma load_words_bytes_odd (n : nat) (m : mem) (a : Z) :
  Forall (fun w => 0 <= w) (words_of_bytes (load_bytes m a (2 * n + 1))) /\
  word_sum (words_of_bytes (load_bytes m a (2 * n + 1)))
  = word_sum (load_words m a (S n)) - 2 ^ 8 * load8 m (a + 2 * Z.of_nat n + 1).
Proof.
  revert a. induction n as [|n IH]; intros a.
  - cbn [Nat.mul Nat.add load_bytes words_of_bytes load_words word_sum fold_right].
    pose proof (load8_range m a).
    split; [repeat constructor; lia |].
    unfold load16. cbn [loadn].
    replace (a + 2 * Z.of_nat 0 + 1) with (a + 1) by lia. lia.
  - replace (2 * S n + 1)%nat with (S (S (2 * n + 1))) by lia.
    cbn [load_bytes words_of_bytes].
    replace (a + 1 + 1) with (a + 2) by lia.
    destruct (IH (a + 2)) as (F & E).
    pose proof (load8_range m a). pose proof (load8_range m (a + 1)).
    split; [constructor; [lia | exact F] |].
    rewrite word_sum_cons, E.
    change (load_words m a (S (S n))) with (load16 m a :: load_words m (a + 2) (S n)).
    rewrite word_sum_cons.
    replace (a + 2 + 2 * Z.of_nat n + 1) with (a + 2 * Z.of_nat (S n) + 1) by lia.
    unfold load16 at 1. cbn [loadn]. lia.
Qed.

(** A sum that verifies, taken without a part [x] of it, finalizes to
    [x]. *)
Lemma csum_finalize_short (c x : Z) :
  0 <= x < 2 ^ 16 - 1 -> x <= c < 2 ^ 32 ->
  csum_finalize c = 0 -> csum_finalize (c - x) = x.
Proof.
  intros Hx Hc H0.
  rewrite (csum_finalize_spec c) in H0 by lia.
  destruct (csum_fold_twice c ltac:(lia)) as (k & Hk & Hr & Hp).
  generalize dependent (csum_fold (csum_fold c)). intros f H0 Hk Hr Hp.
  assert (Hc' : 0 <= c - x < 2 ^ 32) by lia.
  rewrite csum_finalize_spec by exact Hc'.
  destruct (csum_fold_twice _ Hc') as (k' & Hk' & Hr' & Hp').
  generalize dependent (csum_fold (csum_fold (c - x))). intros f' Hk' Hr' Hp'.
  assert (0 < f') by (apply Hp'; lia).
  lia.
Qed.

(** *** The datagram of a successful send *)

(** What [udp_send] hands to [ip_send], for a packet whose header and
    payload together are [L] bytes: the length field holds [L] in
    network byte order, and the receiver's check of the datagram gives
    zero when [L] is even.  When [L] is odd the last word [udp_send]
    sums has as its high byte the buffer byte at [pkt->end], behind the
    datagram, and the receiver's check gives that byte shifted by 8. *)
Lemma udp_send_datagram (pkt : packet) (src_ip dst_ip sp dp : Z) (st : kernel) :
  8 <= pkt_end pkt - (al pkt - sizeof_udphdr) < 2 ^ 16 ->
  exists d,
    ip_out (udp_send pkt src_ip dst_ip sp dp st) = ip_out st ++ [d] /\
    ip_proto d = IPPROTO_UDP /\
    ip_src d = src_ip /\ ip_dst d = dst_ip /\
    tl (ip_pkt d) = al pkt - sizeof_udphdr /\
    pkt_end (ip_pkt d) = pkt_end pkt /\
    udp_len (ip_pkt d) = htons (pkt_end pkt - (al pkt - sizeof_udphdr)) /\
    load8 (data (ip_pkt d)) (pkt_end pkt) = load8 (data pkt) (pkt_end pkt) /\
    ((pkt_end pkt - (al pkt - sizeof_udphdr)) mod 2 = 0 -> udp_verify_padded d = 0) /\
    ((pkt_end pkt - (al pkt - sizeof_udphdr)) mod 2 = 1 ->
     udp_verify_padded d = 2 ^ 8 * load8 (data pkt) (pkt_end pkt)).
Proof.
  intros HL. unfold udp_send, ip_send.
  set (t := al pkt - sizeof_udphdr) in *.
  set (L := pkt_end pkt - t) in *.
  rewrite (u16_small L) by lia. rewrite (u32_small L) by lia.
  assert (Hn : u32 (L / 2 + L mod 2) = (L + 1) / 2).
  { rewrite u32_small; Z.div_mod_to_equations; lia. }
  rewrite Hn. clear Hn.
  set (n := Z.to_nat ((L + 1) / 2)).
  assert (Hn4 : 3 < Z.of_nat n <= 2 ^ 15).
  { subst n. rewrite Z2Nat.id; Z.div_mod_to_equations; lia. }
  set (d3 := store16 (store16 (store16 (data pkt) t sp) (t + 2) dp) (t + 4) (htons L)).
  set (d4 := store16 d3 (t + 6) 0).
  set (A := csum_add_value
              (csum_add (csum_add csum_init (words_of_u32 src_ip)) (words_of_u32 dst_ip))
              (ntohs (u16 IPPROTO_UDP))).
  assert (HA : 0 <= A <= 5 * (2 ^ 16 - 1)).
  { subst A. apply pseudo_header_sum. vm_compute. split; [discriminate | reflexivity]. }
  assert (Hlen : load16 d4 (t + 4) = htons L).
  { subst d4 d3. rewrite load16_store16_other by lia.
    rewrite load16_store16_same. apply u16_small, htons_range. }
  assert (Hzero : load16 d4 (t + 6) = 0).
  { subst d4. rewrite load16_store16_same. reflexivity. }
  pose proof (htons_range L) as HhL.
  pose proof (word_sum_load_words_bound n d4 t) as HW.
  pose proof (load_words_nonneg n d4 t) as HF.
  assert (HS : csum_add (csum_add A (load_words d4 (t + 4) 1)) (load_words d4 t n)
               = A + htons L + word_sum (load_words d4 t n)).
  { cbn [load_words]. rewrite Hlen.
    rewrite (csum_add_small [htons L]).
    - rewrite csum_add_small; [cbn [word_sum fold_right]; lia | cbn [word_sum fold_right]; lia
                              | exact HF | cbn [word_sum fold_right]; lia].
    - lia.
    - repeat constructor; lia.
    - cbn [word_sum fold_right]. lia. }
  rewrite HS. clear HS.
  set (S := A + htons L + word_sum (load_words d4 t n)) in *.
  assert (HSb : 0 <= S < 2 ^ 32 - 2 ^ 16) by (subst S; lia).
  assert (Hc : 0 <= csum_finalize S < 2 ^ 16) by (apply u16_range).
  set (d5 := store16 d4 (t + 6) (csum_finalize S)).
  assert (Hstray : load8 d5 (pkt_end pkt) = load8 (data pkt) (pkt_end pkt)).
  { unfold load8. f_equal. subst d5 d4 d3. unfold store16.
    rewrite !storen_outside by (cbn [Z.of_nat]; lia). reflexivity. }
  eexists. split; [reflexivity |].
  cbn [ip_proto ip_src ip_dst ip_pkt].
  split; [reflexivity |]. split; [reflexivity |]. split; [reflexivity |].
  cbn [tl pkt_end data].
  split; [reflexivity |]. split; [reflexivity |].
  assert (Hlen' : udp_len {| pkt_id := pkt_id pkt; data := d5;
                             tl := t; al := al pkt; pkt_end := pkt_end pkt |}
                  = htons L).
  { unfold udp_len. cbn [data tl]. subst d5.
    rewrite load16_store16_other by lia. exact Hlen. }
  split; [exact Hlen' |].
  split; [exact Hstray |].
  pose proof (word_sum_store16 n d4 t 3 (csum_finalize S) ltac:(lia)) as Hsum.
  replace (t + 2 * 3) with (t + 6) in Hsum by lia.
  rewrite Hzero, (u16_small (csum_finalize S)) in Hsum by exact Hc.
  fold d5 in Hsum.
  pose proof (load_words_nonneg n d5 t) as HF5.
  pose proof (csum_finalize_verifies S HSb) as Hver.
  assert (Hpad : forall ws,
             Forall (fun w => 0 <= w) ws ->
             word_sum ws <= word_sum (load_words d5 t n) ->
             udp_verify_padded
               {| ip_pkt := {| pkt_id := pkt_id pkt; data := d5; tl := t;
                               al := al pkt; pkt_end := pkt_end pkt |};
                  ip_proto := IPPROTO_UDP; ip_src := src_ip; ip_dst := dst_ip |}
             = csum_finalize
                 (csum_add (csum_add_value A (htons L))
                    (words_of_bytes (load_bytes d5 t (Z.to_nat L)))) /\
             csum_add (csum_add_value A (htons L)) ws = A + htons L + word_sum ws).
  { intros ws Fws Hle. split.
    - unfold udp_verify_padded. cbn [ip_proto ip_src ip_dst ip_pkt]. rewrite Hlen'.
      cbn [data tl]. rewrite ntohs_htons by lia. reflexivity.
    - pose proof (word_sum_nonneg ws Fws).
      rewrite csum_add_value_small by lia.
      rewrite csum_add_small by (trivial; lia). reflexivity. }
  split.
  - intros He.
    assert (HnL : Z.to_nat L = (2 * n)%nat).
    { subst n. Z.div_mod_to_equations. lia. }
    destruct (Hpad (load_words d5 t n) HF5 ltac:(lia)) as (-> & Hv).
    rewrite HnL, load_words_bytes_even, Hv, Hsum.
    replace (A + htons L + (word_sum (load_words d4 t n) - 0 + csum_finalize S))
      with (S + csum_finalize S) by (subst S; lia).
    exact Hver.
  - intros Ho.
    assert (HnL : exists n', n = Datatypes.S n' /\ Z.to_nat L = (2 * n' + 1)%nat /\
                             t + 2 * Z.of_nat n' + 1 = pkt_end pkt).
    { exists (Z.to_nat (L / 2)). subst n L. Z.div_mod_to_equations. lia. }
    destruct HnL as (n' & En & EL & Ee).
    destruct (load_words_bytes_odd n' d5 t) as (Fo & Eo).
    rewrite <- En, Ee, Hstray in Eo. rewrite <- EL in Fo, Eo.
    pose proof (load8_range (data pkt) (pkt_end pkt)) as Hb.
    pose proof (word_sum_nonneg _ Fo) as Hnn.
    destruct (Hpad _ Fo ltac:(lia)) as (-> & Hv).
    rewrite Hv, Eo, Hsum.
    replace (A + htons L
             + (word_sum (load_words d4 t n) - 0 + csum_finalize S
                - 2 ^ 8 * load8 (data pkt) (pkt_end pkt)))
      with (S + csum_finalize S - 2 ^ 8 * load8 (data pkt) (pkt_end pkt))
      by (subst S; lia).
    apply csum_finalize_short; [lia | | exact Hver].
    rewrite Hsum in Eo. subst S. lia.
Qed.

(** What a successful [udp_sys_send] of [len] bytes emits. *)
Lemma udp_sys_send_emits (ip_reserve MAX_ETH_PKT_SIZE : Z) (s : nat)
    (buf len flags : Z) (st st' : kernel) :
  0 <= ip_reserve <= MAX_ETH_PKT_SIZE ->
  MAX_ETH_PKT_SIZE < 2 ^ 16 ->
  0 <= len < 2 ^ 32 ->
  udp_sys_send ip_reserve MAX_ETH_PKT_SIZE s buf len flags st = (len, st') ->
  ip_reserve + sizeof_udphdr + len <= MAX_ETH_PKT_SIZE /\
  exists d,
    ip_out st' = ip_out st ++ [d] /\
    ip_proto d = IPPROTO_UDP /\
    tl (ip_pkt d) = ip_reserve /\
    pkt_end (ip_pkt d) = ip_reserve + sizeof_udphdr + len /\
    udp_len (ip_pkt d) = htons (len + sizeof_udphdr) /\
    load8 (data (ip_pkt d)) (pkt_end (ip_pkt d))
    = load8 (pkt_fresh st (pkt_next st)) (ip_reserve + sizeof_udphdr + len) /\
    (len mod 2 = 0 -> udp_verify_padded d = 0) /\
    (len mod 2 = 1 ->
     udp_verify_padded d = 2 ^ 8 * load8 (data (ip_pkt d)) (pkt_end (ip_pkt d))).
Proof.
  intros Hr HM Hlen.
  assert (Hneg : forall e k, 0 < e -> (- e, k) = (len, st') -> False).
  { intros e k He Heq. inversion Heq. lia. }
  unfold udp_sys_send.
  destruct (Z.ltb_spec (u32 MAX_ETH_PKT_SIZE) (u32 (udp_reserve ip_reserve + len)))
    as [Hbig | Hfit].
  { intros H. exfalso. eapply Hneg; [| exact H]. reflexivity. }
  destruct (sk_connected (sockets st !!! s)); cbn [negb].
  2:{ intros H. exfalso. eapply Hneg; [| exact H]. reflexivity. }
  assert (Hst : forall r,
             (if negb (sk_bound (sockets st !!! s)) then udp_bind_to_ephemeral s st
              else (true, st)) = r ->
             fst r = true ->
             ip_out (snd r) = ip_out st /\ umem (snd r) = umem st /\
             pkt_next (snd r) = pkt_next st /\ pkt_fresh (snd r) = pkt_fresh st).
  { destruct (sk_bound (sockets st !!! s)); cbn [negb].
    - intros r <- _. auto.
    - intros [ok st1] Ee Hok. cbn [fst snd] in *. subst ok.
      rewrite udp_bind_to_ephemeral_eq in Ee.
      apply udp_bind_to_ephemeral_loop_ok in Ee.
      destruct Ee as (p & i & -> & _). repeat split; reflexivity. }
  specialize (Hst _ eq_refl).
  destruct (if negb (sk_bound (sockets st !!! s)) then udp_bind_to_ephemeral s st
            else (true, st)) as [ok st1].
  cbn [fst snd] in Hst.
  destruct ok; cbn [negb].
  2:{ intros H. exfalso. eapply Hneg; [| exact H]. reflexivity. }
  destruct (Hst eq_refl) as (Hout & Hum & Hnext & Hfresh). clear Hst.
  cbn [packet_alloc umem set_pkt_next]. rewrite Hum.
  destruct (user_bytes (umem st) buf (Z.to_nat len)) as [payload |] eqn:Hpay.
  2:{ intros H. exfalso. eapply Hneg; [| exact H]. reflexivity. }
  apply user_bytes_length in Hpay.
  intros H. injection H as Hrv Hst'.
  assert (Hl31 : len < 2 ^ 31).
  { unfold s32 in Hrv. destruct (Z_lt_ge_dec len (2 ^ 31)) as [|Hge]; [assumption |].
    exfalso. replace (len + 2 ^ 31) with (len - 2 ^ 31 + 1 * 2 ^ 32) in Hrv by lia.
    rewrite Z.mod_add in Hrv by lia. rewrite Z.mod_small in Hrv by lia. lia. }
  unfold udp_reserve in *. unfold sizeof_udphdr in *.
  rewrite (u32_small MAX_ETH_PKT_SIZE) in Hfit by lia.
  rewrite u32_small in Hfit by lia.
  match type of Hst' with
  | udp_send ?pkt ?a ?b ?c ?d ?k = _ =>
      destruct (udp_send_datagram pkt a b c d k)
        as (dg & D1 & D2 & _ & _ & T1 & T2 & D3 & D4 & D5 & D6)
  end.
  { cbn [pkt_end al]. unfold sizeof_udphdr. lia. }
  rewrite Hst' in D1. cbn [ip_out set_pkt_next] in D1. rewrite Hout in D1.
  cbn [pkt_end al data pkt_id] in D3, D4, D5, D6, T1, T2.
  unfold sizeof_udphdr in D3, D5, D6, T1.
  replace (ip_reserve + 8 + len - (ip_reserve + 8 - 8)) with (len + 8) in D3, D5, D6
    by lia.
  assert (Hfr : load8 (store_bytes (pkt_fresh st1 (pkt_next st1)) (ip_reserve + 8) payload)
                  (ip_reserve + 8 + len)
                = load8 (pkt_fresh st (pkt_next st)) (ip_reserve + 8 + len)).
  { unfold load8. rewrite store_bytes_outside by lia. rewrite Hfresh, Hnext.
    reflexivity. }
  split; [exact Hfit |].
  exists dg. split; [exact D1 |]. split; [exact D2 |].
  split; [rewrite T1; lia |]. split; [exact T2 |].
  split; [exact D3 |].
  rewrite T2.
  split; [rewrite D4; exact Hfr |].
  split.
  - intros He. apply D5. Z.div_mod_to_equations; lia.
  - intros Ho. rewrite D4. apply D6. Z.div_mod_to_equations; lia.
Qed.

(** The checksum [udp_send] stores, as a receiver sees it.  A successful
    [udp_sys_send] of [len] bytes hands [ip_send] one datagram of
    [len + 8] bytes whose length field says so.  For an even [len] the
    receiver's check gives zero.  For an odd [len] it gives the byte
    that the packet buffer holds behind the payload, shifted by 8: that
    byte is the one [packet_alloc] left there, the send never writes
    it, yet [udp_send] sums it with the last payload byte.  So the
    datagram verifies exactly when [len] is even or that byte is zero. *)
Lemma udp_sys_send_checksum (ip_reserve MAX_ETH_PKT_SIZE : Z) (s : nat)
    (buf len flags : Z) (st st' : kernel) :
  0 <= ip_reserve <= MAX_ETH_PKT_SIZE ->
  MAX_ETH_PKT_SIZE < 2 ^ 16 ->
  0 <= len < 2 ^ 32 ->
  udp_sys_send ip_reserve MAX_ETH_PKT_SIZE s buf len flags st = (len, st') ->
  exists d,
    ip_out st' = ip_out st ++ [d] /\
    ip_proto d = IPPROTO_UDP /\
    udp_len (ip_pkt d) = htons (len + sizeof_udphdr) /\
    ntohs (udp_len (ip_pkt d)) = len + sizeof_udphdr /\
    pkt_end (ip_pkt d) = tl (ip_pkt d) + sizeof_udphdr + len /\
    load8 (data (ip_pkt d)) (pkt_end (ip_pkt d))
    = load8 (pkt_fresh st (pkt_next st)) (ip_reserve + sizeof_udphdr + len) /\
    (len mod 2 = 0 -> udp_verify_padded d = 0) /\
    (len mod 2 = 1 ->
     udp_verify_padded d = 2 ^ 8 * load8 (data (ip_pkt d)) (pkt_end (ip_pkt d))) /\
    (udp_verify_padded d = 0 <->
     len mod 2 = 0 \/ load8 (data (ip_pkt d)) (pkt_end (ip_pkt d)) = 0).
Proof.
  intros Hr HM Hlen H.
  destruct (udp_sys_send_emits _ _ _ _ _ _ _ _ Hr HM Hlen H)
    as (Hfit & d & D1 & D2 & T1 & T2 & D3 & D4 & D5 & D6).
  exists d. split; [exact D1 |]. split; [exact D2 |]. split; [exact D3 |].
  split; [rewrite D3; apply ntohs_htons; unfold sizeof_udphdr in *; lia |].
  split; [rewrite T1, T2; reflexivity |].
  split; [exact D4 |]. split; [exact D5 |]. split; [exact D6 |].
  pose proof (load8_range (data (ip_pkt d)) (pkt_end (ip_pkt d))) as Hb.
  destruct (Z.eq_dec (len mod 2) 0) as [He | Ho].
  - split; [intros _; left; exact He | intros _; apply D5; exact He].
  - assert (Ho' : len mod 2 = 1) by (Z.div_mod_to_equations; lia).
    rewrite (D6 Ho'). split; [intros; right; lia |].
    intros [E | E]; [contradiction | rewrite E; reflexivity].
Qed.

Lemma udp_sys_send_checksum_even :
  let st := snd (udp_connect 2 4128 16 boot) in
  let st' := snd (udp_sys_send 34 1514 2 8192 2 0 st) in
  udp_sys_send 34 1514 2 8192 2 0 st = (2, st') /\
  map (fun d => ntohs (udp_len (ip_pkt d))) (ip_out st') = [10] /\
  map udp_verify_padded (ip_out st') = [0].
Proof.
  intros st st'.
  assert (H : udp_sys_send 34 1514 2 8192 2 0 st = (2, st'))
    by (vm_compute; reflexivity).
  split; [exact H |].
  destruct (udp_sys_send_checksum 34 1514 2 8192 2 0 st st'
              ltac:(lia) ltac:(lia) ltac:(lia) H)
    as (d & D1 & _ & _ & D4 & _ & _ & D7 & _).
  rewrite D1. change (ip_out st) with (@nil ip_datagram).
  cbn [app map]. rewrite D4, (D7 eq_refl). split; reflexivity.
Qed.

(** C4.  The checksum of a datagram with an odd payload does not verify
    at the receiver.  A bound and connected socket sends the one byte
    "h" in a packet buffer whose bytes were all 0xA5 when
    [packet_alloc] handed it out.  The send returns 1 and the length
    field holds 9, the eight header bytes and the payload byte.  The
    byte behind the payload, outside the datagram, still holds 0xA5;
    [udp_send] rounds the 9 bytes up to 5 words and sums that byte with
    the payload byte.  The receiver's check over the pseudo-header and
    the 9 bytes of the datagram, padded with a zero byte, gives 0xA500
    and not zero. *)
Theorem udp_odd_payload_stray_byte :
  let st := snd (udp_bind 1 4096 16 (snd (udp_connect 1 4128 16 boot))) in
  let r := udp_sys_send 34 1514 1 8192 1 0 st in
  user_bytes (umem st) 8192 1 = Some [104] /\
  load8 (pkt_fresh st (pkt_next st)) (34 + sizeof_udphdr + 1) = 0xA5 /\
  fst r = 1 /\
  map (fun d => ntohs (udp_len (ip_pkt d))) (ip_out (snd r)) = [1 + sizeof_udphdr] /\
  map (fun d => pkt_end (ip_pkt d) - tl (ip_pkt d)) (ip_out (snd r))
  = [1 + sizeof_udphdr] /\
  map (fun d => load8 (data (ip_pkt d)) (al (ip_pkt d))) (ip_out (snd r)) = [104] /\
  map (fun d => load8 (data (ip_pkt d)) (pkt_end (ip_pkt d))) (ip_out (snd r)) = [0xA5] /\
  map udp_verify_padded (ip_out (snd r)) = [0xA500] /\
  Forall (fun d => udp_verify_padded d <> 0) (ip_out (snd r)).
Proof.
  intros st r.
  assert (E : map udp_verify_padded (ip_out (snd r)) = [0xA500])
    by (vm_compute; reflexivity).
  split; [reflexivity |].
  split; [reflexivity |].
  split; [vm_compute; reflexivity |].
  split; [vm_compute; reflexivity |].
  split; [vm_compute; reflexivity |].
  split; [vm_compute; reflexivity |].
  split; [vm_compute; reflexivity |].
  split; [exact E |].
  destruct (ip_out (snd r)) as [|d [|d' l]]; try discriminate E.
  injection E as E. constructor; [| constructor].
  rewrite E. discriminate.
Qed.
(** *** The shape of the endpoint table *)

Lemma udp_hash_range (p : Z) : 0 <= udp_hash p < UDP_HLIST_SIZE.
Proof. unfold udp_hash, UDP_HLIST_SIZE. apply Z.mod_pos_bound. lia. Qed.

Lemma In_buckets (h : Z) : In h buckets <-> 0 <= h < UDP_HLIST_SIZE.
Proof.
  unfold buckets, UDP_HLIST_SIZE. rewrite in_map_iff. split.
  - intros (n & <- & Hn). apply in_seq in Hn. lia.
  - intros Hh. exists (Z.to_nat h). split; [lia |]. apply in_seq. lia.
Qed.

(** Linking an entry changes the chain of its bucket and no other. *)
Lemma bucket_hlist_insert (h h' : Z) (e : udp_wait_entry) (st : kernel) :
  bucket (hlist_insert h e st) h'
  = if Z.eq_dec h' h then e :: bucket st h else bucket st h'.
Proof.
  unfold bucket at 1. unfold hlist_insert. cbn [udp_hlist set_udp_hlist].
  destruct (Z.eq_dec h' h) as [-> | Hne].
  - rewrite lookup_insert_eq. reflexivity.
  - rewrite lookup_insert_ne by congruence. reflexivity.
Qed.

Lemma bucket_set_udp_hlist (h h' : Z) (l : list udp_wait_entry) (st : kernel) :
  bucket (set_udp_hlist (<[h := l]> (udp_hlist st)) st) h'
  = if Z.eq_dec h' h then l else bucket st h'.
Proof.
  unfold bucket at 1. cbn [udp_hlist set_udp_hlist].
  destruct (Z.eq_dec h' h) as [-> | Hne].
  - rewrite lookup_insert_eq. reflexivity.
  - rewrite lookup_insert_ne by congruence. reflexivity.
Qed.

Lemma bucket_ok_spec (h : Z) (l : list udp_wait_entry) :
  bucket_ok h l = true <-> forall e, In e l -> udp_hash (port e) = h.
Proof.
  unfold bucket_ok. rewrite forallb_forall. split.
  - intros H e He. apply Z.eqb_eq. apply H. exact He.
  - intros H e He. apply Z.eqb_eq. apply H. exact He.
Qed.

Lemma table_ok_spec (st : kernel) :
  table_ok st = true
  <-> forall h e, 0 <= h < UDP_HLIST_SIZE -> In e (bucket st h) -> udp_hash (port e) = h.
Proof.
  unfold table_ok. rewrite forallb_forall. split.
  - intros H h e Hh He. apply (proj1 (bucket_ok_spec h (bucket st h))); [| exact He].
    apply H. apply In_buckets. exact Hh.
  - intros H h Hh. apply bucket_ok_spec. intros e He.
    apply H; [apply In_buckets; exact Hh | exact He].
Qed.

(** The invariant depends on the table only. *)
Lemma table_ok_ext (st st' : kernel) :
  (forall h, bucket st' h = bucket st h) -> table_ok st = true -> table_ok st' = true.
Proof.
  intros H. rewrite !table_ok_spec. intros Hok h e Hh He. rewrite H in He.
  apply Hok; assumption.
Qed.

Lemma table_ok_hlist_insert (e : udp_wait_entry) (st : kernel) :
  table_ok st = true -> table_ok (hlist_insert (udp_hash (port e)) e st) = true.
Proof.
  rewrite !table_ok_spec. intros H h e' Hh He'.
  rewrite bucket_hlist_insert in He'.
  destruct (Z.eq_dec h (udp_hash (port e))) as [-> | Hne].
  - destruct He' as [<- | He']; [reflexivity | apply H; assumption].
  - apply H; assumption.
Qed.

Lemma table_ok_udp_do_bind (s : nat) (addr : sockaddr_in) (st : kernel) :
  table_ok st = true -> table_ok (udp_do_bind s addr st) = true.
Proof.
  intros H. unfold udp_do_bind.
  set (e := {| sock := Some s; proc := None; rcv := None;
               port := ntohs (sin_port addr) |}).
  apply (table_ok_ext (hlist_insert (udp_hash (ntohs (sin_port addr))) e st)).
  - intros h. reflexivity.
  - apply (table_ok_hlist_insert e). exact H.
Qed.

(** Awakening a wait list only marks processes ready. *)
Lemma set_ready_fold (l : list nat) (st : kernel) :
  fold_left (fun k p => set_ready p true k) l st
  = set_pr_ready (fold_left (fun m p => <[p := true]> m) l (pr_ready st)) st.
Proof.
  revert st. induction l as [|p l IH]; intros st.
  - destruct st; reflexivity.
  - cbn [fold_left]. rewrite IH. reflexivity.
Qed.

Lemma ready_fold_lookup (l : list nat) (m : gmap nat bool) (q : nat) :
  fold_left (fun m p => <[p := true]> m) l m !! q
  = if decide (q ∈ l) then Some true else m !! q.
Proof.
  revert m. induction l as [|p l IH]; intros m.
  - cbn. destruct (decide (q ∈ [])) as [H | _]; [inversion H | reflexivity].
  - cbn [fold_left]. rewrite IH.
    destruct (decide (q ∈ l)) as [Hl | Hl].
    + rewrite decide_True by (right; exact Hl). reflexivity.
    + destruct (decide (q = p)) as [-> | Hne].
      * rewrite decide_True by left. apply lookup_insert_eq.
      * rewrite decide_False.
        -- apply lookup_insert_ne. congruence.
        -- intros H. inversion H; subst; contradiction.
Qed.

Lemma wait_list_awaken_table (s : nat) (st : kernel) :
  udp_hlist (wait_list_awaken s st) = udp_hlist st.
Proof. unfold wait_list_awaken. rewrite set_ready_fold. reflexivity. Qed.

(** What the walk of [udp_recv] does to the table: nothing, or it fills
    the [rcv] slot of one waiter of the chain, which stays in place. *)
Lemma udp_recv_walk_table (pkt : packet) (dport hash : Z)
    (seen rest : list udp_wait_entry) (st st' : kernel) :
  udp_recv_walk pkt dport hash seen rest st = Some st' ->
  udp_hlist st' = udp_hlist st \/
  exists pre entry post,
    rest = pre ++ entry :: post /\ sock entry = None /\ port entry = dport /\
    udp_hlist st' = <[hash := (seen ++ pre) ++ set_rcv (Some pkt) entry :: post]>
                      (udp_hlist st).
Proof.
  revert seen. induction rest as [|e rest IH]; intros seen H.
  - discriminate.
  - cbn [udp_recv_walk] in H. destruct (sock e) as [s |] eqn:Es.
    + left. inversion H. rewrite wait_list_awaken_table. reflexivity.
    + destruct (Z.eqb_spec (port e) dport) as [Ep | Ep].
      * right. exists [], e, rest. rewrite app_nil_r.
        split; [reflexivity |]. split; [exact Es |]. split; [exact Ep |].
        inversion H. destruct (proc e); reflexivity.
      * apply IH in H. destruct H as [H | (pre & entry & post & -> & Hs & Hp & Ht)].
        -- left. exact H.
        -- right. exists (e :: pre), entry, post.
           split; [reflexivity |]. split; [exact Hs |]. split; [exact Hp |].
           rewrite Ht.
           replace ((seen ++ [e]) ++ pre) with (seen ++ e :: pre)
             by (rewrite <- app_assoc; reflexivity).
           reflexivity.
Qed.

Lemma bucket_of_table (st st' : kernel) (h : Z) :
  udp_hlist st' = udp_hlist st -> bucket st' h = bucket st h.
Proof. intros H. unfold bucket. rewrite H. reflexivity. Qed.

Lemma table_ok_of_table (st st' : kernel) :
  udp_hlist st' = udp_hlist st -> table_ok st = true -> table_ok st' = true.
Proof. intros H. apply table_ok_ext. intros h. apply bucket_of_table. exact H. Qed.

Lemma table_ok_udp_recv (pkt : packet) (st : kernel) :
  table_ok st = true -> table_ok (udp_recv pkt st) = true.
Proof.
  intros Hok. unfold udp_recv.
  set (pkt' := set_al (tl pkt + sizeof_udphdr) pkt).
  set (dport := ntohs (udp_dst_port pkt')).
  set (hash := udp_hash (ntohs (udp_dst_port pkt))).
  destruct (udp_recv_walk pkt' dport hash [] (bucket st hash) st) as [st' |] eqn:E.
  - apply udp_recv_walk_table in E.
    destruct E as [E | (pre & entry & post & Hb & Hs & Hp & Ht)].
    + apply (table_ok_of_table st); assumption.
    + apply table_ok_spec. intros h e Hh He.
      unfold bucket in He. rewrite Ht in He.
      destruct (Z.eq_dec h hash) as [-> | Hne].
      * rewrite lookup_insert_eq in He. cbn [default app] in He.
        assert (Hin : forall x, In x (bucket st hash) -> udp_hash (port x) = hash)
          by (intros x; apply (proj1 (table_ok_spec st) Hok hash); exact Hh).
        rewrite Hb in Hin.
        apply in_app_iff in He. destruct He as [He | [<- | He]].
        -- apply Hin, in_app_iff. left. exact He.
        -- cbn [port set_rcv]. apply Hin, in_app_iff. right. left. reflexivity.
        -- apply Hin, in_app_iff. right. right. exact He.
      * rewrite lookup_insert_ne in He by congruence.
        apply (proj1 (table_ok_spec st) Hok h); assumption.
  - apply (table_ok_of_table st); [reflexivity | exact Hok].
Qed.

Lemma table_ok_udp_wait_arm (p : Z) (st : kernel) :
  table_ok st = true -> table_ok (udp_wait_arm p st) = true.
Proof.
  intros H. unfold udp_wait_arm.
  set (e := {| sock := None; proc := Some (current st); rcv := None; port := p |}).
  apply (table_ok_of_table (hlist_insert (udp_hash (port e)) e st)).
  - reflexivity.
  - apply table_ok_hlist_insert. exact H.
Qed.

(** Unlinking the waiter's own entry leaves the other entries of the
    chain, in their order. *)
Lemma hlist_remove_own_incl (st : kernel) (l : list udp_wait_entry) (e : udp_wait_entry) :
  In e (snd (hlist_remove_own st l)) -> In e l.
Proof.
  induction l as [|x l IH]; cbn [hlist_remove_own].
  - intros [].
  - destruct (is_own_entry st x).
    + cbn [snd]. intros H. right. exact H.
    + destruct (hlist_remove_own st l) as [r l'']. cbn [snd] in *.
      intros [<- | H]; [left; reflexivity | right; apply IH; exact H].
Qed.

Lemma udp_wait_resume_table (p : Z) (st : kernel) :
  udp_hlist (snd (udp_wait_resume p st))
  = <[udp_hash p := snd (hlist_remove_own st (bucket st (udp_hash p)))]> (udp_hlist st).
Proof.
  unfold udp_wait_resume.
  destruct (hlist_remove_own st (bucket st (udp_hash p))) as [r l]. reflexivity.
Qed.

Lemma table_ok_udp_wait_resume (p : Z) (st : kernel) :
  table_ok st = true -> table_ok (snd (udp_wait_resume p st)) = true.
Proof.
  intros Hok. apply table_ok_spec. intros h e Hh He.
  unfold bucket in He. rewrite udp_wait_resume_table in He.
  destruct (Z.eq_dec h (udp_hash p)) as [-> | Hne].
  - rewrite lookup_insert_eq in He. cbn [default] in He.
    apply hlist_remove_own_incl in He.
    apply (proj1 (table_ok_spec st) Hok); assumption.
  - rewrite lookup_insert_ne in He by congruence.
    apply (proj1 (table_ok_spec st) Hok); assumption.
Qed.

Lemma table_ok_udp_bind (s : nat) (address address_len : Z) (st : kernel) :
  table_ok st = true -> table_ok (snd (udp_bind s address address_len st)) = true.
Proof.
  intros Hok. unfold udp_bind.
  destruct (sk_bound (sockets st !!! s)); [exact Hok |].
  destruct (negb (address_len =? sizeof_sockaddr_in)); [exact Hok |].
  destruct (usockaddr st address) as [addr |]; [| exact Hok].
  destruct (negb (sin_addr addr =? 0) && negb (sin_addr addr =? nif_ip st));
    [exact Hok |].
  destruct (lookup_entry (sin_port addr) st); [exact Hok |].
  cbn [snd]. apply table_ok_udp_do_bind. exact Hok.
Qed.

Lemma table_ok_udp_connect (s : nat) (address address_len : Z) (st : kernel) :
  table_ok st = true -> table_ok (snd (udp_connect s address address_len st)) = true.
Proof.
  intros Hok. unfold udp_connect.
  destruct (negb (address_len =? sizeof_sockaddr_in)); [exact Hok |].
  destruct (usockaddr st address) as [addr |]; exact Hok.
Qed.

Lemma table_ok_udp_bind_to_ephemeral (s : nat) (st : kernel) :
  table_ok st = true -> table_ok (snd (udp_bind_to_ephemeral s st)) = true.
Proof.
  intros Hok. rewrite udp_bind_to_ephemeral_eq.
  destruct (udp_bind_to_ephemeral_loop EPH_TRIES s st) as [[|] st1] eqn:E; cbn [snd].
  - apply udp_bind_to_ephemeral_loop_ok in E. destruct E as (p & i & -> & _).
    apply table_ok_udp_do_bind.
    apply (table_ok_of_table st); [reflexivity | exact Hok].
  - apply udp_bind_to_ephemeral_loop_exhausted in E. destruct E as (i & ->).
    apply (table_ok_of_table st); [reflexivity | exact Hok].
Qed.

Lemma udp_send_table (pkt : packet) (a b c d : Z) (st : kernel) :
  udp_hlist (udp_send pkt a b c d st) = udp_hlist st.
Proof. reflexivity. Qed.

Lemma table_ok_udp_sys_send (ip_reserve MAX_ETH_PKT_SIZE : Z) (s : nat)
    (buf len flags : Z) (st : kernel) :
  table_ok st = true ->
  table_ok (snd (udp_sys_send ip_reserve MAX_ETH_PKT_SIZE s buf len flags st)) = true.
Proof.
  intros Hok. unfold udp_sys_send.
  destruct (u32 MAX_ETH_PKT_SIZE <? u32 (udp_reserve ip_reserve + len)); [exact Hok |].
  destruct (negb (sk_connected (sockets st !!! s))); [exact Hok |].
  assert (H1 : table_ok (snd (if negb (sk_bound (sockets st !!! s))
                              then udp_bind_to_ephemeral s st else (true, st))) = true).
  { destruct (negb (sk_bound (sockets st !!! s)));
      [apply table_ok_udp_bind_to_ephemeral | ]; exact Hok. }
  destruct (if negb (sk_bound (sockets st !!! s)) then udp_bind_to_ephemeral s st
            else (true, st)) as [ok st1].
  cbn [snd] in H1.
  destruct (negb ok); [exact H1 |].
  cbn [packet_alloc umem set_pkt_next].
  destruct (user_bytes (umem st1) buf (Z.to_nat len)) as [payload |]; cbn [snd].
  - apply (table_ok_of_table st1); [reflexivity | exact H1].
  - apply (table_ok_of_table st1); [reflexivity | exact H1].
Qed.

Lemma udp_sys_recv_table (s : nat) (buf len flags : Z) (st : kernel) :
  udp_hlist (recv_state (udp_sys_recv s buf len flags st)) = udp_hlist st.
Proof.
  unfold udp_sys_recv.
  destruct (negb (sk_bound (sockets st !!! s))); [reflexivity |].
  destruct (socket_recvq_get (sockets st !!! s)) as [pkt |]; [| reflexivity].
  destruct (len <? u32 (pkt_end pkt - al pkt)); [reflexivity |].
  unfold copy_to_user.
  destruct (user_bytes (umem st) buf _); cbn [Z.ltb Z.compare Z.opp EFAULT];
    reflexivity.
Qed.

(** X1.  Every operation of the UDP core keeps the endpoint table well
    formed: if each entry sits in the bucket its port hashes to before a
    bind, a connect, an ephemeral bind, a send, the delivery of a
    packet, a receive, or either half of [udp_wait], the same holds
    afterwards. *)
Theorem table_ok_preserved (st : kernel) :
  table_ok st = true ->
  (forall s address address_len,
      table_ok (snd (udp_bind s address address_len st)) = true) /\
  (forall s address address_len,
      table_ok (snd (udp_connect s address address_len st)) = true) /\
  (forall s, table_ok (snd (udp_bind_to_ephemeral s st)) = true) /\
  (forall ip_reserve MAX_ETH_PKT_SIZE s buf len flags,
      table_ok (snd (udp_sys_send ip_reserve MAX_ETH_PKT_SIZE s buf len flags st))
      = true) /\
  (forall pkt, table_ok (udp_recv pkt st) = true) /\
  (forall s buf len flags,
      table_ok (recv_state (udp_sys_recv s buf len flags st)) = true) /\
  (forall p, table_ok (udp_wait_arm p st) = true) /\
  (forall p, table_ok (snd (udp_wait_resume p st)) = true).
Proof.
  intros Hok.
  split; [intros; apply table_ok_udp_bind; exact Hok |].
  split; [intros; apply table_ok_udp_connect; exact Hok |].
  split; [intros; apply table_ok_udp_bind_to_ephemeral; exact Hok |].
  split; [intros; apply table_ok_udp_sys_send; exact Hok |].
  split; [intros; apply table_ok_udp_recv; exact Hok |].
  split; [intros; apply (table_ok_of_table st);
          [apply udp_sys_recv_table | exact Hok] |].
  split; [intros; apply table_ok_udp_wait_arm; exact Hok |].
  intros; apply table_ok_udp_wait_resume; exact Hok.
Qed.

Lemma table_ok_preserved_witness :
  let st := snd (udp_bind 1 4096 16 boot) in
  table_ok st = true /\
  table_ok (udp_recv pkt_for_5128 st) = true /\
  table_ok (snd (udp_wait_resume 5128 st)) = true.
Proof.
  intros st.
  assert (H : table_ok st = true) by (vm_compute; reflexivity).
  pose proof (table_ok_preserved st H) as (_ & _ & _ & _ & H5 & _ & _ & H8).
  split; [exact H |]. split; [apply H5 | apply H8].
Defined.

Lemma In_table_ports (st : kernel) (p : Z) :
  In p (table_ports st)
  <-> exists h e, 0 <= h < UDP_HLIST_SIZE /\ In e (bucket st h) /\ port e = p.
Proof.
  unfold table_ports. rewrite in_flat_map. split.
  - intros (h & Hh & Hp). apply in_map_iff in Hp. destruct Hp as (e & He & Hin).
    exists h, e. split; [apply In_buckets; exact Hh |]. split; assumption.
  - intros (h & e & Hh & Hin & He). exists h. split; [apply In_buckets; exact Hh |].
    apply in_map_iff. exists e. split; assumption.
Qed.

(** X2.  On a well-formed table [lookup_entry] is exact: it finds an
    entry, which carries the port asked for, when some entry anywhere in
    the table carries that port, and only then. *)
Theorem lookup_entry_exact (p : Z) (st : kernel) :
  table_ok st = true ->
  (forall entry, lookup_entry p st = Some entry ->
                 port entry = p /\ In entry (bucket st (udp_hash p))) /\
  (lookup_entry p st = None <-> ~ In p (table_ports st)).
Proof.
  intros Hok. split.
  - intros entry H. unfold lookup_entry in H. apply find_some in H.
    destruct H as (Hin & Hp). split; [apply Z.eqb_eq; exact Hp | exact Hin].
  - split.
    + intros Hnone Hin. apply In_table_ports in Hin.
      destruct Hin as (h & e & Hh & He & Hp).
      assert (Hhash : udp_hash (port e) = h)
        by (apply (proj1 (table_ok_spec st) Hok); assumption).
      unfold lookup_entry in Hnone.
      assert (Hf : (port e =? p) = false).
      { apply (find_none _ _ Hnone e). rewrite <- Hp, Hhash. exact He. }
      apply Z.eqb_neq in Hf. contradiction.
    + intros Hnot. unfold lookup_entry.
      destruct (find (fun entry => port entry =? p) (bucket st (udp_hash p)))
        as [e |] eqn:E; [| reflexivity].
      exfalso. apply Hnot. apply find_some in E. destruct E as (Hin & Hp).
      apply In_table_ports. exists (udp_hash p), e.
      split; [apply udp_hash_range |]. split; [exact Hin | apply Z.eqb_eq; exact Hp].
Qed.

Lemma lookup_entry_exact_witness :
  let st := snd (udp_bind 1 4096 16 boot) in
  table_ok st = true /\
  table_ports st = [5000] /\
  lookup_entry (htons 5000) st = None /\
  (lookup_entry (htons 5000) st = None <-> ~ In (htons 5000) (table_ports st)).
Proof.
  intros st.
  assert (H : table_ok st = true) by (vm_compute; reflexivity).
  split; [exact H |]. split; [vm_compute; reflexivity |].
  split; [vm_compute; reflexivity |].
  exact (proj2 (lookup_entry_exact (htons 5000) st H)).
Defined.

(** After [udp_init] the buckets of the table are empty chains. *)
Lemma init_fold_lookup (l : list nat) (t : gmap Z (list udp_wait_entry)) (h : Z) :
  In h (map Z.of_nat l) ->
  fold_left (fun t i => <[Z.of_nat i := []]> t) l t !! h = Some [].
Proof.
  revert t. induction l as [|i l IH]; intros t Hin.
  - destruct Hin.
  - cbn [fold_left].
    destruct (in_dec Z.eq_dec h (map Z.of_nat l)) as [Hl | Hl].
    + apply IH. exact Hl.
    + destruct Hin as [<- | Hin]; [| contradiction].
      clear IH. revert t. induction l as [|j l IH]; intros t.
      * cbn. apply lookup_insert_eq.
      * cbn [fold_left].
        assert (Hj : Z.of_nat j <> Z.of_nat i) by (intros E; apply Hl; left; exact E).
        rewrite insert_insert_ne by congruence.
        apply IH. intros H. apply Hl. right. exact H.
Qed.

Lemma udp_init_bucket (st : kernel) (h : Z) :
  0 <= h < UDP_HLIST_SIZE -> bucket (udp_init st) h = [].
Proof.
  intros Hh. unfold bucket, udp_init. cbn [udp_hlist set_udp_hlist].
  rewrite init_fold_lookup; [reflexivity |].
  apply In_buckets. exact Hh.
Qed.

(** X3.  [udp_init] leaves a well-formed table that holds no port: every
    lookup fails, and a packet that arrives before any bind or wait is
    freed with the diagnostic, whatever its destination port. *)
Theorem udp_init_empty (st : kernel) :
  table_ok (udp_init st) = true /\
  table_ports (udp_init st) = [] /\
  (forall p, lookup_entry p (udp_init st) = None) /\
  (forall pkt,
      udp_recv pkt (udp_init st)
      = packet_free (set_al (tl pkt + sizeof_udphdr) pkt)
          (puts "nobody was waiting for this packet, freeing\n" (udp_init st))).
Proof.
  split; [| split; [| split]].
  - apply table_ok_spec. intros h e Hh He. rewrite udp_init_bucket in He by exact Hh.
    destruct He.
  - destruct (table_ports (udp_init st)) as [|p l] eqn:E; [reflexivity |].
    assert (Hin : In p (table_ports (udp_init st))) by (rewrite E; left; reflexivity).
    apply In_table_ports in Hin. destruct Hin as (h & e & Hh & He & _).
    rewrite udp_init_bucket in He by exact Hh. destruct He.
  - intros p. unfold lookup_entry.
    rewrite udp_init_bucket by apply udp_hash_range. reflexivity.
  - intros pkt. apply udp_recv_unclaimed. cbv zeta.
    rewrite udp_init_bucket by apply udp_hash_range. constructor.
Qed.

(** *** What a bind call returns *)

(** X4.  [udp_bind] either succeeds or changes nothing.  It returns 0
    only for an unbound socket, an address of the right length that can
    be read, and a local address that is zero or the interface's; the
    state is then that of [udp_do_bind].  Every other outcome is a
    negative error code with the kernel state untouched. *)
Theorem udp_bind_outcome (s : nat) (address address_len : Z) (st st' : kernel) (rv : Z) :
  udp_bind s address address_len st = (rv, st') ->
  (rv = 0 /\
   sk_bound (sockets st !!! s) = false /\
   address_len = sizeof_sockaddr_in /\
   exists addr, usockaddr st address = Some addr /\
                (sin_addr addr = 0 \/ sin_addr addr = nif_ip st) /\
                lookup_entry (sin_port addr) st = None /\
                st' = udp_do_bind s addr st) \/
  (rv < 0 /\ st' = st /\
   (rv = - EINVAL \/ rv = - EFAULT \/ rv = - EADDRNOTAVAIL \/ rv = - EADDRINUSE)).
Proof.
  unfold udp_bind.
  destruct (sk_bound (sockets st !!! s)) eqn:Eb.
  { intros H. inversion H. right. unfold EINVAL. split; [lia |]. auto. }
  destruct (Z.eqb_spec address_len sizeof_sockaddr_in) as [El | El]; cbn [negb].
  2:{ intros H. inversion H. right. unfold EINVAL. split; [lia |]. auto. }
  destruct (usockaddr st address) as [addr |] eqn:Eu.
  2:{ intros H. inversion H. right. unfold EFAULT. split; [lia |]. auto. }
  destruct (Z.eqb_spec (sin_addr addr) 0) as [Ea | Ea]; cbn [negb andb].
  - destruct (lookup_entry (sin_port addr) st) eqn:Elk.
    + intros H. inversion H. right. unfold EADDRINUSE. split; [lia |]. auto 6.
    + intros H. inversion H. left. split; [reflexivity |]. split; [reflexivity |].
      split; [exact El |]. exists addr. auto 6.
  - destruct (Z.eqb_spec (sin_addr addr) (nif_ip st)) as [En | En]; cbn [negb].
    + destruct (lookup_entry (sin_port addr) st) eqn:Elk.
      * intros H. inversion H. right. unfold EADDRINUSE. split; [lia |]. auto 6.
      * intros H. inversion H. left. split; [reflexivity |]. split; [reflexivity |].
        split; [exact El |]. exists addr. auto 6.
    + intros H. inversion H. right. unfold EADDRNOTAVAIL. split; [lia |]. auto 6.
Qed.

Lemma udp_bind_outcome_witness :
  let st := snd (udp_bind 1 4096 16 boot) in
  udp_bind 1 4112 16 st = (- EINVAL, st) /\
  - EINVAL < 0.
Proof.
  intros st.
  assert (H : udp_bind 1 4112 16 st = (- EINVAL, st)) by (vm_compute; reflexivity).
  split; [exact H |].
  destruct (udp_bind_outcome 1 4112 16 st st (- EINVAL) H) as [(H0 & _) | (Hneg & _)].
  - discriminate H0.
  - exact Hneg.
Defined.

(** *** Delivery to a bound socket *)

(** The state after a packet was queued on socket [s] and the socket's
    wait list awakened. *)
Lemma deliver_state (s : nat) (pkt : packet) (st : kernel) :
  let so := sockets st !!! s in
  wait_list_awaken s (list_insert_end s pkt st)
  = set_sockets
      (<[s := {| src := src so; dst := dst so; sk_bound := sk_bound so;
                 sk_connected := sk_connected so; recvq := recvq so ++ [pkt];
                 recvwait := [] |}]> (sockets st))
      (set_pr_ready
         (fold_left (fun m p => <[p := true]> m) (recvwait so) (pr_ready st)) st).
Proof.
  cbv zeta. unfold wait_list_awaken, list_insert_end.
  cbn [sockets set_sockets]. rewrite lookup_total_insert_eq. cbn [recvwait src dst
    sk_bound sk_connected recvq].
  rewrite set_ready_fold. cbn [sockets set_sockets set_pr_ready pr_ready].
  rewrite insert_insert_eq. reflexivity.
Qed.

(** When a socket-bound entry heads the bucket of the destination port,
    [udp_recv] queues the packet on that socket. *)
Lemma udp_recv_head_socket (pkt : packet) (st : kernel) (e : udp_wait_entry)
    (rest : list udp_wait_entry) (s : nat) :
  bucket st (udp_hash (ntohs (udp_dst_port pkt))) = e :: rest ->
  sock e = Some s ->
  udp_recv pkt st
  = wait_list_awaken s (list_insert_end s (set_al (tl pkt + sizeof_udphdr) pkt) st).
Proof.
  intros Hb Hs. unfold udp_recv. rewrite Hb. cbn [udp_recv_walk]. rewrite Hs.
  reflexivity.
Qed.

(** A bind that returns 0 has run [udp_do_bind] on the address read. *)
Lemma udp_bind_ok_inv (s : nat) (address address_len : Z) (addr : sockaddr_in)
    (st st1 : kernel) :
  udp_bind s address address_len st = (0, st1) ->
  usockaddr st address = Some addr ->
  st1 = udp_do_bind s addr st.
Proof.
  unfold udp_bind. intros H Hu. rewrite Hu in H.
  destruct (sk_bound (sockets st !!! s)); [inversion H |].
  destruct (negb (address_len =? sizeof_sockaddr_in)); [inversion H |].
  destruct (negb (sin_addr addr =? 0) && negb (sin_addr addr =? nif_ip st));
    [inversion H |].
  destruct (lookup_entry (sin_port addr) st); inversion H. reflexivity.
Qed.

(** What [udp_recv] does when an entry of socket [s] heads the bucket of
    the packet's destination port. *)
Lemma udp_recv_head_socket_delivers (pkt : packet) (st : kernel) (e : udp_wait_entry)
    (rest : list udp_wait_entry) (s : nat) :
  bucket st (udp_hash (ntohs (udp_dst_port pkt))) = e :: rest ->
  sock e = Some s ->
  let st2 := udp_recv pkt st in
  recvq (sockets st2 !!! s)
  = recvq (sockets st !!! s) ++ [set_al (tl pkt + sizeof_udphdr) pkt] /\
  recvwait (sockets st2 !!! s) = [] /\
  (forall q, In q (recvwait (sockets st !!! s)) -> pr_ready st2 !! q = Some true) /\
  freed st2 = freed st /\
  console st2 = console st /\
  udp_hlist st2 = udp_hlist st /\
  (forall s', s' <> s -> sockets st2 !!! s' = sockets st !!! s').
Proof.
  intros Hb Hs st2. subst st2.
  rewrite (udp_recv_head_socket pkt st e rest s Hb Hs).
  rewrite deliver_state. cbv zeta.
  cbn [sockets set_sockets set_pr_ready pr_ready freed console udp_hlist].
  rewrite lookup_total_insert_eq. cbn [recvq recvwait].
  split; [reflexivity |]. split; [reflexivity |].
  split.
  { intros q Hq. rewrite ready_fold_lookup. rewrite decide_True; [reflexivity |].
    apply list_elem_of_In. exact Hq. }
  split; [reflexivity |]. split; [reflexivity |]. split; [reflexivity |].
  intros s' Hne. rewrite lookup_total_insert_ne by congruence. reflexivity.
Qed.

(** X5.  In the state a successful [udp_bind] returns, the socket's new
    entry heads the bucket of the bound port.  A datagram whose
    destination port field is the bound port, handed to [udp_recv] in
    that state, reaches the socket: it is appended to the end of the
    socket's receive queue, with the payload cursor set behind the UDP
    header, the socket's wait list is emptied and the processes that
    were on it are marked ready; nothing is freed or printed, and no
    other socket changes.  The same holds in every later state in which
    that entry still heads its bucket.  Nothing is stated for a state
    in which another entry has been linked in front of it: there the
    first entry of the bucket decides. *)
Theorem udp_bind_then_recv (s : nat) (address : Z) (addr : sockaddr_in) (pkt : packet)
    (st st1 : kernel) :
  udp_bind s address sizeof_sockaddr_in st = (0, st1) ->
  usockaddr st address = Some addr ->
  udp_dst_port pkt = sin_port addr ->
  let own := {| sock := Some s; proc := None; rcv := None;
                port := ntohs (sin_port addr) |} in
  head (bucket st1 (udp_hash (ntohs (sin_port addr)))) = Some own /\
  (let st2 := udp_recv pkt st1 in
   recvq (sockets st2 !!! s)
   = recvq (sockets st !!! s) ++ [set_al (tl pkt + sizeof_udphdr) pkt] /\
   recvwait (sockets st2 !!! s) = [] /\
   (forall q, In q (recvwait (sockets st !!! s)) -> pr_ready st2 !! q = Some true) /\
   freed st2 = freed st /\
   console st2 = console st /\
   udp_hlist st2 = udp_hlist st1 /\
   (forall s', s' <> s -> sockets st2 !!! s' = sockets st !!! s')) /\
  (forall k : kernel,
      head (bucket k (udp_hash (ntohs (sin_port addr)))) = Some own ->
      let k2 := udp_recv pkt k in
      recvq (sockets k2 !!! s)
      = recvq (sockets k !!! s) ++ [set_al (tl pkt + sizeof_udphdr) pkt] /\
      recvwait (sockets k2 !!! s) = [] /\
      (forall q, In q (recvwait (sockets k !!! s)) -> pr_ready k2 !! q = Some true) /\
      freed k2 = freed k /\
      console k2 = console k /\
      udp_hlist k2 = udp_hlist k /\
      (forall s', s' <> s -> sockets k2 !!! s' = sockets k !!! s')).
Proof.
  intros Hbind Hu Hport own.
  pose proof (udp_bind_ok_inv _ _ _ _ _ _ Hbind Hu) as Hst1.
  pose proof (udp_do_bind_bound s addr st) as B. cbv zeta in B.
  rewrite <- Hst1 in B. destruct B as (_ & _ & Bh). fold own in Bh.
  assert (Hgen : forall k : kernel,
             head (bucket k (udp_hash (ntohs (sin_port addr)))) = Some own ->
             exists rest,
               bucket k (udp_hash (ntohs (udp_dst_port pkt))) = own :: rest).
  { intros k Hk. rewrite Hport.
    destruct (bucket k (udp_hash (ntohs (sin_port addr)))) as [|e rest];
      [discriminate Hk |].
    injection Hk as ->. exists rest. reflexivity. }
  split; [exact Bh |].
  split.
  - destruct (Hgen st1 Bh) as (rest & Hb).
    destruct (udp_recv_head_socket_delivers pkt st1 own rest s Hb eq_refl)
      as (D1 & D2 & D3 & D4 & D5 & D6 & D7).
    assert (Hso : sockets st1 !!! s
                  = {| src := addr; dst := dst (sockets st !!! s); sk_bound := true;
                       sk_connected := sk_connected (sockets st !!! s);
                       recvq := recvq (sockets st !!! s);
                       recvwait := recvwait (sockets st !!! s) |}).
    { rewrite Hst1. unfold udp_do_bind. cbn [sockets set_sockets hlist_insert
        set_udp_hlist]. rewrite lookup_total_insert_eq. reflexivity. }
    rewrite Hso in D1, D3. cbn [recvq recvwait] in D1, D3.
    cbv zeta.
    split; [exact D1 |]. split; [exact D2 |]. split; [exact D3 |].
    split; [rewrite D4, Hst1; reflexivity |].
    split; [rewrite D5, Hst1; reflexivity |].
    split; [exact D6 |].
    intros s' Hne. rewrite D7 by exact Hne.
    rewrite Hst1. unfold udp_do_bind.
    cbn [sockets set_sockets hlist_insert set_udp_hlist].
    rewrite lookup_total_insert_ne by congruence. reflexivity.
  - intros k Hk. destruct (Hgen k Hk) as (rest & Hb).
    exact (udp_recv_head_socket_delivers pkt k own rest s Hb eq_refl).
Qed.

Lemma udp_bind_then_recv_witness :
  let later := udp_wait_arm 6000 bound_5000 in
  udp_bind 1 4096 sizeof_sockaddr_in boot = (0, bound_5000) /\
  udp_dst_port pkt_for_5000 = htons 5000 /\
  map pkt_id (recvq (sockets (udp_recv pkt_for_5000 bound_5000) !!! 1%nat)) = [9%nat] /\
  freed (udp_recv pkt_for_5000 bound_5000) = [] /\
  map pkt_id (recvq (sockets (udp_recv pkt_for_5000 later) !!! 1%nat)) = [9%nat].
Proof.
  intros later.
  assert (H1 : udp_bind 1 4096 sizeof_sockaddr_in boot = (0, bound_5000))
    by (vm_compute; reflexivity).
  assert (H2 : usockaddr boot 4096 = Some {| sin_port := htons 5000; sin_addr := 0 |})
    by reflexivity.
  assert (H3 : udp_dst_port pkt_for_5000
               = sin_port {| sin_port := htons 5000; sin_addr := 0 |})
    by (vm_compute; reflexivity).
  destruct (udp_bind_then_recv 1 4096 _ pkt_for_5000 boot bound_5000 H1 H2 H3)
    as (_ & (R1 & _ & _ & R4 & _) & Rk).
  assert (Hl : head (bucket later (udp_hash (ntohs (htons 5000))))
               = Some {| sock := Some 1%nat; proc := None; rcv := None;
                         port := ntohs (htons 5000) |})
    by (vm_compute; reflexivity).
  destruct (Rk later Hl) as (K1 & _).
  split; [exact H1 |]. split; [exact H3 |].
  split; [rewrite R1; reflexivity |].
  split; [exact R4 |].
  rewrite K1. reflexivity.
Defined.

(** *** Receiving *)

Lemma user_store_outside (bs : list Z) (u : Z -> option Z) (a x : Z) :
  x < a \/ a + Z.of_nat (length bs) <= x -> user_store u a bs x = u x.
Proof.
  revert u a. induction bs as [|b bs IH]; intros u a H.
  - reflexivity.
  - cbn [user_store]. cbn [length] in H. rewrite IH by lia.
    destruct (Z.eqb_spec x a); [lia | reflexivity].
Qed.

(** Reading user memory back after a copy gives the bytes copied. *)
Lemma user_bytes_user_store (bs : list Z) (u : Z -> option Z) (a : Z) :
  user_bytes (user_store u a bs) a (length bs) = Some bs.
Proof.
  revert u a. induction bs as [|b bs IH]; intros u a.
  - reflexivity.
  - cbn [user_store length user_bytes].
    rewrite user_store_outside by lia. rewrite Z.eqb_refl. rewrite IH. reflexivity.
Qed.

Lemma load_bytes_length (n : nat) (m : mem) (a : Z) : length (load_bytes m a n) = n.
Proof.
  revert a. induction n as [|n IH]; intros a; cbn [load_bytes length];
    [reflexivity | rewrite IH; reflexivity].
Qed.

(** The state after a receive that succeeds. *)
Lemma udp_sys_recv_ok_eq (s : nat) (buf len flags : Z) (st : kernel)
    (pkt : packet) (q : list packet) :
  sk_bound (sockets st !!! s) = true ->
  recvq (sockets st !!! s) = pkt :: q ->
  0 <= pkt_end pkt - al pkt < 2 ^ 31 ->
  pkt_end pkt - al pkt <= len ->
  let n := Z.to_nat (pkt_end pkt - al pkt) in
  is_Some (user_bytes (umem st) buf n) ->
  udp_sys_recv s buf len flags st
  = Returned (pkt_end pkt - al pkt)
      (packet_free pkt
         (list_remove_head s
            (set_umem (user_store (umem st) buf (load_bytes (data pkt) (al pkt) n))
               st))).
Proof.
  intros Hb Hq Hr Hl n (old & Hold). unfold udp_sys_recv.
  rewrite Hb. cbn [negb]. unfold socket_recvq_get. rewrite Hq. cbn [head].
  rewrite u32_small by lia.
  destruct (Z.ltb_spec len (pkt_end pkt - al pkt)) as [Hlt | _]; [lia |].
  fold n. unfold copy_to_user. rewrite load_bytes_length. rewrite Hold.
  cbn [Z.ltb Z.compare]. rewrite s32_small by lia. reflexivity.
Qed.

(** X6.  A receive on a bound socket whose queue is not empty, into a
    writable buffer at least as long as the payload of the first packet,
    returns that payload's length, leaves the payload bytes in the
    user's buffer and nothing else of user memory changed, takes the
    packet off the queue, whose other packets keep their order, and
    frees it. *)
Theorem udp_sys_recv_delivers (s : nat) (buf len flags : Z) (st : kernel)
    (pkt : packet) (q : list packet) :
  sk_bound (sockets st !!! s) = true ->
  recvq (sockets st !!! s) = pkt :: q ->
  0 <= pkt_end pkt - al pkt < 2 ^ 31 ->
  pkt_end pkt - al pkt <= len ->
  let n := Z.to_nat (pkt_end pkt - al pkt) in
  is_Some (user_bytes (umem st) buf n) ->
  exists st',
    udp_sys_recv s buf len flags st = Returned (pkt_end pkt - al pkt) st' /\
    user_bytes (umem st') buf n = Some (load_bytes (data pkt) (al pkt) n) /\
    (forall x, x < buf \/ buf + Z.of_nat n <= x -> umem st' x = umem st x) /\
    recvq (sockets st' !!! s) = q /\
    freed st' = pkt_id pkt :: freed st /\
    udp_hlist st' = udp_hlist st.
Proof.
  intros Hb Hq Hr Hl n Hw.
  eexists. split; [apply (udp_sys_recv_ok_eq s buf len flags st pkt q); assumption |].
  fold n.
  cbn [umem packet_free list_remove_head set_freed set_sockets set_umem sockets freed
       udp_hlist].
  split.
  { pose proof (user_bytes_user_store (load_bytes (data pkt) (al pkt) n) (umem st) buf)
      as H.
    rewrite load_bytes_length in H. exact H. }
  split.
  { intros x Hx. apply user_store_outside. rewrite load_bytes_length. exact Hx. }
  split.
  { rewrite lookup_total_insert_eq. cbn [recvq]. rewrite Hq. reflexivity. }
  split; reflexivity.
Qed.

Lemma udp_sys_recv_delivers_witness :
  let st := udp_recv pkt_for_5000 bound_5000 in
  exists st',
    udp_sys_recv 1 8192 2 0 st = Returned 2 st' /\
    user_bytes (umem st') 8192 2 = Some [111; 107] /\
    recvq (sockets st' !!! 1%nat) = [] /\
    freed st' = [9%nat].
Proof.
  intros st.
  set (pkt' := set_al 42 pkt_for_5000).
  assert (H1 : sk_bound (sockets st !!! 1%nat) = true) by reflexivity.
  assert (H2 : recvq (sockets st !!! 1%nat) = [pkt']) by reflexivity.
  assert (H3 : 0 <= pkt_end pkt' - al pkt' < 2 ^ 31)
    by (vm_compute; split; [discriminate | reflexivity]).
  assert (H4 : pkt_end pkt' - al pkt' <= 2) by (vm_compute; discriminate).
  assert (H5 : is_Some (user_bytes (umem st) 8192 (Z.to_nat (pkt_end pkt' - al pkt'))))
    by (vm_compute; eexists; reflexivity).
  destruct (udp_sys_recv_delivers 1 8192 2 0 st pkt' [] H1 H2 H3 H4 H5)
    as (st' & R1 & R2 & _ & R4 & R5 & _).
  exists st'. split; [exact R1 |]. split; [exact R2 |]. split; [exact R4 | exact R5].
Defined.

(** X7.  A receive that returns an error has consumed nothing: when the
    payload of the packet at the head of the queue is shorter than 2^31
    bytes, so that its length reads as a non-negative [int], a negative
    return value comes with the kernel state unchanged (the socket was
    not bound, the buffer was too short, or the copy to the user
    faulted). *)
Theorem udp_sys_recv_error_unchanged (s : nat) (buf len flags : Z) (st st' : kernel)
    (rv : Z) :
  (forall pkt, head (recvq (sockets st !!! s)) = Some pkt ->
               0 <= pkt_end pkt - al pkt < 2 ^ 31) ->
  udp_sys_recv s buf len flags st = Returned rv st' ->
  rv < 0 ->
  st' = st /\ (rv = - EINVAL \/ rv = - EMSGSIZE \/ rv = - EFAULT).
Proof.
  intros Hhead. unfold udp_sys_recv.
  destruct (sk_bound (sockets st !!! s)); cbn [negb].
  2:{ intros H _. inversion H. auto. }
  unfold socket_recvq_get.
  destruct (head (recvq (sockets st !!! s))) as [pkt |] eqn:Eh; [| discriminate].
  specialize (Hhead pkt eq_refl).
  rewrite u32_small by lia.
  destruct (len <? pkt_end pkt - al pkt).
  { intros H _. inversion H. auto. }
  unfold copy_to_user.
  destruct (user_bytes (umem st) buf _).
  - cbn [Z.ltb Z.compare]. intros H Hneg. inversion H as [[Hrv Hst]].
    rewrite s32_small in Hrv by lia. lia.
  - cbn [Z.ltb Z.compare Z.opp EFAULT]. intros H _. inversion H. auto.
Qed.

Lemma udp_sys_recv_error_unchanged_witness :
  let st := udp_recv pkt_for_5000 bound_5000 in
  let st' := recv_state (udp_sys_recv 1 12288 2 0 st) in
  udp_sys_recv 1 12288 2 0 st = Returned (- EFAULT) st' /\
  st' = st.
Proof.
  intros st st'.
  assert (H1 : forall pkt, head (recvq (sockets st !!! 1%nat)) = Some pkt ->
                           0 <= pkt_end pkt - al pkt < 2 ^ 31).
  { intros pkt H. injection H as <-. vm_compute. split; [discriminate | reflexivity]. }
  assert (H2 : udp_sys_recv 1 12288 2 0 st = Returned (- EFAULT) st')
    by (vm_compute; reflexivity).
  assert (H3 : - EFAULT < 0) by (vm_compute; reflexivity).
  split; [exact H2 |].
  exact (proj1 (udp_sys_recv_error_unchanged 1 12288 2 0 st st' (- EFAULT) H1 H2 H3)).
Defined.

(** X8.  A receive on a bound socket with an empty queue puts the
    calling process to sleep: the process joins the socket's wait list
    and stops being ready.  The next packet that [udp_recv] hands to the
    socket wakes it: the process is ready again, the wait list is empty,
    the packet is the one entry of the queue, and the receive, retried
    from that state, returns instead of sleeping. *)
Theorem udp_sys_recv_sleep_wake (s : nat) (buf len flags : Z) (pkt : packet)
    (st : kernel) (e : udp_wait_entry) (rest : list udp_wait_entry) :
  sk_bound (sockets st !!! s) = true ->
  recvq (sockets st !!! s) = [] ->
  bucket st (udp_hash (ntohs (udp_dst_port pkt))) = e :: rest ->
  sock e = Some s ->
  exists st1,
    udp_sys_recv s buf len flags st = Sleeping st1 /\
    pr_ready st1 !! current st = Some false /\
    recvwait (sockets st1 !!! s) = recvwait (sockets st !!! s) ++ [current st] /\
    let st2 := udp_recv pkt st1 in
    pr_ready st2 !! current st = Some true /\
    recvwait (sockets st2 !!! s) = [] /\
    recvq (sockets st2 !!! s) = [set_al (tl pkt + sizeof_udphdr) pkt] /\
    exists rv st3, udp_sys_recv s buf len flags st2 = Returned rv st3.
Proof.
  intros Hb Hq Hbk Hs. unfold udp_sys_recv at 1.
  rewrite Hb. cbn [negb]. unfold socket_recvq_get. rewrite Hq. cbn [head].
  eexists. split; [reflexivity |].
  set (st1 := wait_for s st).
  assert (Hso : sockets st1 !!! s
                = {| src := src (sockets st !!! s); dst := dst (sockets st !!! s);
                     sk_bound := sk_bound (sockets st !!! s);
                     sk_connected := sk_connected (sockets st !!! s);
                     recvq := recvq (sockets st !!! s);
                     recvwait := recvwait (sockets st !!! s) ++ [current st] |}).
  { subst st1. unfold wait_for. cbn [sockets set_ready set_sockets set_pr_ready].
    apply lookup_total_insert_eq. }
  split.
  { subst st1. unfold wait_for. cbn [pr_ready set_ready set_pr_ready current set_sockets].
    apply lookup_insert_eq. }
  split; [rewrite Hso; reflexivity |].
  assert (Hbk1 : bucket st1 (udp_hash (ntohs (udp_dst_port pkt))) = e :: rest)
    by exact Hbk.
  cbv zeta. rewrite (udp_recv_head_socket pkt st1 e rest s Hbk1 Hs).
  rewrite deliver_state. cbv zeta.
  set (st2 := set_sockets _ _).
  assert (Hso2 : sockets st2 !!! s
                 = {| src := src (sockets st1 !!! s); dst := dst (sockets st1 !!! s);
                      sk_bound := sk_bound (sockets st1 !!! s);
                      sk_connected := sk_connected (sockets st1 !!! s);
                      recvq := recvq (sockets st1 !!! s)
                               ++ [set_al (tl pkt + sizeof_udphdr) pkt];
                      recvwait := [] |}).
  { subst st2. cbn [sockets set_sockets]. apply lookup_total_insert_eq. }
  split.
  { subst st2. cbn [pr_ready set_sockets set_pr_ready].
    rewrite ready_fold_lookup. rewrite decide_True; [reflexivity |].
    rewrite Hso. cbn [recvwait]. apply elem_of_app. right. left. }
  split; [rewrite Hso2; reflexivity |].
  split; [rewrite Hso2, Hso; cbn [recvq]; rewrite Hq; reflexivity |].
  unfold udp_sys_recv, socket_recvq_get. rewrite Hso2, Hso. cbn [sk_bound recvq].
  rewrite Hb, Hq. cbn [negb app head].
  match goal with
  | |- context [len <? ?x] => destruct (len <? x)
  end; [eexists _, _; reflexivity |].
  match goal with
  | |- context [copy_to_user ?a ?b ?c] => destruct (copy_to_user a b c) as [rv k]
  end.
  destruct (rv <? 0); eexists _, _; reflexivity.
Qed.

Lemma udp_sys_recv_sleep_wake_witness :
  exists st1,
    udp_sys_recv 1 8192 2 0 bound_5000 = Sleeping st1 /\
    pr_ready st1 !! current bound_5000 = Some false /\
    pr_ready (udp_recv pkt_for_5000 st1) !! current bound_5000 = Some true.
Proof.
  assert (H1 : sk_bound (sockets bound_5000 !!! 1%nat) = true) by reflexivity.
  assert (H2 : recvq (sockets bound_5000 !!! 1%nat) = []) by reflexivity.
  assert (H3 : bucket bound_5000 (udp_hash (ntohs (udp_dst_port pkt_for_5000)))
               = {| sock := Some 1%nat; proc := None; rcv := None; port := 5000 |} :: [])
    by (vm_compute; reflexivity).
  destruct (udp_sys_recv_sleep_wake 1 8192 2 0 pkt_for_5000 bound_5000 _ [] H1 H2 H3
              eq_refl) as (st1 & R1 & R2 & _ & R4 & _).
  exists st1. split; [exact R1 |]. split; [exact R2 | exact R4].
Defined.

(** *** One-shot waiters *)

(** The entry that [udp_wait] links for the current process. *)
Lemma udp_wait_arm_bucket (p : Z) (st : kernel) (h : Z) :
  bucket (udp_wait_arm p st) h
  = if Z.eq_dec h (udp_hash p)
    then {| sock := None; proc := Some (current st); rcv := None; port := p |}
         :: bucket st (udp_hash p)
    else bucket st h.
Proof.
  unfold udp_wait_arm.
  change (bucket (set_irq_enabled true _) h)
    with (bucket (hlist_insert (udp_hash p)
                    {| sock := None; proc := Some (current st); rcv := None;
                       port := p |} st) h).
  apply bucket_hlist_insert.
Qed.

(** Resuming with the own entry at the head of the chain: the entry is
    unlinked and its [rcv] slot returned. *)
Lemma udp_wait_resume_head (p : Z) (st : kernel) (w : udp_wait_entry)
    (rest : list udp_wait_entry) :
  bucket st (udp_hash p) = w :: rest ->
  sock w = None ->
  proc w = Some (current st) ->
  fst (udp_wait_resume p st) = rcv w /\
  forall h, bucket (snd (udp_wait_resume p st)) h
            = if Z.eq_dec h (udp_hash p) then rest else bucket st h.
Proof.
  intros Hb Hs Hp. unfold udp_wait_resume. rewrite Hb. cbn [hlist_remove_own].
  unfold is_own_entry. rewrite Hs, Hp, Nat.eqb_refl. cbn [fst snd].
  split; [reflexivity |]. intros h. apply bucket_set_udp_hlist.
Qed.

(** X9.  Arming a wait for a port and resuming it with nothing received
    is a round trip on the table: [udp_wait] returns NULL and every
    bucket holds the chain it held before.  While the process sleeps it
    is not ready, interrupts are enabled, and its entry heads the bucket
    of the port. *)
Theorem udp_wait_nothing_received (p : Z) (st : kernel) :
  let st1 := udp_wait_arm p st in
  pr_ready st1 !! current st = Some false /\
  irq_enabled st1 = true /\
  head (bucket st1 (udp_hash p))
  = Some {| sock := None; proc := Some (current st); rcv := None; port := p |} /\
  fst (udp_wait_resume p st1) = None /\
  forall h, bucket (snd (udp_wait_resume p st1)) h = bucket st h.
Proof.
  intros st1.
  assert (Hb : bucket st1 (udp_hash p)
               = {| sock := None; proc := Some (current st); rcv := None; port := p |}
                 :: bucket st (udp_hash p)).
  { subst st1. rewrite udp_wait_arm_bucket.
    destruct (Z.eq_dec (udp_hash p) (udp_hash p)); [reflexivity | contradiction]. }
  split.
  { subst st1. unfold udp_wait_arm.
    cbn [pr_ready set_irq_enabled set_ready set_pr_ready current hlist_insert
         set_udp_hlist].
    apply lookup_insert_eq. }
  split; [reflexivity |].
  split; [rewrite Hb; reflexivity |].
  destruct (udp_wait_resume_head p st1 _ _ Hb eq_refl eq_refl) as (Hr & Hbk).
  split; [exact Hr |].
  intros h. rewrite Hbk. destruct (Z.eq_dec h (udp_hash p)) as [-> | Hne].
  - reflexivity.
  - subst st1. rewrite udp_wait_arm_bucket.
    destruct (Z.eq_dec h (udp_hash p)); [contradiction | reflexivity].
Qed.




Lemma udp_recv_walk_current (pkt : packet) (dport hash : Z)
    (seen rest : list udp_wait_entry) (st st' : kernel) :
  udp_recv_walk pkt dport hash seen rest st = Some st' -> current st' = current st.
Proof.
  revert seen. induction rest as [|e rest IH]; intros seen H.
  - discriminate.
  - cbn [udp_recv_walk] in H. destruct (sock e) as [s |].
    + inversion H. rewrite deliver_state. reflexivity.
    + destruct (port e =? dport).
      * inversion H. destruct (proc e); reflexivity.
      * apply IH in H. exact H.
Qed.

(** X11.  A waiter gets only packets for its own port: when a packet for
    another port arrives while a process waits for port [p], whoever
    takes the packet, the waiter's entry still heads its bucket with an
    empty [rcv] slot, and the resumed [udp_wait] returns NULL. *)
Theorem udp_wait_other_port (p : Z) (pkt : packet) (st : kernel) :
  ntohs (udp_dst_port pkt) <> p ->
  let st2 := udp_recv pkt (udp_wait_arm p st) in
  head (bucket st2 (udp_hash p))
  = Some {| sock := None; proc := Some (current st); rcv := None; port := p |} /\
  fst (udp_wait_resume p st2) = None.
Proof.
  intros Hp st2.
  set (w := {| sock := None; proc := Some (current st); rcv := None; port := p |}).
  set (st1 := udp_wait_arm p st) in *.
  set (pkt' := set_al (tl pkt + sizeof_udphdr) pkt).
  set (dport := ntohs (udp_dst_port pkt)) in *.
  set (hash := udp_hash dport).
  assert (Hb1 : bucket st1 (udp_hash p) = w :: bucket st (udp_hash p)).
  { subst st1. rewrite udp_wait_arm_bucket.
    destruct (Z.eq_dec (udp_hash p) (udp_hash p)); [reflexivity | contradiction]. }
  assert (H : exists rest, bucket st2 (udp_hash p) = w :: rest /\ current st2 = current st).
  { subst st2. unfold udp_recv. fold pkt'.
    change (udp_dst_port pkt') with (udp_dst_port pkt). fold dport. fold hash.
    destruct (udp_recv_walk pkt' dport hash [] (bucket st1 hash) st1) as [k |] eqn:E.
    - pose proof (udp_recv_walk_current _ _ _ _ _ _ _ E) as Hc.
      apply udp_recv_walk_table in E.
      destruct E as [E | (pre & entry & post & Hbk & Hs & Hport & Ht)].
      + exists (bucket st (udp_hash p)). split; [| exact Hc].
        rewrite (bucket_of_table st1 k) by exact E. exact Hb1.
      + destruct (Z.eq_dec (udp_hash p) hash) as [Eh | Eh].
        * rewrite <- Eh in Hbk. rewrite Hb1 in Hbk.
          destruct pre as [|x pre].
          { cbn [app] in Hbk. injection Hbk as Hw _. rewrite <- Hw in Hport.
            cbn [port w] in Hport. congruence. }
          cbn [app] in Hbk. injection Hbk as Hw Hrest.
          exists (pre ++ set_rcv (Some pkt') entry :: post). split; [| exact Hc].
          unfold bucket. rewrite Ht, Eh, lookup_insert_eq. cbn [default app].
          rewrite Hw. reflexivity.
        * exists (bucket st (udp_hash p)). split; [| exact Hc].
          unfold bucket at 1. rewrite Ht. rewrite lookup_insert_ne by congruence.
          exact Hb1.
    - exists (bucket st (udp_hash p)). split; [exact Hb1 | reflexivity]. }
  destruct H as (rest & Hb2 & Hcur).
  split; [rewrite Hb2; reflexivity |].
  destruct (udp_wait_resume_head p st2 w rest Hb2 eq_refl) as (Hr & _).
  { rewrite Hcur. reflexivity. }
  exact Hr.
Qed.

Lemma udp_wait_other_port_witness :
  let st2 := udp_recv pkt_for_5128 (udp_wait_arm 5000 bound_5000) in
  ntohs (udp_dst_port pkt_for_5128) <> 5000 /\
  fst (udp_wait_resume 5000 st2) = None /\
  map pkt_id (recvq (sockets st2 !!! 1%nat)) = [7%nat].
Proof.
  intros st2.
  assert (H : ntohs (udp_dst_port pkt_for_5128) <> 5000) by (vm_compute; discriminate).
  destruct (udp_wait_other_port 5000 pkt_for_5128 bound_5000 H) as (_ & R).
  split; [exact H |]. split; [exact R |]. vm_compute. reflexivity.
Defined.

(** *** What connect leaves alone *)

(** X12.  [udp_connect] never binds: whatever it returns, the endpoint
    table, the ephemeral cursor, the socket's local address, its bound
    flag and its queues are as before, and so is every other socket.  A
    connect that returns an error changes nothing at all. *)
Theorem udp_connect_frame (s : nat) (address address_len : Z) (st : kernel) :
  let r := udp_connect s address address_len st in
  udp_hlist (snd r) = udp_hlist st /\
  eph_i (snd r) = eph_i st /\
  src (sockets (snd r) !!! s) = src (sockets st !!! s) /\
  sk_bound (sockets (snd r) !!! s) = sk_bound (sockets st !!! s) /\
  recvq (sockets (snd r) !!! s) = recvq (sockets st !!! s) /\
  recvwait (sockets (snd r) !!! s) = recvwait (sockets st !!! s) /\
  (forall s', s' <> s -> sockets (snd r) !!! s' = sockets st !!! s') /\
  (fst r <> 0 -> snd r = st /\ fst r < 0).
Proof.
  cbv zeta. unfold udp_connect.
  destruct (negb (address_len =? sizeof_sockaddr_in)).
  { cbn [fst snd]. unfold EINVAL.
    split; [reflexivity |]. split; [reflexivity |]. split; [reflexivity |].
    split; [reflexivity |]. split; [reflexivity |]. split; [reflexivity |].
    split; [reflexivity |]. intros _. split; [reflexivity | lia]. }
  destruct (usockaddr st address) as [addr |].
  2:{ cbn [fst snd]. unfold EFAULT.
      split; [reflexivity |]. split; [reflexivity |]. split; [reflexivity |].
      split; [reflexivity |]. split; [reflexivity |]. split; [reflexivity |].
      split; [reflexivity |]. intros _. split; [reflexivity | lia]. }
  cbn [fst snd sockets set_sockets udp_hlist eph_i].
  rewrite lookup_total_insert_eq. cbn [src sk_bound recvq recvwait].
  split; [reflexivity |]. split; [reflexivity |]. split; [reflexivity |].
  split; [reflexivity |]. split; [reflexivity |]. split; [reflexivity |].
  split.
  - intros s' Hne. apply lookup_total_insert_ne. congruence.
  - intros H. contradiction H. reflexivity.
Qed.

(** *** The ephemeral allocator, in range *)

Lemma udp_bind_to_ephemeral_loop_cursor (tries : nat) (s : nat) (st : kernel) :
  EPH_BEGIN <= eph_i st <= 65535 ->
  EPH_BEGIN <= eph_i (snd (udp_bind_to_ephemeral_loop tries s st)) <= 65535.
Proof.
  revert st. induction tries as [|n IH]; intros st Hr.
  - exact Hr.
  - cbn [udp_bind_to_ephemeral_loop].
    set (i1 := if eph_i st =? 65535 then EPH_BEGIN else u16 (eph_i st + 1)).
    assert (Hi1 : EPH_BEGIN <= i1 <= 65535).
    { subst i1. destruct (Z.eqb_spec (eph_i st) 65535).
      - unfold EPH_BEGIN. lia.
      - rewrite u16_small; unfold EPH_BEGIN in *; lia. }
    destruct (lookup_entry (htons (eph_i st)) (set_eph_i i1 st)).
    + apply IH. exact Hi1.
    + exact Hi1.
Qed.

(** X13.  The ephemeral allocator stays in its range: started with the
    cursor between 20000 and 65535 it leaves the cursor there, and when
    it succeeds the socket is bound to the "any" address and a port [p]
    of that range, stored in network byte order, with the socket's entry
    for [p] at the head of the bucket [p] hashes to.  When it fails, no
    socket and no bucket has changed. *)
Theorem udp_bind_to_ephemeral_in_range (s : nat) (st st' : kernel) (ok : bool) :
  EPH_BEGIN <= eph_i st <= 65535 ->
  udp_bind_to_ephemeral s st = (ok, st') ->
  EPH_BEGIN <= eph_i st' <= 65535 /\
  (ok = true ->
   exists p, EPH_BEGIN <= p <= 65535 /\
             sk_bound (sockets st' !!! s) = true /\
             src (sockets st' !!! s) = {| sin_port := htons p; sin_addr := 0 |} /\
             head (bucket st' (udp_hash p))
             = Some {| sock := Some s; proc := None; rcv := None; port := p |}) /\
  (ok = false -> sockets st' = sockets st /\ udp_hlist st' = udp_hlist st).
Proof.
  intros Hr H. rewrite udp_bind_to_ephemeral_eq in H.
  split.
  { pose proof (udp_bind_to_ephemeral_loop_cursor EPH_TRIES s st Hr) as Hc.
    rewrite H in Hc. exact Hc. }
  split.
  - intros ->. apply udp_bind_to_ephemeral_loop_ok in H.
    destruct H as (p & i & -> & _ & Hp). specialize (Hp Hr).
    exists p. split; [exact Hp |].
    pose proof (udp_do_bind_bound s {| sin_port := htons p; sin_addr := 0 |}
                  (set_eph_i i st)) as B.
    cbv zeta in B. cbn [sin_port] in B.
    rewrite ntohs_htons in B by (unfold EPH_BEGIN in Hp; lia).
    exact B.
  - intros ->. apply udp_bind_to_ephemeral_loop_exhausted in H.
    destruct H as (i & ->). split; reflexivity.
Qed.

Lemma udp_bind_to_ephemeral_in_range_witness :
  let r := udp_bind_to_ephemeral 2 bound_5000 in
  EPH_BEGIN <= eph_i bound_5000 <= 65535 /\
  fst r = true /\
  eph_i (snd r) = 20001 /\
  EPH_BEGIN <= eph_i (snd r) <= 65535.
Proof.
  intros r.
  assert (H1 : EPH_BEGIN <= eph_i bound_5000 <= 65535)
    by (vm_compute; split; discriminate).
  assert (H2 : udp_bind_to_ephemeral 2 bound_5000 = (true, snd r))
    by (vm_compute; reflexivity).
  destruct (udp_bind_to_ephemeral_in_range 2 bound_5000 (snd r) true H1 H2) as (R & _).
  split; [exact H1 |]. split; [vm_compute; reflexivity |].
  split; [vm_compute; reflexivity | exact R].
Defined.

(** *** What a send puts into the datagram *)

Lemma load_bytes_ext (n : nat) (m m' : mem) (a : Z) :
  (forall x, a <= x < a + Z.of_nat n -> m x = m' x) ->
  load_bytes m a n = load_bytes m' a n.
Proof.
  revert a. induction n as [|n IH]; intros a H; cbn [load_bytes].
  - reflexivity.
  - unfold load8. rewrite (H a) by lia. f_equal. apply IH.
    intros x Hx. apply H. lia.
Qed.

(** Reading a buffer back after a copy gives the bytes copied, each
    truncated to eight bits. *)
Lemma load_bytes_store_bytes (bs : list Z) (m : mem) (a : Z) :
  load_bytes (store_bytes m a bs) a (length bs) = map u8 bs.
Proof.
  revert m a. induction bs as [|b bs IH]; intros m a.
  - reflexivity.
  - cbn [store_bytes length load_bytes map]. f_equal.
    + unfold load8. rewrite store_bytes_outside by lia. rewrite store8_same.
      unfold u8. apply Z.mod_mod. lia.
    + apply IH.
Qed.

(** The packet [udp_send] hands to [ip_send]: the transport cursor is
    set eight bytes before the payload, the ports are stored in the
    first two header fields, and no byte outside the header changes. *)
Lemma udp_send_header (pkt : packet) (src_ip dst_ip sp dp : Z) (st : kernel) :
  exists d,
    udp_send pkt src_ip dst_ip sp dp st
    = set_ip_out (ip_out st ++ [d]) st /\
    ip_proto d = IPPROTO_UDP /\ ip_src d = src_ip /\ ip_dst d = dst_ip /\
    pkt_id (ip_pkt d) = pkt_id pkt /\
    tl (ip_pkt d) = al pkt - sizeof_udphdr /\
    al (ip_pkt d) = al pkt /\
    pkt_end (ip_pkt d) = pkt_end pkt /\
    udp_src_port (ip_pkt d) = u16 sp /\
    udp_dst_port (ip_pkt d) = u16 dp /\
    (forall x, x < al pkt - sizeof_udphdr \/ al pkt <= x ->
               data (ip_pkt d) x = data pkt x).
Proof.
  unfold udp_send, ip_send. eexists. split; [reflexivity |].
  cbn [ip_proto ip_src ip_dst ip_pkt pkt_id tl al pkt_end data].
  split; [reflexivity |]. split; [reflexivity |]. split; [reflexivity |].
  split; [reflexivity |]. split; [reflexivity |]. split; [reflexivity |].
  split; [reflexivity |].
  unfold udp_src_port, udp_dst_port. cbn [data tl]. unfold sizeof_udphdr.
  split.
  { rewrite !load16_store16_other by lia. apply load16_store16_same. }
  split.
  { rewrite !load16_store16_other by lia. apply load16_store16_same. }
  intros x Hx. unfold store16.
  rewrite !storen_outside by (cbn [Z.of_nat Pos.of_succ_nat Pos.succ]; lia).
  reflexivity.
Qed.

(** A send that does not return an error has copied the user's bytes
    into a fresh packet, behind the room reserved for the headers, and
    passed the packet to [udp_send] with the socket's addresses. *)
Lemma udp_sys_send_ok_inv (ip_reserve MAX_ETH_PKT_SIZE : Z) (s : nat)
    (buf len flags : Z) (st st' : kernel) (rv : Z) :
  udp_sys_send ip_reserve MAX_ETH_PKT_SIZE s buf len flags st = (rv, st') ->
  0 <= rv ->
  exists st1 payload,
    umem st1 = umem st /\ ip_out st1 = ip_out st /\ freed st1 = freed st /\
    pkt_next st1 = pkt_next st /\ nif_ip st1 = nif_ip st /\
    dst (sockets st1 !!! s) = dst (sockets st !!! s) /\
    sk_bound (sockets st1 !!! s) = true /\
    user_bytes (umem st) buf (Z.to_nat len) = Some payload /\
    rv = s32 len /\
    let so := sockets st1 !!! s in
    st' = udp_send
            {| pkt_id := pkt_next st1;
               data := store_bytes (pkt_fresh st1 (pkt_next st1))
                         (udp_reserve ip_reserve) payload;
               tl := 0; al := udp_reserve ip_reserve;
               pkt_end := udp_reserve ip_reserve + len |}
            (if negb (sin_addr (src so) =? 0) then sin_addr (src so) else nif_ip st1)
            (sin_addr (dst so)) (sin_port (src so)) (sin_port (dst so))
            (set_pkt_next (S (pkt_next st1)) st1).
Proof.
  assert (Hneg : forall e k, 0 < e -> (- e, k) = (rv, st') -> 0 <= rv -> False).
  { intros e k He Heq Hrv. inversion Heq. lia. }
  unfold udp_sys_send.
  destruct (u32 MAX_ETH_PKT_SIZE <? u32 (udp_reserve ip_reserve + len)).
  { intros H Hrv. exfalso. eapply Hneg; [| exact H | exact Hrv]. reflexivity. }
  destruct (sk_connected (sockets st !!! s)); cbn [negb].
  2:{ intros H Hrv. exfalso. eapply Hneg; [| exact H | exact Hrv]. reflexivity. }
  assert (Hst : forall r,
             (if negb (sk_bound (sockets st !!! s)) then udp_bind_to_ephemeral s st
              else (true, st)) = r ->
             fst r = true ->
             umem (snd r) = umem st /\ ip_out (snd r) = ip_out st /\
             freed (snd r) = freed st /\ pkt_next (snd r) = pkt_next st /\
             nif_ip (snd r) = nif_ip st /\
             dst (sockets (snd r) !!! s) = dst (sockets st !!! s) /\
             sk_bound (sockets (snd r) !!! s) = true).
  { destruct (sk_bound (sockets st !!! s)) eqn:Eb; cbn [negb].
    - intros r <- _. cbn [snd]. auto 10.
    - intros [ok st1] Ee Hok. cbn [fst snd] in *. subst ok.
      rewrite udp_bind_to_ephemeral_eq in Ee.
      apply udp_bind_to_ephemeral_loop_ok in Ee.
      destruct Ee as (p & i & -> & _).
      unfold udp_do_bind.
      cbn [umem ip_out freed pkt_next nif_ip sockets set_sockets hlist_insert
           set_udp_hlist set_eph_i].
      rewrite lookup_total_insert_eq. cbn [dst sk_bound]. auto 10. }
  specialize (Hst _ eq_refl).
  destruct (if negb (sk_bound (sockets st !!! s)) then udp_bind_to_ephemeral s st
            else (true, st)) as [ok st1].
  cbn [fst snd] in Hst.
  destruct ok; cbn [negb].
  2:{ intros H Hrv. exfalso. eapply Hneg; [| exact H | exact Hrv]. reflexivity. }
  destruct (Hst eq_refl) as (Hum & Hout & Hfr & Hnx & Hnif & Hdst & Hbd). clear Hst.
  cbn [packet_alloc umem set_pkt_next]. rewrite Hum.
  destruct (user_bytes (umem st) buf (Z.to_nat len)) as [payload |].
  2:{ intros H Hrv. exfalso. eapply Hneg; [| exact H | exact Hrv]. reflexivity. }
  intros H _. injection H as Hrv Hst'.
  exists st1, payload.
  split; [exact Hum |]. split; [exact Hout |]. split; [exact Hfr |].
  split; [exact Hnx |]. split; [exact Hnif |]. split; [exact Hdst |].
  split; [exact Hbd |]. split; [reflexivity |]. split; [symmetry; exact Hrv |].
  cbv zeta. symmetry. exact Hst'.
Qed.

(** X14.  The datagram of a successful send carries what the caller
    gave: its payload, read from the payload cursor, is the [len] bytes
    of the user's buffer; the payload cursor stands eight bytes behind
    the transport cursor and [len] bytes before the end; the header's
    port fields hold the socket's local and remote ports as stored in
    the socket; the destination address is the connected one and the
    source address is the socket's, or the interface's when the socket
    is bound to "any".  The socket is bound afterwards. *)
Theorem udp_sys_send_carries (ip_reserve MAX_ETH_PKT_SIZE : Z) (s : nat)
    (buf len flags : Z) (st st' : kernel) :
  0 <= len ->
  udp_sys_send ip_reserve MAX_ETH_PKT_SIZE s buf len flags st = (len, st') ->
  exists d payload,
    ip_out st' = ip_out st ++ [d] /\
    user_bytes (umem st) buf (Z.to_nat len) = Some payload /\
    load_bytes (data (ip_pkt d)) (al (ip_pkt d)) (Z.to_nat len) = map u8 payload /\
    al (ip_pkt d) = tl (ip_pkt d) + sizeof_udphdr /\
    pkt_end (ip_pkt d) = al (ip_pkt d) + len /\
    udp_src_port (ip_pkt d) = u16 (sin_port (src (sockets st' !!! s))) /\
    udp_dst_port (ip_pkt d) = u16 (sin_port (dst (sockets st !!! s))) /\
    ip_dst d = sin_addr (dst (sockets st !!! s)) /\
    ip_src d = (if negb (sin_addr (src (sockets st' !!! s)) =? 0)
                then sin_addr (src (sockets st' !!! s)) else nif_ip st) /\
    sk_bound (sockets st' !!! s) = true.
Proof.
  intros Hlen H.
  destruct (udp_sys_send_ok_inv _ _ _ _ _ _ _ _ _ H Hlen)
    as (st1 & payload & Hum & Hout & _ & _ & Hnif & Hdst & Hbd & Hpay & _ & Hst').
  cbv zeta in Hst'.
  match type of Hst' with
  | st' = udp_send ?pkt ?a ?b ?c ?e ?k =>
      destruct (udp_send_header pkt a b c e k)
        as (d & Hd & _ & Hsrc & Hdstip & _ & Htl & Hal & Hend & Hsp & Hdp & Hdata)
  end.
  rewrite <- Hst' in Hd.
  assert (Hsock : sockets st' = sockets st1) by (rewrite Hd; reflexivity).
  cbn [al pkt_end] in Htl, Hal, Hend, Hdata.
  pose proof (user_bytes_length _ _ _ _ Hpay) as Hn.
  exists d, payload.
  split; [rewrite Hd; cbn [ip_out set_ip_out set_pkt_next]; rewrite Hout; reflexivity |].
  split; [exact Hpay |].
  split.
  { rewrite Hal. rewrite <- Hn.
    rewrite (load_bytes_ext (length payload) (data (ip_pkt d))
               (store_bytes (pkt_fresh st1 (pkt_next st1)) (udp_reserve ip_reserve)
                  payload)).
    - apply load_bytes_store_bytes.
    - intros x Hx. rewrite Hdata by lia. reflexivity. }
  split; [rewrite Hal, Htl; unfold sizeof_udphdr; lia |].
  split; [rewrite Hal, Hend; reflexivity |].
  rewrite Hsock.
  split; [exact Hsp |].
  split; [rewrite Hdp, Hdst; reflexivity |].
  split; [rewrite Hdstip, Hdst; reflexivity |].
  split; [rewrite Hsrc, Hnif; reflexivity |].
  exact Hbd.
Qed.

Lemma udp_sys_send_carries_witness :
  let st := snd (udp_connect 2 4128 16 boot) in
  let st' := snd (udp_sys_send 34 1514 2 8192 2 0 st) in
  udp_sys_send 34 1514 2 8192 2 0 st = (2, st') /\
  exists d,
    ip_out st' = [d] /\
    load_bytes (data (ip_pkt d)) (al (ip_pkt d)) 2 = [104; 105] /\
    udp_dst_port (ip_pkt d) = htons 53 /\
    udp_src_port (ip_pkt d) = htons 20000 /\
    ip_dst d = 0x0302000a /\
    ip_src d = 0x0f02000a.
Proof.
  intros st st'.
  assert (H : udp_sys_send 34 1514 2 8192 2 0 st = (2, st'))
    by (vm_compute; reflexivity).
  split; [exact H |].
  destruct (udp_sys_send_carries 34 1514 2 8192 2 0 st st' ltac:(lia) H)
    as (d & payload & R1 & R2 & R3 & _ & _ & R6 & R7 & R8 & R9 & _).
  exists d.
  assert (Hp : payload = [104; 105]).
  { assert (E : user_bytes (umem st) 8192 (Z.to_nat 2) = Some [104; 105])
      by (vm_compute; reflexivity).
    rewrite E in R2. injection R2 as <-. reflexivity. }
  subst payload.
  split; [exact R1 |]. split; [exact R3 |].
  split; [rewrite R7; vm_compute; reflexivity |].
  split; [rewrite R6; vm_compute; reflexivity |].
  split; [rewrite R8; vm_compute; reflexivity |].
  rewrite R9. vm_compute. reflexivity.
Defined.

(** The ephemeral allocator touches neither packets nor user memory. *)
Lemma udp_bind_to_ephemeral_frame (s : nat) (st : kernel) :
  let st1 := snd (udp_bind_to_ephemeral s st) in
  umem st1 = umem st /\ ip_out st1 = ip_out st /\ freed st1 = freed st /\
  pkt_next st1 = pkt_next st /\ console st1 = console st.
Proof.
  cbv zeta. rewrite udp_bind_to_ephemeral_eq.
  destruct (udp_bind_to_ephemeral_loop EPH_TRIES s st) as [[|] st1] eqn:E; cbn [snd].
  - apply udp_bind_to_ephemeral_loop_ok in E. destruct E as (p & i & -> & _).
    auto 10.
  - apply udp_bind_to_ephemeral_loop_exhausted in E. destruct E as (i & ->).
    auto 10.
Qed.

(** X15.  [udp_sys_send] accounts for the packet it allocates.  Either
    it returns -EMSGSIZE, -EDESTADDRREQ or -EADDRINUSE without having
    allocated one; or it allocates one, the copy from the user faults,
    and it frees that packet and returns -EFAULT; or it allocates one,
    hands exactly that packet to [ip_send] and returns the length.
    Nothing is sent on an error path and nothing is freed on the others. *)
Theorem udp_sys_send_accounts (ip_reserve MAX_ETH_PKT_SIZE : Z) (s : nat)
    (buf len flags : Z) (st : kernel) :
  let r := udp_sys_send ip_reserve MAX_ETH_PKT_SIZE s buf len flags st in
  (pkt_next (snd r) = pkt_next st /\ ip_out (snd r) = ip_out st /\
   freed (snd r) = freed st /\
   (fst r = - EMSGSIZE \/ fst r = - EDESTADDRREQ \/ fst r = - EADDRINUSE)) \/
  (pkt_next (snd r) = S (pkt_next st) /\ ip_out (snd r) = ip_out st /\
   freed (snd r) = pkt_next st :: freed st /\ fst r = - EFAULT) \/
  (pkt_next (snd r) = S (pkt_next st) /\ freed (snd r) = freed st /\
   fst r = s32 len /\
   exists d, ip_out (snd r) = ip_out st ++ [d] /\ pkt_id (ip_pkt d) = pkt_next st).
Proof.
  cbv zeta. unfold udp_sys_send.
  destruct (u32 MAX_ETH_PKT_SIZE <? u32 (udp_reserve ip_reserve + len)).
  { left. cbn [fst snd]. auto 10. }
  destruct (sk_connected (sockets st !!! s)); cbn [negb].
  2:{ left. cbn [fst snd]. auto 10. }
  assert (Hfr : let st1 := snd (if negb (sk_bound (sockets st !!! s))
                                then udp_bind_to_ephemeral s st else (true, st)) in
                umem st1 = umem st /\ ip_out st1 = ip_out st /\ freed st1 = freed st /\
                pkt_next st1 = pkt_next st /\ console st1 = console st).
  { destruct (negb (sk_bound (sockets st !!! s))).
    - apply udp_bind_to_ephemeral_frame.
    - cbn [snd]. auto 10. }
  destruct (if negb (sk_bound (sockets st !!! s)) then udp_bind_to_ephemeral s st
            else (true, st)) as [ok st1].
  cbv zeta in Hfr. cbn [snd] in Hfr.
  destruct Hfr as (Hum & Hout & Hfree & Hnext & _).
  destruct ok; cbn [negb].
  2:{ left. cbn [fst snd]. auto 10. }
  cbn [packet_alloc umem set_pkt_next].
  destruct (user_bytes (umem st1) buf (Z.to_nat len)) as [payload |].
  - right. right. cbn [fst snd].
    match goal with
    | |- context [udp_send ?pkt ?a ?b ?c ?e ?k] =>
        destruct (udp_send_header pkt a b c e k) as (d & Hd & _ & _ & _ & Hid & _)
    end.
    rewrite Hd. cbn [pkt_next freed ip_out set_ip_out set_pkt_next].
    rewrite Hnext, Hfree, Hout. cbn [pkt_id] in Hid. rewrite Hnext in Hid.
    split; [reflexivity |]. split; [reflexivity |]. split; [reflexivity |].
    exists d. split; [reflexivity | exact Hid].
  - right. left. cbn [fst snd pkt_next freed ip_out packet_free set_al pkt_id
      set_freed set_pkt_next].
    rewrite Hnext, Hfree, Hout. auto.
Qed.

(** A send on a socket that is already bound neither binds nor moves
    the ephemeral cursor, and changes no socket. *)
Lemma udp_sys_send_bound_frame (ip_reserve MAX_ETH_PKT_SIZE : Z) (s : nat)
    (buf len flags : Z) (st : kernel) :
  sk_bound (sockets st !!! s) = true ->
  let st' := snd (udp_sys_send ip_reserve MAX_ETH_PKT_SIZE s buf len flags st) in
  udp_hlist st' = udp_hlist st /\ eph_i st' = eph_i st /\ sockets st' = sockets st.
Proof.
  intros Hb. cbv zeta. unfold udp_sys_send.
  destruct (u32 MAX_ETH_PKT_SIZE <? u32 (udp_reserve ip_reserve + len));
    [cbn [snd]; auto |].
  destruct (sk_connected (sockets st !!! s)); cbn [negb]; [| cbn [snd]; auto].
  rewrite Hb. cbn [negb packet_alloc umem set_pkt_next].
  destruct (user_bytes (umem st) buf (Z.to_nat len)); cbn [snd]; auto.
Qed.

(** The source port field of the datagram of a successful send, and the
    socket afterwards. *)
Lemma udp_sys_send_src_port (ip_reserve MAX_ETH_PKT_SIZE : Z) (s : nat)
    (buf len flags : Z) (st st' : kernel) :
  0 <= len ->
  udp_sys_send ip_reserve MAX_ETH_PKT_SIZE s buf len flags st = (len, st') ->
  sk_bound (sockets st' !!! s) = true /\
  exists d, ip_out st' = ip_out st ++ [d] /\
            udp_src_port (ip_pkt d) = u16 (sin_port (src (sockets st' !!! s))).
Proof.
  intros Hlen H.
  destruct (udp_sys_send_ok_inv _ _ _ _ _ _ _ _ _ H Hlen)
    as (st1 & payload & _ & Hout & _ & _ & _ & _ & Hbd & _ & _ & Hst').
  cbv zeta in Hst'.
  match type of Hst' with
  | st' = udp_send ?pkt ?a ?b ?c ?e ?k =>
      destruct (udp_send_header pkt a b c e k)
        as (d & Hd & _ & _ & _ & _ & _ & _ & _ & Hsp & _)
  end.
  rewrite <- Hst' in Hd.
  assert (Hsock : sockets st' = sockets st1) by (rewrite Hd; reflexivity).
  rewrite Hsock. split; [exact Hbd |].
  exists d. split; [| exact Hsp].
  rewrite Hd. cbn [ip_out set_ip_out set_pkt_next]. rewrite Hout. reflexivity.
Qed.

(** X16.  A socket keeps the port its first send gave it.  When two
    sends on the same socket succeed one after the other, the second
    does not bind again: it leaves the endpoint table, the ephemeral
    cursor and every socket as the first left them, and the two
    datagrams carry the same source port, whether the socket was bound
    before the first send or got an ephemeral port in it. *)
Theorem udp_sys_send_keeps_port (ip_reserve MAX_ETH_PKT_SIZE : Z) (s : nat)
    (buf1 len1 flags1 buf2 len2 flags2 : Z) (st st1 st2 : kernel) :
  0 <= len1 ->
  0 <= len2 ->
  udp_sys_send ip_reserve MAX_ETH_PKT_SIZE s buf1 len1 flags1 st = (len1, st1) ->
  udp_sys_send ip_reserve MAX_ETH_PKT_SIZE s buf2 len2 flags2 st1 = (len2, st2) ->
  udp_hlist st2 = udp_hlist st1 /\
  eph_i st2 = eph_i st1 /\
  sockets st2 = sockets st1 /\
  exists d1 d2,
    ip_out st2 = ip_out st ++ [d1; d2] /\
    udp_src_port (ip_pkt d1) = udp_src_port (ip_pkt d2).
Proof.
  intros Hl1 Hl2 H1 H2.
  destruct (udp_sys_send_src_port _ _ _ _ _ _ _ _ Hl1 H1) as (Hb1 & d1 & O1 & P1).
  destruct (udp_sys_send_src_port _ _ _ _ _ _ _ _ Hl2 H2) as (_ & d2 & O2 & P2).
  pose proof (udp_sys_send_bound_frame ip_reserve MAX_ETH_PKT_SIZE s buf2 len2 flags2
                st1 Hb1) as F.
  cbv zeta in F. rewrite H2 in F. cbn [snd] in F. destruct F as (F1 & F2 & F3).
  split; [exact F1 |]. split; [exact F2 |]. split; [exact F3 |].
  exists d1, d2. split.
  - rewrite O2, O1, <- app_assoc. reflexivity.
  - rewrite P1, P2, F3. reflexivity.
Qed.

Lemma udp_sys_send_keeps_port_witness :
  let st := snd (udp_connect 2 4128 16 boot) in
  let st1 := snd (udp_sys_send 34 1514 2 8192 2 0 st) in
  let st2 := snd (udp_sys_send 34 1514 2 8192 1 0 st1) in
  sk_bound (sockets st !!! 2%nat) = false /\
  map (fun d => ntohs (udp_src_port (ip_pkt d))) (ip_out st2) = [20000; 20000] /\
  eph_i st2 = eph_i st1 /\
  udp_hlist st2 = udp_hlist st1.
Proof.
  intros st st1 st2.
  assert (H1 : udp_sys_send 34 1514 2 8192 2 0 st = (2, st1)) by (vm_compute; reflexivity).
  assert (H2 : udp_sys_send 34 1514 2 8192 1 0 st1 = (1, st2)) by (vm_compute; reflexivity).
  destruct (udp_sys_send_keeps_port 34 1514 2 8192 2 0 8192 1 0 st st1 st2
              ltac:(lia) ltac:(lia) H1 H2) as (R1 & R2 & _).
  split; [vm_compute; reflexivity |]. split; [vm_compute; reflexivity |].
  split; [exact R2 | exact R1].
Defined.

(** *** From send to receive *)

(** The socket [s] after [udp_recv] has handed it a packet. *)
Lemma udp_recv_head_socket_queue (pkt : packet) (st : kernel) (e : udp_wait_entry)
    (rest : list udp_wait_entry) (s : nat) :
  bucket st (udp_hash (ntohs (udp_dst_port pkt))) = e :: rest ->
  sock e = Some s ->
  let st' := udp_recv pkt st in
  recvq (sockets st' !!! s)
  = recvq (sockets st !!! s) ++ [set_al (tl pkt + sizeof_udphdr) pkt] /\
  sk_bound (sockets st' !!! s) = sk_bound (sockets st !!! s) /\
  umem st' = umem st /\ freed st' = freed st /\ udp_hlist st' = udp_hlist st.
Proof.
  intros Hb Hs. cbv zeta. rewrite (udp_recv_head_socket pkt st e rest s Hb Hs).
  rewrite deliver_state. cbv zeta.
  cbn [sockets set_sockets set_pr_ready umem freed udp_hlist].
  rewrite lookup_total_insert_eq. cbn [recvq sk_bound]. auto.
Qed.

(** X17.  What is sent is what is received.  Take the datagram of a
    successful send of [len] bytes and hand its packet to [udp_recv] in
    any kernel state where a socket-bound entry heads the bucket of the
    datagram's destination port, the socket's queue being empty: a
    receive on that socket, with a writable buffer of at least [len]
    bytes, returns [len] and leaves in the buffer the very bytes the
    sender's buffer held. *)
Theorem udp_send_then_recv (ip_reserve MAX_ETH_PKT_SIZE : Z) (s : nat)
    (buf len flags : Z) (st st' : kernel) :
  0 <= len < 2 ^ 31 ->
  udp_sys_send ip_reserve MAX_ETH_PKT_SIZE s buf len flags st = (len, st') ->
  exists d payload,
    ip_out st' = ip_out st ++ [d] /\
    user_bytes (umem st) buf (Z.to_nat len) = Some payload /\
    forall (k : kernel) (r : nat) (e : udp_wait_entry) (rest : list udp_wait_entry)
           (buf2 len2 flags2 : Z),
      bucket k (udp_hash (ntohs (udp_dst_port (ip_pkt d)))) = e :: rest ->
      sock e = Some r ->
      sk_bound (sockets k !!! r) = true ->
      recvq (sockets k !!! r) = [] ->
      len <= len2 ->
      is_Some (user_bytes (umem k) buf2 (Z.to_nat len)) ->
      exists k',
        udp_sys_recv r buf2 len2 flags2 (udp_recv (ip_pkt d) k) = Returned len k' /\
        user_bytes (umem k') buf2 (Z.to_nat len) = Some (map u8 payload) /\
        recvq (sockets k' !!! r) = [] /\
        freed k' = pkt_id (ip_pkt d) :: freed k.
Proof.
  intros Hlen H.
  destruct (udp_sys_send_ok_inv _ _ _ _ _ _ _ _ _ H ltac:(lia))
    as (st1 & payload & Hum & Hout & _ & _ & Hnif & Hdst & Hbd & Hpay & _ & Hst').
  cbv zeta in Hst'.
  match type of Hst' with
  | st' = udp_send ?pkt ?a ?b ?c ?e ?k =>
      destruct (udp_send_header pkt a b c e k)
        as (d & Hd & _ & _ & _ & _ & Htl & Hal & Hend & _ & _ & Hdata)
  end.
  rewrite <- Hst' in Hd.
  cbn [al pkt_end] in Htl, Hal, Hend, Hdata.
  pose proof (user_bytes_length _ _ _ _ Hpay) as Hn.
  exists d, payload.
  split; [rewrite Hd; cbn [ip_out set_ip_out set_pkt_next]; rewrite Hout; reflexivity |].
  split; [exact Hpay |].
  intros k r e rest buf2 len2 flags2 Hbk Hs Hb Hq Hl2 Hw.
  destruct (udp_recv_head_socket_queue (ip_pkt d) k e rest r Hbk Hs)
    as (Rq & Rb & Rum & Rfr & _).
  rewrite Hq in Rq. cbn [app] in Rq. rewrite Hb in Rb.
  set (p' := set_al (tl (ip_pkt d) + sizeof_udphdr) (ip_pkt d)) in *.
  assert (Hal' : al p' = al (ip_pkt d)).
  { subst p'. cbn [al set_al]. rewrite Htl, Hal. unfold sizeof_udphdr. lia. }
  assert (Hpl : pkt_end p' - al p' = len).
  { rewrite Hal'. subst p'. cbn [pkt_end set_al]. rewrite Hend, Hal. lia. }
  assert (Hload : load_bytes (data p') (al p') (Z.to_nat len) = map u8 payload).
  { rewrite Hal', Hal. subst p'. cbn [data set_al]. rewrite <- Hn.
    rewrite (load_bytes_ext (length payload) (data (ip_pkt d))
               (store_bytes (pkt_fresh st1 (pkt_next st1)) (udp_reserve ip_reserve)
                  payload)).
    - apply load_bytes_store_bytes.
    - intros x Hx. rewrite Hdata by lia. reflexivity. }
  eexists. split.
  { rewrite (udp_sys_recv_ok_eq r buf2 len2 flags2 (udp_recv (ip_pkt d) k) p' []
               Rb Rq); rewrite ?Hpl, ?Rum; [reflexivity | lia | exact Hl2 | exact Hw]. }
  rewrite Hload.
  cbn [umem packet_free list_remove_head set_freed set_sockets set_umem sockets freed].
  split.
  { pose proof (user_bytes_user_store (map u8 payload) (umem k) buf2) as HH.
    rewrite length_map, Hn in HH. exact HH. }
  split.
  { rewrite lookup_total_insert_eq. cbn [recvq]. rewrite Rq. reflexivity. }
  rewrite Rfr. reflexivity.
Qed.

Lemma udp_send_then_recv_witness :
  let st := snd (udp_connect 2 4096 16 bound_5000) in
  let st' := snd (udp_sys_send 34 1514 2 8192 2 0 st) in
  udp_sys_send 34 1514 2 8192 2 0 st = (2, st') /\
  exists d k',
    ip_out st' = [d] /\
    udp_sys_recv 1 8200 16 0 (udp_recv (ip_pkt d) (set_umem (fun _ => Some 0) st'))
    = Returned 2 k' /\
    user_bytes (umem k') 8200 2 = Some [104; 105].
Proof.
  intros st st'.
  assert (H : udp_sys_send 34 1514 2 8192 2 0 st = (2, st'))
    by (vm_compute; reflexivity).
  split; [exact H |].
  destruct (udp_send_then_recv 34 1514 2 8192 2 0 st st' ltac:(lia) H)
    as (d & payload & R1 & R2 & R3).
  assert (Hp : payload = [104; 105]).
  { assert (E : user_bytes (umem st) 8192 (Z.to_nat 2) = Some [104; 105])
      by (vm_compute; reflexivity).
    rewrite E in R2. injection R2 as <-. reflexivity. }
  subst payload.
  assert (Hd : ip_out st' = [d]) by exact R1.
  assert (Hport : ntohs (udp_dst_port (ip_pkt d)) = 5000).
  { assert (E : map (fun x => ntohs (udp_dst_port (ip_pkt x))) (ip_out st') = [5000])
      by (vm_compute; reflexivity).
    rewrite Hd in E. injection E as E. exact E. }
  set (k := set_umem (fun _ => Some 0) st').
  assert (Hbk : bucket k (udp_hash (ntohs (udp_dst_port (ip_pkt d))))
                = {| sock := Some 1%nat; proc := None; rcv := None; port := 5000 |}
                  :: []).
  { rewrite Hport. vm_compute. reflexivity. }
  destruct (R3 k 1%nat _ [] 8200 16 0 Hbk eq_refl)
    as (k' & K1 & K2 & _).
  - vm_compute. reflexivity.
  - vm_compute. reflexivity.
  - lia.
  - vm_compute. eexists. reflexivity.
  - exists d, k'. split; [exact Hd |]. split; [exact K1 | exact K2].
Defined.

(** X18.  The receive queue is first in, first out: when two packets
    are handed to the same bound socket one after the other, the queue
    holds them in their order of arrival behind what it held, and a
    receive on the socket, its queue having been empty, returns the
    payload of the first and leaves the second at the head. *)
Theorem udp_recv_fifo (s : nat) (p1 p2 : packet) (st : kernel)
    (e1 e2 : udp_wait_entry) (rest1 rest2 : list udp_wait_entry)
    (buf len flags : Z) :
  bucket st (udp_hash (ntohs (udp_dst_port p1))) = e1 :: rest1 ->
  sock e1 = Some s ->
  bucket st (udp_hash (ntohs (udp_dst_port p2))) = e2 :: rest2 ->
  sock e2 = Some s ->
  sk_bound (sockets st !!! s) = true ->
  let q1 := set_al (tl p1 + sizeof_udphdr) p1 in
  let q2 := set_al (tl p2 + sizeof_udphdr) p2 in
  let n := Z.to_nat (pkt_end q1 - al q1) in
  0 <= pkt_end q1 - al q1 < 2 ^ 31 ->
  pkt_end q1 - al q1 <= len ->
  is_Some (user_bytes (umem st) buf n) ->
  let st2 := udp_recv p2 (udp_recv p1 st) in
  recvq (sockets st2 !!! s) = recvq (sockets st !!! s) ++ [q1; q2] /\
  (recvq (sockets st !!! s) = [] ->
   exists st3,
     udp_sys_recv s buf len flags st2 = Returned (pkt_end q1 - al q1) st3 /\
     user_bytes (umem st3) buf n = Some (load_bytes (data q1) (al q1) n) /\
     recvq (sockets st3 !!! s) = [q2]).
Proof.
  intros Hb1 Hs1 Hb2 Hs2 Hbd q1 q2 n Hr Hl Hw st2.
  destruct (udp_recv_head_socket_queue p1 st e1 rest1 s Hb1 Hs1)
    as (Q1 & B1 & U1 & _ & T1).
  assert (Hb2' : bucket (udp_recv p1 st) (udp_hash (ntohs (udp_dst_port p2)))
                 = e2 :: rest2).
  { rewrite (bucket_of_table st) by exact T1. exact Hb2. }
  destruct (udp_recv_head_socket_queue p2 (udp_recv p1 st) e2 rest2 s Hb2' Hs2)
    as (Q2 & B2 & U2 & _ & _).
  fold st2 in Q2, B2, U2. fold q1 in Q1. fold q2 in Q2.
  assert (Hq : recvq (sockets st2 !!! s) = recvq (sockets st !!! s) ++ [q1; q2]).
  { rewrite Q2, Q1, <- app_assoc. reflexivity. }
  split; [exact Hq |].
  intros Hempty. rewrite Hempty in Hq. cbn [app] in Hq.
  assert (Hbd2 : sk_bound (sockets st2 !!! s) = true) by (rewrite B2, B1; exact Hbd).
  assert (Hw2 : is_Some (user_bytes (umem st2) buf n)) by (rewrite U2, U1; exact Hw).
  eexists. split.
  { apply (udp_sys_recv_ok_eq s buf len flags st2 q1 [q2] Hbd2 Hq Hr Hl Hw2). }
  fold n.
  cbn [umem packet_free list_remove_head set_freed set_sockets set_umem sockets].
  split.
  { pose proof (user_bytes_user_store (load_bytes (data q1) (al q1) n) (umem st2) buf)
      as HH.
    rewrite load_bytes_length in HH. exact HH. }
  rewrite lookup_total_insert_eq. cbn [recvq]. rewrite Hq. reflexivity.
Qed.

Lemma udp_recv_fifo_witness :
  let st2 := udp_recv pkt_for_5128 (udp_recv pkt_for_5000 bound_5000) in
  map pkt_id (recvq (sockets st2 !!! 1%nat)) = [9%nat; 7%nat] /\
  exists st3,
    udp_sys_recv 1 8192 2 0 st2 = Returned 2 st3 /\
    user_bytes (umem st3) 8192 2 = Some [111; 107] /\
    map pkt_id (recvq (sockets st3 !!! 1%nat)) = [7%nat].
Proof.
  intros st2.
  set (e := {| sock := Some 1%nat; proc := None; rcv := None; port := 5000 |}).
  assert (H1 : bucket bound_5000 (udp_hash (ntohs (udp_dst_port pkt_for_5000))) = e :: [])
    by (vm_compute; reflexivity).
  assert (H2 : bucket bound_5000 (udp_hash (ntohs (udp_dst_port pkt_for_5128))) = e :: [])
    by (vm_compute; reflexivity).
  assert (H3 : sk_bound (sockets bound_5000 !!! 1%nat) = true) by reflexivity.
  set (q1 := set_al (tl pkt_for_5000 + sizeof_udphdr) pkt_for_5000).
  assert (H4 : 0 <= pkt_end q1 - al q1 < 2 ^ 31)
    by (vm_compute; split; [discriminate | reflexivity]).
  assert (H5 : pkt_end q1 - al q1 <= 2) by (vm_compute; discriminate).
  assert (H6 : is_Some (user_bytes (umem bound_5000) 8192 (Z.to_nat (pkt_end q1 - al q1))))
    by (vm_compute; eexists; reflexivity).
  destruct (udp_recv_fifo 1 pkt_for_5000 pkt_for_5128 bound_5000 e e [] [] 8192 2 0
              H1 eq_refl H2 eq_refl H3 H4 H5 H6) as (R1 & R2).
  split.
  { fold st2 in R1. rewrite R1. reflexivity. }
  destruct (R2 eq_refl) as (st3 & S1 & S2 & S3).
  exists st3. split; [exact S1 |]. split; [exact S2 |].
  rewrite S3. reflexivity.
Defined.

End UdpFacts.


(** ** virtio-MMIO block driver *)

Module VirtioFacts.
Import Virtio.
Local Open Scope drv_scope.

(** *** The layout of a virtqueue *)

(** C7, as stated, fails: with the structure header that [virtq_create]
    itself fills in, the descriptor table of a 128-entry queue does not
    start at offset 16, and none of the later offsets is the stated one. *)
Lemma virtq_offsets_128_not_as_stated :
  ~ (off_desc (virtq_offsets 128) = 16 /\
     off_avail (virtq_offsets 128) = 2064 /\
     off_used_event (virtq_offsets 128) = 2324 /\
     off_used (virtq_offsets 128) = 2328 /\
     off_avail_event (virtq_offsets 128) = 3356).
Proof. vm_compute. intros [H _]. discriminate H. Qed.

(** The header is what moves the layout: no header of the 28 bytes the
    seven members need, or more, lets the table start at offset 16. *)
Lemma ALIGN_16_header (s : Z) : 17 <= s < 2 ^ 31 -> 32 <= ALIGN s 16.
Proof.
  intros Hs. unfold ALIGN. rewrite u32_small by lia.
  change (16 - 1) with (Z.ones 4).
  rewrite <- Z.ldiff_land, Z.ldiff_ones_r by lia.
  rewrite Z.shiftl_mul_pow2, Z.shiftr_div_pow2 by lia.
  change (2 ^ 4) with 16. Z.div_mod_to_equations. lia.
Qed.

(** C7, amended.  For a queue of 128 entries [virtq_create] computes the
    offsets 32, 2080, 2340, 2344 and 3372 and the size 3374, which fits
    a page, so the queue is created with its members pointing at those
    offsets of the new page.  For any length whose computed size exceeds
    the page size it allocates nothing and returns NULL. *)
Theorem virtq_create_layout :
  virtq_offsets 128
  = {| off_desc := 32; off_avail := 2080; off_used_event := 2340;
       off_used := 2344; off_avail_event := 3372; memsize := 3374 |} /\
  memsize (virtq_offsets 128) <= PAGE_SIZE /\
  (forall st, exists page_virt st',
      virtq_create 128 st = Some (Some page_virt, st') /\
      virtqs st' !! page_virt
      = Some {| phys := u32 (alloc_pick st (alloc_count st)); len := 128;
                desc := u32 (page_virt + 32); avail := u32 (page_virt + 2080);
                used_event := u32 (page_virt + 2340);
                used := u32 (page_virt + 2344);
                avail_event := u32 (page_virt + 3372) |}) /\
  (forall len st, PAGE_SIZE < memsize (virtq_offsets len) ->
      exists st', virtq_create len st = Some (None, st') /\
                  virtqs st' = virtqs st /\
                  alloc_count st' = alloc_count st).
Proof.
  split; [vm_compute; reflexivity |].
  split; [vm_compute; discriminate |].
  split.
  - intros st. unfold virtq_create.
    change (PAGE_SIZE <? memsize (virtq_offsets 128)) with false.
    cbv [bind printf modify alloc kmem_map_pages kstore16 ret].
    eexists. eexists. split; [reflexivity |].
    cbn [virtqs set_kmem set_virtqs set_phys_of set_alloc_count set_console].
    rewrite lookup_insert_eq. reflexivity.
  - intros len st H. unfold virtq_create.
    destruct (Z.ltb_spec PAGE_SIZE (memsize (virtq_offsets len))); [| lia].
    cbv [bind printf modify ret]. eexists. split; [reflexivity |].
    split; reflexivity.
Qed.

Lemma virtq_create_layout_witness :
  PAGE_SIZE < memsize (virtq_offsets 1024) /\
  exists st', virtq_create 1024 (machine (slot_device 0 0 0)) = Some (None, st') /\
              virtqs st' = virtqs (machine (slot_device 0 0 0)) /\
              alloc_count st' = alloc_count (machine (slot_device 0 0 0)).
Proof.
  assert (H : PAGE_SIZE < memsize (virtq_offsets 1024)) by (vm_compute; reflexivity).
  split; [exact H |].
  exact (proj2 (proj2 (proj2 virtq_create_layout)) 1024 (machine (slot_device 0 0 0)) H).
Defined.

(** Every queue of 128 entries that [virtq_create] makes in a page
    below 4 GiB has its first three descriptor slots below its avail
    ring. *)
Lemma virtq_create_128_slots (st st' : kernel) (page_virt : Z) :
  virtq_create 128 st = Some (Some page_virt, st') ->
  page_virt + PAGE_SIZE <= 2 ^ 32 ->
  exists vq, virtqs st' !! page_virt = Some vq /\
             len vq = 128 /\
             desc vq + 3 * sizeof_virtqueue_desc <= avail vq.
Proof.
  unfold virtq_create.
  change (PAGE_SIZE <? memsize (virtq_offsets 128)) with false.
  cbv [bind printf modify alloc kmem_map_pages kstore16 ret].
  intros H Hp. injection H as Hv Hst. subst st'.
  cbn [virtqs set_kmem set_virtqs set_phys_of set_alloc_count set_console].
  rewrite Hv. rewrite lookup_insert_eq.
  eexists. split; [reflexivity |]. cbn [len desc avail]. split; [reflexivity |].
  pose proof (u32_range (alloc_pick st (S (alloc_count st)))) as Hr.
  rewrite Hv in Hr.
  unfold PAGE_SIZE, sizeof_virtqueue_desc in *.
  change (ALIGN sizeof_virtqueue 16) with 32.
  change (ALIGN (u32 (32 + 128 * 16)) 2) with 2080.
  rewrite !u32_small by lia. lia.
Qed.

(** *** Probing a slot *)

(** The capability walk always terminates normally. *)
Lemma virtio_check_capabilities_total (caps : list virtio_cap) (device request : Z)
    (st : kernel) :
  exists device' request' st',
    virtio_check_capabilities device request caps st = Some ((device', request'), st') /\
    dev st' = dev st /\ mmio st' = mmio st /\ virtqs st' = virtqs st /\
    blkdev st' = blkdev st.
Proof.
  revert device request st. induction caps as [|cap caps IH]; intros device request st.
  - exists device, request, st. cbn. auto.
  - cbn [virtio_check_capabilities]. unfold bind at 1.
    destruct (negb (Z.land device (bit cap) =? 0)); [destruct (support cap) |].
    + cbv [ret]. apply IH.
    + cbv [bind printf modify ret].
      destruct (IH (Z.land device (Z.lnot (bit cap))) request
                   (set_console (console st ++
                      [Msg "virtio supports unsupported option %s (%s)\n"
                           [name cap; help cap] []]) st))
        as (d' & r' & st' & E & H1 & H2 & H3 & H4).
      exists d', r', st'. split; [exact E |]. auto.
    + cbv [ret]. apply IH.
Qed.

(** Feature negotiation always runs to its end. *)
Lemma virtio_blk_negotiate_total (regs : Z) (st : kernel) :
  exists st1, virtio_blk_negotiate regs st = Some (tt, st1) /\
              dev st1 = dev st /\ virtqs st1 = virtqs st /\ blkdev st1 = blkdev st.
Proof.
  unfold virtio_blk_negotiate.
  cbv [bind WRITE32 mb READ32 modify].
  cbn [mmio dev set_mmio].
  match goal with
  | |- context [virtio_check_capabilities ?d ?r blk_caps ?k] =>
      destruct (virtio_check_capabilities_total blk_caps d r k)
        as (d1 & r1 & k1 & E1 & A1 & _ & B1 & C1)
  end.
  rewrite E1.
  destruct (virtio_check_capabilities_total indp_caps d1 r1 k1)
    as (d2 & r2 & k2 & E2 & A2 & _ & B2 & C2).
  rewrite E2.
  destruct (negb (d2 =? 0)); cbv [printf modify ret];
    cbn [mmio dev set_mmio set_console];
    (eexists; split; [reflexivity |]);
    cbn [dev virtqs blkdev set_mmio set_console];
    rewrite ?A2, ?A1, ?B2, ?B1, ?C2, ?C1; auto.
Qed.

(** C8.  Probing the slot at [virt]: a wrong magic value, or a wrong
    version, ends the initialization with -1 after register reads only
    (no register write, so the handshake is not reached) and one console
    line; a zero DeviceID ends it with -1, again without a write, and
    without any console output.  For a block device: feature
    negotiation always runs up to the write of FEATURES_OK, and when the
    status read that follows lacks that bit, [virtio_blk_init] returns
    -1 after that read and one console line; no queue is created and the
    block device handle is untouched. *)
Theorem virtio_dev_init_rejects (virt intid : Z) (st : kernel) :
  let magic := u32 (dev st (mmio st) virt MagicValue) in
  let h1 := mmio st ++ [MmioRead virt MagicValue magic] in
  let version := u32 (dev st h1 virt Version) in
  let h2 := h1 ++ [MmioRead virt Version version] in
  let id := u32 (dev st h2 virt DeviceID) in
  let h3 := h2 ++ [MmioRead virt DeviceID id] in
  (magic <> VIRTIO_MAGIC ->
   exists st', virtio_dev_init virt intid st = Some (Some (-1), st') /\
               mmio_writes (mmio st') = mmio_writes (mmio st) /\
               length (console st') = S (length (console st))) /\
  (magic = VIRTIO_MAGIC -> version <> VIRTIO_VERSION ->
   exists st', virtio_dev_init virt intid st = Some (Some (-1), st') /\
               mmio_writes (mmio st') = mmio_writes (mmio st) /\
               length (console st') = S (length (console st))) /\
  (magic = VIRTIO_MAGIC -> version = VIRTIO_VERSION -> id = 0 ->
   exists st', virtio_dev_init virt intid st = Some (Some (-1), st') /\
               mmio st' = h3 /\
               mmio_writes (mmio st') = mmio_writes (mmio st) /\
               console st' = console st) /\
  (exists st1,
     virtio_blk_negotiate virt st = Some (tt, st1) /\
     (Z.land (u32 (dev st1 (mmio st1) virt Status)) VIRTIO_STATUS_FEATURES_OK = 0 ->
      exists st', virtio_blk_init virt intid st = Some (Some (-1), st') /\
                  mmio st' = mmio st1 ++ [MmioRead virt Status
                                            (u32 (dev st1 (mmio st1) virt Status))] /\
                  console st' = console st1 ++
                    [Msg "error: virtio-blk did not accept our features\n" [] []] /\
                  virtqs st' = virtqs st /\
                  blkdev st' = blkdev st)).
Proof.
  intros magic h1 version h2 id h3.
  assert (Hw : forall h es, mmio_writes es = [] -> mmio_writes (h ++ es) = mmio_writes h).
  { intros h es He. induction h as [|e h IH]; cbn [app mmio_writes].
    - exact He.
    - destruct e; rewrite IH; reflexivity. }
  split; [| split; [| split]].
  - intros Hm. unfold virtio_dev_init, bind at 1. unfold READ32 at 1.
    fold magic. fold h1.
    destruct (Z.eqb_spec magic VIRTIO_MAGIC) as [|_]; [contradiction |].
    cbv [negb bind READ32 printf modify ret].
    eexists. split; [reflexivity |]. cbn [mmio console set_mmio set_console].
    split.
    + subst h1. rewrite <- app_assoc. apply Hw. reflexivity.
    + rewrite length_app. cbn. lia.
  - intros Hm Hv. unfold virtio_dev_init, bind at 1. unfold READ32 at 1.
    fold magic. fold h1. rewrite Hm, Z.eqb_refl.
    cbv [negb]. unfold bind at 1. unfold READ32 at 1.
    cbn [mmio dev set_mmio]. fold version. fold h2.
    destruct (Z.eqb_spec version VIRTIO_VERSION) as [|_]; [contradiction |].
    cbv [negb bind READ32 printf modify ret].
    eexists. split; [reflexivity |]. cbn [mmio console set_mmio set_console].
    split.
    + subst h2 h1. rewrite <- !app_assoc. apply Hw. reflexivity.
    + rewrite length_app. cbn. lia.
  - intros Hm Hv Hi. unfold virtio_dev_init, bind at 1. unfold READ32 at 1.
    fold magic. fold h1. rewrite Hm, Z.eqb_refl.
    cbv [negb]. unfold bind at 1. unfold READ32 at 1.
    cbn [mmio dev set_mmio]. fold version. fold h2. rewrite Hv, Z.eqb_refl.
    cbv [negb]. unfold bind at 1. unfold READ32 at 1.
    cbn [mmio dev set_mmio]. fold id. fold h3. rewrite Hi.
    cbv [Z.eqb ret].
    eexists. split; [reflexivity |]. cbn [mmio console set_mmio].
    split; [reflexivity |]. split; [| reflexivity].
    subst h3 h2 h1. rewrite <- !app_assoc. apply Hw. reflexivity.
  - destruct (virtio_blk_negotiate_total virt st) as (st1 & Hn & _ & Hq & Hb).
    exists st1. split; [exact Hn |]. intros Hs.
    unfold virtio_blk_init, bind at 1. rewrite Hn.
    unfold bind at 1. unfold READ32 at 1.
    rewrite Hs. cbv [Z.eqb bind puts printf modify ret].
    eexists. split; [reflexivity |].
    cbn [mmio console virtqs blkdev set_mmio set_console].
    split; [reflexivity |]. split; [reflexivity |]. split; [exact Hq | exact Hb].
Qed.

Lemma virtio_dev_init_rejects_witness :
  let empty := machine (slot_device 0 0 0) in
  let old := machine (slot_device VIRTIO_MAGIC 1 0) in
  let vacant := machine (slot_device VIRTIO_MAGIC 2 0) in
  let picky := machine (blk_device false) in
  let picky1 := match virtio_blk_negotiate 0x1000 picky with
                | Some (_, k) => k
                | None => picky
                end in
  (u32 (dev empty (mmio empty) 0x1000 MagicValue) <> VIRTIO_MAGIC /\
   exists st', virtio_dev_init 0x1000 48 empty = Some (Some (-1), st') /\
               mmio_writes (mmio st') = mmio_writes (mmio empty) /\
               length (console st') = S (length (console empty))) /\
  (exists st', virtio_dev_init 0x1000 48 old = Some (Some (-1), st') /\
               mmio_writes (mmio st') = mmio_writes (mmio old) /\
               length (console st') = S (length (console old))) /\
  (exists st', virtio_dev_init 0x1000 48 vacant = Some (Some (-1), st') /\
               mmio st' = [MmioRead 0x1000 MagicValue VIRTIO_MAGIC;
                           MmioRead 0x1000 Version 2;
                           MmioRead 0x1000 DeviceID 0] /\
               console st' = console vacant) /\
  (virtio_blk_negotiate 0x1000 picky = Some (tt, picky1) /\
   Z.land (u32 (dev picky1 (mmio picky1) 0x1000 Status)) VIRTIO_STATUS_FEATURES_OK = 0 /\
   exists st', virtio_blk_init 0x1000 48 picky = Some (Some (-1), st') /\
               virtqs st' = virtqs picky /\
               blkdev st' = blkdev picky).
Proof.
  intros empty old vacant picky picky1.
  split; [| split; [| split]].
  - assert (H : u32 (dev empty (mmio empty) 0x1000 MagicValue) <> VIRTIO_MAGIC)
      by (vm_compute; discriminate).
    split; [exact H |].
    exact (proj1 (virtio_dev_init_rejects 0x1000 48 empty) H).
  - assert (H1 : u32 (dev old (mmio old) 0x1000 MagicValue) = VIRTIO_MAGIC)
      by (vm_compute; reflexivity).
    assert (H2 : u32 (dev old (mmio old ++ [MmioRead 0x1000 MagicValue
                                              (u32 (dev old (mmio old) 0x1000 MagicValue))])
                        0x1000 Version) <> VIRTIO_VERSION)
      by (vm_compute; discriminate).
    exact (proj1 (proj2 (virtio_dev_init_rejects 0x1000 48 old)) H1 H2).
  - assert (H1 : u32 (dev vacant (mmio vacant) 0x1000 MagicValue) = VIRTIO_MAGIC)
      by (vm_compute; reflexivity).
    assert (H2 : u32 (dev vacant
                        (mmio vacant ++ [MmioRead 0x1000 MagicValue
                                           (u32 (dev vacant (mmio vacant) 0x1000 MagicValue))])
                        0x1000 Version) = VIRTIO_VERSION)
      by (vm_compute; reflexivity).
    assert (H3 : u32 (dev vacant
                        ((mmio vacant ++ [MmioRead 0x1000 MagicValue
                                            (u32 (dev vacant (mmio vacant) 0x1000 MagicValue))])
                         ++ [MmioRead 0x1000 Version
                               (u32 (dev vacant
                                       (mmio vacant ++ [MmioRead 0x1000 MagicValue
                                          (u32 (dev vacant (mmio vacant) 0x1000 MagicValue))])
                                       0x1000 Version))])
                        0x1000 DeviceID) = 0)
      by (vm_compute; reflexivity).
    destruct (proj1 (proj2 (proj2 (virtio_dev_init_rejects 0x1000 48 vacant))) H1 H2 H3)
      as (st' & R1 & R2 & _ & R4).
    exists st'. split; [exact R1 |]. split; [| exact R4].
    rewrite R2. vm_compute. reflexivity.
  - assert (H1 : virtio_blk_negotiate 0x1000 picky = Some (tt, picky1))
      by (vm_compute; reflexivity).
    assert (H2 : Z.land (u32 (dev picky1 (mmio picky1) 0x1000 Status))
                        VIRTIO_STATUS_FEATURES_OK = 0)
      by (vm_compute; reflexivity).
    split; [exact H1 |]. split; [exact H2 |].
    destruct (proj2 (proj2 (proj2 (virtio_dev_init_rejects 0x1000 48 picky))))
      as (st1 & En & Hfail).
    assert (E1 : st1 = picky1) by congruence. subst st1.
    destruct (Hfail H2) as (st' & R1 & _ & _ & R4 & R5).
    exists st'. split; [exact R1 |]. split; [exact R4 | exact R5].
Defined.

(** *** Submitting a read *)

(** Reading a field of the descriptor table through the stores that
    followed. *)
Ltac mem_step :=
  first
    [ rewrite loadn_storen_same
    | rewrite loadn_storen_other by lia ].

(** C6.  A block read on a device whose queue has its first three
    descriptor slots below the avail ring, with the request header and
    the data buffer addressable in 32 bits, leaves in slots 0, 1, 2 the
    chain header -> data -> footer with flags NEXT, WRITE|NEXT, WRITE,
    advances the avail index by one (modulo 2^16), and ends with the
    write of 0 to QueueNotify, after two barriers. *)
Theorem virtio_blk_read_chain (blk : virtio_blk) (sector data : Z) (st : kernel)
    (q slab : Z) (vq : virtqueue) :
  virtq blk = Some q ->
  virtqs st !! q = Some vq ->
  blkreq_slab st = Some slab ->
  desc vq + 3 * sizeof_virtqueue_desc <= avail vq ->
  let hdr := u32 (alloc_pick st (alloc_count st)) in
  let hdr_phys := u32 (phys_of st hdr) in
  let data_phys := u32 (phys_of st data) in
  hdr_phys + VIRTIO_BLK_REQ_HEADER_SIZE < 2 ^ 32 ->
  data_phys + 16 < 2 ^ 32 ->
  exists st',
    virtio_blk_read blk sector data st = Some (None, st') /\
    desc_at (kmem st') (desc vq) 0
    = {| d_addr := hdr_phys; d_len := VIRTIO_BLK_REQ_HEADER_SIZE;
         d_flags := VIRTQ_DESC_F_NEXT; d_next := 1 |} /\
    desc_at (kmem st') (desc vq) 1
    = {| d_addr := data_phys + 16; d_len := VIRTIO_BLK_SECTOR_SIZE;
         d_flags := Z.lor VIRTQ_DESC_F_WRITE VIRTQ_DESC_F_NEXT; d_next := 2 |} /\
    desc_at (kmem st') (desc vq) 2
    = {| d_addr := hdr_phys + VIRTIO_BLK_REQ_HEADER_SIZE;
         d_len := VIRTIO_BLK_REQ_FOOTER_SIZE;
         d_flags := VIRTQ_DESC_F_WRITE; d_next := 0 |} /\
    avail_idx (kmem st') vq = u16 (avail_idx (kmem st) vq + 1) /\
    mmio st' = mmio st ++ [Barrier; Barrier; MmioWrite (regs blk) QueueNotify 0].
Proof.
  intros Hq Hvq Hslab Hlay hdr hdr_phys data_phys Hh Hd.
  unfold virtio_blk_read, slab_alloc_blkreq.
  unfold bind at 1. unfold bind at 1. unfold gets at 1. rewrite Hslab.
  unfold alloc. fold hdr.
  cbv [bind kmem_lookup_phys gets modify deref_virtq kstore64 kstore32 kstore16
       kload16 mb WRITE32 ret].
  cbn [phys_of virtqs set_alloc_count set_reqs set_kmem set_mmio kmem mmio].
  fold hdr_phys. fold data_phys.
  rewrite Hq, Hvq.
  eexists. split; [reflexivity |].
  cbn [kmem mmio set_kmem set_mmio set_reqs set_alloc_count].
  unfold desc_at, avail_idx, sizeof_virtqueue_desc in *.
  unfold load16, load32, load64, store16, store32, store64.
  match goal with
  | |- context [storen 2 ?m (avail vq + 4 + 2 * _) 0] => set (m12 := m) in *
  end.
  pose proof (loadn_range 2 m12 (avail vq + 2)) as Hi.
  assert (Hhp : 0 <= hdr_phys < 2 ^ 32) by apply u32_range.
  assert (Hdp : 0 <= data_phys < 2 ^ 32) by apply u32_range.
  assert (Hidx : loadn 2 m12 (avail vq + 2) = loadn 2 (kmem st) (avail vq + 2)).
  { subst m12. repeat mem_step. reflexivity. }
  assert (H64 : forall x, 0 <= x < 2 ^ 32 -> x mod 2 ^ (8 * Z.of_nat 8) = x).
  { intros x Hx. apply Z.mod_small. change (2 ^ (8 * Z.of_nat 8)) with (2 ^ 64). lia. }
  unfold VIRTIO_BLK_REQ_HEADER_SIZE in *.
  split; [| split; [| split; [| split]]].
  - f_equal.
    + do 2 mem_step. subst m12. repeat mem_step. apply H64. exact Hhp.
    + do 2 mem_step. subst m12. repeat mem_step. reflexivity.
    + do 2 mem_step. subst m12. repeat mem_step. reflexivity.
    + do 2 mem_step. subst m12. repeat mem_step. reflexivity.
  - f_equal.
    + do 2 mem_step. subst m12. repeat mem_step.
      rewrite u32_small by lia. apply H64. lia.
    + do 2 mem_step. subst m12. repeat mem_step. reflexivity.
    + do 2 mem_step. subst m12. repeat mem_step. reflexivity.
    + do 2 mem_step. subst m12. repeat mem_step. reflexivity.
  - f_equal.
    + do 2 mem_step. subst m12. repeat mem_step.
      rewrite u32_small by lia. apply H64. lia.
    + do 2 mem_step. subst m12. repeat mem_step. reflexivity.
    + do 2 mem_step. subst m12. repeat mem_step. reflexivity.
    + do 2 mem_step. subst m12. repeat mem_step. reflexivity.
  - mem_step. mem_step. rewrite Hidx. reflexivity.
  - rewrite <- !app_assoc. reflexivity.
Qed.

Lemma virtio_blk_read_chain_witness :
  let st := blk_ready in
  let blk := blkdev st in
  let vq := {| phys := 0x40000000; len := 128; desc := 0x40001020;
               avail := 0x40001820; used_event := 0x40001924;
               used := 0x40001928; avail_event := 0x40001d2c |} in
  let hdr := u32 (alloc_pick st (alloc_count st)) in
  let hdr_phys := u32 (phys_of st hdr) in
  let data_phys := u32 (phys_of st (buffer st)) in
  virtqs st !! 0x40001000 = Some vq /\
  desc vq + 3 * sizeof_virtqueue_desc <= avail vq /\
  hdr_phys = 0x40003000 /\
  data_phys = 0x3000 /\
  exists st',
    virtio_blk_read blk 42 (buffer st) st = Some (None, st') /\
    desc_at (kmem st') (desc vq) 0
    = {| d_addr := hdr_phys; d_len := VIRTIO_BLK_REQ_HEADER_SIZE;
         d_flags := VIRTQ_DESC_F_NEXT; d_next := 1 |} /\
    desc_at (kmem st') (desc vq) 1
    = {| d_addr := data_phys + 16; d_len := VIRTIO_BLK_SECTOR_SIZE;
         d_flags := Z.lor VIRTQ_DESC_F_WRITE VIRTQ_DESC_F_NEXT; d_next := 2 |} /\
    desc_at (kmem st') (desc vq) 2
    = {| d_addr := hdr_phys + VIRTIO_BLK_REQ_HEADER_SIZE;
         d_len := VIRTIO_BLK_REQ_FOOTER_SIZE;
         d_flags := VIRTQ_DESC_F_WRITE; d_next := 0 |} /\
    avail_idx (kmem st') vq = u16 (avail_idx (kmem st) vq + 1) /\
    mmio st' = mmio st ++ [Barrier; Barrier; MmioWrite (regs blk) QueueNotify 0].
Proof.
  intros st blk vq hdr hdr_phys data_phys.
  assert (H1 : virtq blk = Some 0x40001000) by (vm_compute; reflexivity).
  assert (H2 : virtqs st !! 0x40001000 = Some vq) by (vm_compute; reflexivity).
  assert (H3 : blkreq_slab st = Some 0x40002000) by (vm_compute; reflexivity).
  assert (H4 : desc vq + 3 * sizeof_virtqueue_desc <= avail vq)
    by (vm_compute; discriminate).
  assert (H5 : hdr_phys = 0x40003000) by (vm_compute; reflexivity).
  assert (H6 : data_phys = 0x3000) by (vm_compute; reflexivity).
  split; [exact H2 |]. split; [exact H4 |]. split; [exact H5 |]. split; [exact H6 |].
  apply (virtio_blk_read_chain blk 42 (buffer st) st 0x40001000 0x40002000 vq
           H1 H2 H3 H4).
  - fold hdr. fold hdr_phys. rewrite H5. vm_compute. reflexivity.
  - fold data_phys. rewrite H6. vm_compute. reflexivity.
Defined.


(** *** The layout, for every length *)

(** Rounding up to a power of two, when nothing wraps. *)
Lemma ALIGN_pow2 (k x : Z) :
  0 <= k -> 0 <= x -> x + 2 ^ k - 1 < 2 ^ 32 ->
  ALIGN x (2 ^ k) = (x + 2 ^ k - 1) / 2 ^ k * 2 ^ k.
Proof.
  intros Hk Hx Hb. unfold ALIGN.
  assert (Hp : 0 < 2 ^ k) by (apply Z.pow_pos_nonneg; lia).
  rewrite u32_small by lia.
  replace (2 ^ k - 1) with (Z.ones k) by (rewrite Z.ones_equiv; lia).
  rewrite <- Z.ldiff_land, Z.ldiff_ones_r by lia.
  rewrite Z.shiftl_mul_pow2, Z.shiftr_div_pow2 by lia. reflexivity.
Qed.

Lemma ALIGN_2 (x : Z) : 0 <= x < 2 ^ 32 - 1 -> ALIGN x 2 = (x + 1) / 2 * 2.
Proof.
  intros H. pose proof (ALIGN_pow2 1 x ltac:(lia) ltac:(lia) ltac:(lia)) as E.
  change (2 ^ 1) with 2 in E. rewrite E. f_equal. f_equal. lia.
Qed.

Lemma ALIGN_4 (x : Z) : 0 <= x < 2 ^ 32 - 3 -> ALIGN x 4 = (x + 3) / 4 * 4.
Proof.
  intros H. pose proof (ALIGN_pow2 2 x ltac:(lia) ltac:(lia) ltac:(lia)) as E.
  change (2 ^ 2) with 4 in E. rewrite E. f_equal. f_equal. lia.
Qed.

(** The offsets in closed form, as long as the arithmetic does not
    wrap. *)
Lemma virtq_offsets_closed (len : Z) :
  0 <= len < 2 ^ 26 ->
  virtq_offsets len
  = {| off_desc := 32;
       off_avail := 32 + 16 * len;
       off_used_event := 36 + 18 * len;
       off_used := (41 + 18 * len) / 4 * 4;
       off_avail_event := (41 + 18 * len) / 4 * 4 + 4 + 8 * len;
       memsize := (41 + 18 * len) / 4 * 4 + 6 + 8 * len |}.
Proof.
  intros Hl. unfold virtq_offsets.
  change (ALIGN sizeof_virtqueue 16) with 32.
  unfold sizeof_virtqueue_desc, sizeof_virtqueue_avail, sizeof_uint16_t,
    sizeof_virtqueue_used, sizeof_virtqueue_used_elem.
  rewrite (u32_small (32 + len * 16)) by lia.
  rewrite (ALIGN_2 (32 + len * 16)) by lia.
  replace ((32 + len * 16 + 1) / 2 * 2) with (32 + 16 * len)
    by (Z.div_mod_to_equations; lia).
  rewrite (u32_small (32 + 16 * len + 4 + len * 2)) by lia.
  rewrite (u32_small (32 + 16 * len + 4 + len * 2 + 2)) by lia.
  rewrite (ALIGN_4 (32 + 16 * len + 4 + len * 2 + 2)) by lia.
  replace ((32 + 16 * len + 4 + len * 2 + 2 + 3) / 4 * 4)
    with ((41 + 18 * len) / 4 * 4) by (f_equal; f_equal; lia).
  assert (Hu : 0 <= (41 + 18 * len) / 4 * 4 <= 41 + 18 * len)
    by (Z.div_mod_to_equations; lia).
  rewrite (u32_small ((41 + 18 * len) / 4 * 4 + 4 + len * 8)) by lia.
  rewrite (u32_small ((41 + 18 * len) / 4 * 4 + 4 + len * 8 + 2)) by lia.
  f_equal; lia.
Qed.

Lemma virtq_memsize_fits (len : Z) :
  0 <= len < 2 ^ 26 ->
  (memsize (virtq_offsets len) <= PAGE_SIZE <-> len <= 155).
Proof.
  intros Hl. rewrite virtq_offsets_closed by exact Hl. cbn [memsize].
  unfold PAGE_SIZE. Z.div_mod_to_equations. lia.
Qed.

(** X19.  For every queue length below 2^26 the five regions of a
    virtqueue page lie in the order header, descriptor table, avail
    ring, used_event, used ring, avail_event, without overlap: the
    table starts at 32, behind the 28-byte header, on a multiple of 16;
    the avail ring follows the [len] descriptors directly; used_event
    follows the avail ring's [len] slots; the used ring starts on the
    next multiple of 4; avail_event follows its [len] elements; and the
    size is the end of avail_event.  The size fits a page exactly when
    [len] is at most 155. *)
Theorem virtq_offsets_well_formed (len : Z) :
  0 <= len < 2 ^ 26 ->
  let l := virtq_offsets len in
  sizeof_virtqueue <= off_desc l /\
  off_desc l mod 16 = 0 /\
  off_avail l = off_desc l + len * sizeof_virtqueue_desc /\
  off_avail l mod 2 = 0 /\
  off_used_event l = off_avail l + sizeof_virtqueue_avail + len * sizeof_uint16_t /\
  off_used_event l + sizeof_uint16_t <= off_used l < off_used_event l + sizeof_uint16_t + 4 /\
  off_used l mod 4 = 0 /\
  off_avail_event l
  = off_used l + sizeof_virtqueue_used + len * sizeof_virtqueue_used_elem /\
  memsize l = off_avail_event l + sizeof_uint16_t /\
  (memsize l <= PAGE_SIZE <-> len <= 155).
Proof.
  intros Hl l. subst l. rewrite virtq_offsets_closed by exact Hl.
  cbn [off_desc off_avail off_used_event off_used off_avail_event memsize].
  unfold sizeof_virtqueue, sizeof_virtqueue_desc, sizeof_virtqueue_avail,
    sizeof_uint16_t, sizeof_virtqueue_used, sizeof_virtqueue_used_elem, PAGE_SIZE.
  split; [lia |]. split; [reflexivity |]. split; [lia |].
  split; [Z.div_mod_to_equations; lia |]. split; [lia |].
  split; [Z.div_mod_to_equations; lia |].
  split; [apply Z.mod_mul; lia |]. split; [lia |]. split; [lia |].
  Z.div_mod_to_equations. lia.
Qed.

Lemma virtq_offsets_well_formed_witness :
  0 <= 155 < 2 ^ 26 /\
  memsize (virtq_offsets 155) = 4074 /\
  (memsize (virtq_offsets 155) <= PAGE_SIZE <-> 155 <= 155).
Proof.
  assert (H : 0 <= 155 < 2 ^ 26) by lia.
  split; [exact H |]. split; [vm_compute; reflexivity |].
  exact (proj2 (proj2 (proj2 (proj2 (proj2 (proj2 (proj2 (proj2 (proj2
           (virtq_offsets_well_formed 155 H)))))))))).
Defined.

(** X20.  [virtq_create] of a length that fits a page, with the page
    below 4 GiB, takes two addresses from the allocators (the physical
    page, then the virtual one), returns the virtual one, and leaves
    there a queue of that length whose rings point into the page at the
    offsets of the layout.  The new queue is empty: both the avail and
    the used index read zero, and no other byte of kernel memory
    changed.  The page is mapped: every address in it translates to the
    same offset of the physical page, and no translation outside it
    changed.  Nothing happens on the bus. *)
Theorem virtq_create_new_queue (len : Z) (st : kernel) :
  0 <= len <= 155 ->
  let page_phys := u32 (alloc_pick st (alloc_count st)) in
  let page_virt := u32 (alloc_pick st (S (alloc_count st))) in
  page_virt + PAGE_SIZE <= 2 ^ 32 ->
  exists st' vq,
    virtq_create len st = Some (Some page_virt, st') /\
    virtqs st' !! page_virt = Some vq /\
    phys vq = page_phys /\
    Virtio.len vq = len /\
    desc vq = page_virt + off_desc (virtq_offsets len) /\
    avail vq = page_virt + off_avail (virtq_offsets len) /\
    used_event vq = page_virt + off_used_event (virtq_offsets len) /\
    used vq = page_virt + off_used (virtq_offsets len) /\
    avail_event vq = page_virt + off_avail_event (virtq_offsets len) /\
    avail_idx (kmem st') vq = 0 /\
    load16 (kmem st') (used vq + 2) = 0 /\
    (forall x, ~ (avail vq + 2 <= x < avail vq + 4) ->
               ~ (used vq + 2 <= x < used vq + 4) -> kmem st' x = kmem st x) /\
    (forall off, 0 <= off < PAGE_SIZE -> phys_of st' (page_virt + off) = page_phys + off) /\
    (forall a, a < page_virt \/ page_virt + PAGE_SIZE <= a -> phys_of st' a = phys_of st a) /\
    alloc_count st' = S (S (alloc_count st)) /\
    mmio st' = mmio st.
Proof.
  intros Hl page_phys page_virt Hpage.
  assert (Hl26 : 0 <= len < 2 ^ 26) by lia.
  pose proof (virtq_memsize_fits len Hl26) as Hfit.
  pose proof (virtq_offsets_closed len Hl26) as Hcl.
  pose proof (u32_range (alloc_pick st (S (alloc_count st)))) as Hpv.
  fold page_virt in Hpv.
  unfold virtq_create.
  destruct (Z.ltb_spec PAGE_SIZE (memsize (virtq_offsets len))) as [Hbig | _].
  { exfalso. assert (memsize (virtq_offsets len) <= PAGE_SIZE) by (apply Hfit; lia). lia. }
  cbv [bind printf modify alloc kmem_map_pages kstore16 ret].
  cbn [alloc_pick alloc_count set_alloc_count set_console set_phys_of set_virtqs
       set_kmem kmem virtqs phys_of mmio].
  fold page_phys. fold page_virt.
  assert (Hu : 38 + 18 * len <= (41 + 18 * len) / 4 * 4 <= 41 + 18 * len)
    by (Z.div_mod_to_equations; lia).
  rewrite Hcl. cbn [off_desc off_avail off_used_event off_used off_avail_event].
  unfold PAGE_SIZE in *.
  rewrite !u32_small by lia.
  eexists. eexists. split; [reflexivity |].
  cbn [virtqs set_kmem set_virtqs set_phys_of set_alloc_count set_console kmem phys_of
       alloc_count mmio].
  rewrite lookup_insert_eq.
  split; [reflexivity |].
  cbn [phys Virtio.len desc avail used_event used avail_event].
  split; [reflexivity |]. split; [reflexivity |]. split; [reflexivity |].
  split; [reflexivity |]. split; [reflexivity |]. split; [reflexivity |].
  split; [reflexivity |].
  unfold avail_idx. cbn [avail].
  split.
  { rewrite load16_store16_other by lia. apply load16_store16_same. }
  split; [apply load16_store16_same |].
  split.
  { intros x Ha Hu'. unfold store16.
    rewrite !storen_outside by (cbn [Z.of_nat Pos.of_succ_nat Pos.succ]; lia).
    reflexivity. }
  split.
  { intros off Hoff.
    destruct (Z.ltb_spec (page_virt + off) page_virt); [lia |].
    destruct (Z.ltb_spec (page_virt + off) (page_virt + 4096)); [| lia].
    cbn [negb andb]. lia. }
  split.
  { intros a Ha.
    destruct (Z.ltb_spec a page_virt); cbn [negb andb]; [reflexivity |].
    destruct (Z.ltb_spec a (page_virt + 4096)); [lia | reflexivity]. }
  split; reflexivity.
Qed.

Lemma virtq_create_new_queue_witness :
  let st := machine (slot_device 0 0 0) in
  exists st' vq,
    virtq_create 155 st = Some (Some 0x40001000, st') /\
    virtqs st' !! 0x40001000 = Some vq /\
    phys vq = 0x40000000 /\
    avail_idx (kmem st') vq = 0 /\
    phys_of st' (0x40001000 + 4095) = 0x40000000 + 4095.
Proof.
  intros st.
  assert (H1 : 0 <= 155 <= 155) by lia.
  assert (H2 : u32 (alloc_pick st (S (alloc_count st))) + PAGE_SIZE <= 2 ^ 32)
    by (vm_compute; discriminate).
  destruct (virtq_create_new_queue 155 st H1 H2)
    as (st' & vq & R1 & R2 & R3 & _ & _ & _ & _ & _ & _ & R4 & _ & _ & R5 & _).
  exists st', vq. split; [exact R1 |]. split; [exact R2 |]. split; [exact R3 |].
  split; [exact R4 |].
  apply (R5 4095). vm_compute. split; [discriminate | reflexivity].
Defined.

(** *** Feature negotiation *)

Lemma lor_u32_range (a b : Z) :
  0 <= a < 2 ^ 32 -> 0 <= b < 2 ^ 32 -> 0 <= Z.lor a b < 2 ^ 32.
Proof.
  intros Ha Hb.
  assert (Hlog : forall x, 0 <= x < 2 ^ 32 -> forall n, 32 <= n -> Z.testbit x n = false).
  { intros x Hx n Hn. destruct (Z.eq_dec x 0) as [-> | Hnz]; [apply Z.bits_0 |].
    apply Z.bits_above_log2; [lia |].
    assert (Z.log2 x < 32) by (apply Z.log2_lt_pow2; lia). lia. }
  split; [apply Z.lor_nonneg; lia |].
  destruct (Z_lt_ge_dec (Z.lor a b) (2 ^ 32)) as [|Hge]; [assumption |].
  exfalso.
  assert (Hpos : 0 < Z.lor a b) by lia.
  pose proof (Z.bit_log2 _ Hpos) as Hbit.
  assert (Hl : 32 <= Z.log2 (Z.lor a b)) by (apply Z.log2_le_pow2; lia).
  rewrite Z.lor_spec, (Hlog a Ha _ Hl), (Hlog b Hb _ Hl) in Hbit. discriminate.
Qed.

Lemma set_console_id (st : kernel) : st = set_console (console st) st.
Proof. destruct st; reflexivity. Qed.

Lemma land_lnot_lor (a b c : Z) :
  Z.land (Z.land a (Z.lnot b)) (Z.lnot c) = Z.land a (Z.lnot (Z.lor b c)).
Proof.
  apply Z.bits_inj'. intros n Hn.
  rewrite !Z.land_spec, !Z.lnot_spec, Z.lor_spec by exact Hn.
  destruct (Z.testbit a n), (Z.testbit b n), (Z.testbit c n); reflexivity.
Qed.

(** The walk over a capability table changes the console only, and
    leaves of [*device] what lies outside the table's bits.  A table
    without a supported capability leaves [*request] as it was. *)
Lemma virtio_check_capabilities_run (caps : list virtio_cap) (device request : Z)
    (st : kernel) :
  exists request' c,
    virtio_check_capabilities device request caps st
    = Some ((Z.land device (Z.lnot (caps_mask caps)), request'), set_console c st) /\
    (Forall (fun cap => support cap = false) caps -> request' = request).
Proof.
  revert device request st. induction caps as [|cap caps IH]; intros device request st.
  - exists request, (console st). cbn [virtio_check_capabilities caps_mask fold_right ret].
    split; [| reflexivity].
    rewrite <- set_console_id.
    replace (Z.land device (Z.lnot 0)) with device; [reflexivity |].
    change (Z.lnot 0) with (-1). symmetry. apply Z.land_m1_r.
  - cbn [virtio_check_capabilities caps_mask fold_right]. unfold bind at 1.
    fold (caps_mask caps). rewrite <- land_lnot_lor.
    destruct (negb (Z.land device (bit cap) =? 0)); [destruct (support cap) eqn:Es |].
    + cbv [ret].
      destruct (IH (Z.land device (Z.lnot (bit cap))) (Z.lor request (bit cap)) st)
        as (r' & c & E & _).
      exists r', c. split; [exact E |].
      intros HF. inversion HF as [|? ? Hs _]. congruence.
    + cbv [bind printf modify ret].
      match goal with
      | |- context [virtio_check_capabilities ?d ?r caps ?k] =>
          destruct (IH d r k) as (r' & c & E & Hr)
      end.
      exists r', c. split; [exact E |].
      intros HF. inversion HF. auto.
    + cbv [ret].
      destruct (IH (Z.land device (Z.lnot (bit cap))) request st) as (r' & c & E & Hr).
      exists r', c. split; [exact E |].
      intros HF. inversion HF. auto.
Qed.

Lemma land_cleared_nonzero (device b x : Z) :
  Z.land (Z.land device (Z.lnot b)) x <> 0 -> Z.land device x <> 0.
Proof.
  intros H E. apply H.
  rewrite <- Z.land_assoc, (Z.land_comm (Z.lnot b) x), Z.land_assoc, E.
  apply Z.land_0_l.
Qed.

(** X21.  The contract of the capability walk, for any table: it
    always runs to the end; of the device's feature word it leaves
    exactly the bits that no capability of the table names; the request
    word keeps every bit it had and gains only bits of supported
    capabilities of the table that the device offers.  Registers, memory
    and queues are untouched: only console lines are added. *)
Theorem virtio_check_capabilities_contract (caps : list virtio_cap)
    (device request : Z) (st : kernel) :
  exists device' request' st',
    virtio_check_capabilities device request caps st = Some ((device', request'), st') /\
    device' = Z.land device (Z.lnot (caps_mask caps)) /\
    (forall i, Z.testbit request i = true -> Z.testbit request' i = true) /\
    (forall i, Z.testbit request' i = true ->
               Z.testbit request i = true \/
               exists cap, In cap caps /\ support cap = true /\
                           Z.land device (bit cap) <> 0 /\
                           Z.testbit (bit cap) i = true) /\
    mmio st' = mmio st /\ kmem st' = kmem st /\ virtqs st' = virtqs st /\
    blkdev st' = blkdev st /\
    exists lines, console st' = console st ++ lines.
Proof.
  revert device request st. induction caps as [|cap caps IH]; intros device request st.
  - exists device, request, st.
    cbn [virtio_check_capabilities caps_mask fold_right ret].
    split; [reflexivity |].
    split; [change (Z.lnot 0) with (-1); symmetry; apply Z.land_m1_r |].
    split; [auto |]. split; [auto |].
    split; [reflexivity |]. split; [reflexivity |]. split; [reflexivity |].
    split; [reflexivity |]. exists []. symmetry. apply app_nil_r.
  - cbn [virtio_check_capabilities caps_mask fold_right]. unfold bind at 1.
    fold (caps_mask caps). rewrite <- land_lnot_lor.
    assert (Hlift : forall r r' : Z,
               (forall i, Z.testbit r' i = true ->
                          Z.testbit r i = true \/
                          exists c, In c caps /\ support c = true /\
                                    Z.land (Z.land device (Z.lnot (bit cap))) (bit c) <> 0 /\
                                    Z.testbit (bit c) i = true) ->
               forall i, Z.testbit r' i = true ->
                         Z.testbit r i = true \/
                         exists c, In c (cap :: caps) /\ support c = true /\
                                   Z.land device (bit c) <> 0 /\
                                   Z.testbit (bit c) i = true).
    { intros r r' Hdown i Hi.
      destruct (Hdown i Hi) as [H | (c & Hin & Hs & Hoff & Hb)]; [left; exact H |].
      right. exists c. split; [right; exact Hin |]. split; [exact Hs |].
      split; [exact (land_cleared_nonzero _ _ _ Hoff) | exact Hb]. }
    destruct (Z.eqb_spec (Z.land device (bit cap)) 0) as [Ez | Ez]; cbn [negb];
      [| destruct (support cap) eqn:Es].
    + cbv [ret].
      destruct (IH (Z.land device (Z.lnot (bit cap))) request st)
        as (d' & r' & st' & E & Hd & Hup & Hdown & Hrest).
      exists d', r', st'. split; [exact E |]. split; [exact Hd |].
      split; [exact Hup |]. split; [| exact Hrest].
      exact (Hlift request r' Hdown).
    + cbv [ret].
      destruct (IH (Z.land device (Z.lnot (bit cap))) (Z.lor request (bit cap)) st)
        as (d' & r' & st' & E & Hd & Hup & Hdown & Hrest).
      exists d', r', st'. split; [exact E |]. split; [exact Hd |].
      split.
      { intros i Hi. apply Hup. rewrite Z.lor_spec, Hi. reflexivity. }
      split; [| exact Hrest].
      intros i Hi.
      destruct (Hlift (Z.lor request (bit cap)) r' Hdown i Hi) as [H | H];
        [| right; exact H].
      rewrite Z.lor_spec in H. apply orb_prop in H. destruct H as [H | H];
        [left; exact H |].
      right. exists cap. split; [left; reflexivity |]. auto.
    + cbv [bind printf modify ret].
      match goal with
      | |- context [virtio_check_capabilities ?d ?r caps ?k] =>
          destruct (IH d r k) as (d' & r' & st' & E & Hd & Hup & Hdown & Hrest)
      end.
      exists d', r', st'. split; [exact E |]. split; [exact Hd |].
      split; [exact Hup |].
      split; [exact (Hlift request r' Hdown) |].
      destruct Hrest as (H1 & H2 & H3 & H4 & lines & H5).
      cbn [mmio kmem virtqs blkdev console set_console] in *.
      split; [exact H1 |]. split; [exact H2 |]. split; [exact H3 |].
      split; [exact H4 |].
      eexists. rewrite H5, <- app_assoc. reflexivity.
Qed.

Lemma blk_caps_unsupported : Forall (fun cap => support cap = false) blk_caps.
Proof. repeat constructor. Qed.

Lemma indp_caps_unsupported : Forall (fun cap => support cap = false) indp_caps.
Proof. repeat constructor. Qed.

(** What feature negotiation does on the bus; everything else it
    changes is the console. *)
Lemma virtio_blk_negotiate_run (regs : Z) (st : kernel) :
  let f := u32 (dev st (mmio st ++ [MmioWrite regs DeviceFeaturesSel 0;
                                    MmioWrite regs DriverFeaturesSel 0; Barrier])
                  regs DeviceFeatures) in
  let s := u32 (dev st (mmio st ++ [MmioWrite regs DeviceFeaturesSel 0;
                                    MmioWrite regs DriverFeaturesSel 0; Barrier;
                                    MmioRead regs DeviceFeatures f;
                                    MmioWrite regs DriverFeatures 0])
                  regs Status) in
  exists c,
    virtio_blk_negotiate regs st
    = Some (tt, set_console c
                  (set_mmio
                     (mmio st ++ [MmioWrite regs DeviceFeaturesSel 0;
                                  MmioWrite regs DriverFeaturesSel 0; Barrier;
                                  MmioRead regs DeviceFeatures f;
                                  MmioWrite regs DriverFeatures 0;
                                  MmioRead regs Status s;
                                  MmioWrite regs Status
                                    (u32 (Z.lor s VIRTIO_STATUS_FEATURES_OK));
                                  Barrier]) st)).
Proof.
  intros f s.
  unfold virtio_blk_negotiate.
  unfold bind at 1. unfold WRITE32 at 1. unfold modify at 1.
  unfold bind at 1. unfold WRITE32 at 1. unfold modify at 1.
  unfold bind at 1. unfold mb at 1. unfold modify at 1.
  unfold bind at 1. unfold READ32 at 1.
  cbn [mmio dev set_mmio]. change (u32 0) with 0.
  rewrite <- !app_assoc. cbn [app]. fold f.
  unfold bind at 1.
  match goal with
  | |- context [virtio_check_capabilities f 0 blk_caps ?k] =>
      destruct (virtio_check_capabilities_run blk_caps f 0 k) as (r1 & c1 & E1 & Hr1);
      rewrite E1
  end.
  rewrite (Hr1 blk_caps_unsupported).
  unfold bind at 1.
  match goal with
  | |- context [virtio_check_capabilities ?d 0 indp_caps ?k] =>
      destruct (virtio_check_capabilities_run indp_caps d 0 k) as (r2 & c2 & E2 & Hr2);
      rewrite E2
  end.
  rewrite (Hr2 indp_caps_unsupported).
  match goal with
  | |- context [negb (?d =? 0)] => destruct (negb (d =? 0))
  end.
  - cbv [bind printf modify WRITE32 READ32 mb].
    cbn [mmio dev console set_mmio set_console]. change (u32 0) with 0.
    rewrite <- !app_assoc. cbn [app]. fold s.
    match goal with
    | |- exists c, Some (tt, ?k) = _ => exists (console k)
    end.
    reflexivity.
  - cbv [bind ret modify WRITE32 READ32 mb].
    cbn [mmio dev console set_mmio set_console]. change (u32 0) with 0.
    rewrite <- !app_assoc. cbn [app]. fold s.
    match goal with
    | |- exists c, Some (tt, ?k) = _ => exists (console k)
    end.
    reflexivity.
Qed.

(** X22.  The driver negotiates no feature.  Whatever feature word the
    device presents, negotiation selects feature word 0 on both sides,
    reads the device's features once, writes 0 to DriverFeatures, and
    writes back the status it reads with FEATURES_OK or-ed in, with a
    barrier after the selection and another after the status write.
    Beyond the bus it only prints: memory, queues, the block device
    handle and the allocators are as before. *)
Theorem virtio_blk_negotiate_bus (regs : Z) (st : kernel) :
  let f := u32 (dev st (mmio st ++ [MmioWrite regs DeviceFeaturesSel 0;
                                    MmioWrite regs DriverFeaturesSel 0; Barrier])
                  regs DeviceFeatures) in
  let s := u32 (dev st (mmio st ++ [MmioWrite regs DeviceFeaturesSel 0;
                                    MmioWrite regs DriverFeaturesSel 0; Barrier;
                                    MmioRead regs DeviceFeatures f;
                                    MmioWrite regs DriverFeatures 0])
                  regs Status) in
  exists st1,
    virtio_blk_negotiate regs st = Some (tt, st1) /\
    mmio st1 = mmio st ++ [MmioWrite regs DeviceFeaturesSel 0;
                           MmioWrite regs DriverFeaturesSel 0; Barrier;
                           MmioRead regs DeviceFeatures f;
                           MmioWrite regs DriverFeatures 0;
                           MmioRead regs Status s;
                           MmioWrite regs Status (Z.lor s VIRTIO_STATUS_FEATURES_OK);
                           Barrier] /\
    kmem st1 = kmem st /\ virtqs st1 = virtqs st /\ reqs st1 = reqs st /\
    blkdev st1 = blkdev st /\ blkreq_slab st1 = blkreq_slab st /\
    alloc_count st1 = alloc_count st /\ irqs st1 = irqs st.
Proof.
  intros f s.
  destruct (virtio_blk_negotiate_run regs st) as (c & E). fold f s in E.
  eexists. split; [exact E |].
  cbn [mmio kmem virtqs reqs blkdev blkreq_slab alloc_count irqs set_console set_mmio].
  split.
  { rewrite (u32_small (Z.lor s VIRTIO_STATUS_FEATURES_OK)); [reflexivity |].
    apply lor_u32_range; [apply u32_range | unfold VIRTIO_STATUS_FEATURES_OK; lia]. }
  repeat split; reflexivity.
Qed.



Lemma mmio_writes_app (h1 h2 : list mmio_event) :
  mmio_writes (h1 ++ h2) = mmio_writes h1 ++ mmio_writes h2.
Proof.
  induction h1 as [|e h1 IH]; [reflexivity |].
  destruct e; cbn [app mmio_writes]; rewrite IH; reflexivity.
Qed.




(** *** The handshake *)

(** One register read, one register write followed by a barrier. *)
Ltac step_read :=
  unfold bind at 1; unfold READ32 at 1; cbn [mmio dev set_mmio].

Ltac step_write_mb :=
  unfold bind at 1; unfold WRITE32 at 1; unfold modify at 1;
  unfold bind at 1; unfold mb at 1; unfold modify at 1;
  cbn [mmio dev set_mmio].

(** X24.  A slot that identifies as a virtio device of a non-zero type
    goes through the handshake in order: the driver writes 0 to Status
    (reset), then the status it reads with ACKNOWLEDGE or-ed in, then
    the status it reads with DRIVER or-ed in, a barrier after each
    write, and reads DeviceID again.  If that is the block type,
    initialization continues as [virtio_blk_init] from exactly this bus
    history.  For any other type the driver reads DeviceID once more,
    prints it as unsupported, and ends without a [return]; it has
    touched nothing but the bus and the console. *)
Theorem virtio_dev_init_handshake (virt intid : Z) (st : kernel) :
  let magic := u32 (dev st (mmio st) virt MagicValue) in
  let h1 := mmio st ++ [MmioRead virt MagicValue magic] in
  let version := u32 (dev st h1 virt Version) in
  let h2 := h1 ++ [MmioRead virt Version version] in
  let id := u32 (dev st h2 virt DeviceID) in
  let h3 := h2 ++ [MmioRead virt DeviceID id; MmioWrite virt Status 0; Barrier] in
  let s1 := u32 (dev st h3 virt Status) in
  let h4 := h3 ++ [MmioRead virt Status s1;
                   MmioWrite virt Status (u32 (Z.lor s1 VIRTIO_STATUS_ACKNOWLEDGE));
                   Barrier] in
  let s2 := u32 (dev st h4 virt Status) in
  let h5 := h4 ++ [MmioRead virt Status s2;
                   MmioWrite virt Status (u32 (Z.lor s2 VIRTIO_STATUS_DRIVER));
                   Barrier] in
  let id2 := u32 (dev st h5 virt DeviceID) in
  let h6 := h5 ++ [MmioRead virt DeviceID id2] in
  let id3 := u32 (dev st h6 virt DeviceID) in
  magic = VIRTIO_MAGIC ->
  version = VIRTIO_VERSION ->
  id <> 0 ->
  (id2 = VIRTIO_DEV_BLK ->
   virtio_dev_init virt intid st = virtio_blk_init virt intid (set_mmio h6 st)) /\
  (id2 <> VIRTIO_DEV_BLK ->
   virtio_dev_init virt intid st
   = Some (None,
           set_console
             (console st ++ [Msg "unsupported virtio device ID 0x%x\n" [] [id3]])
             (set_mmio (h6 ++ [MmioRead virt DeviceID id3]) st))).
Proof.
  intros magic h1 version h2 id h3 s1 h4 s2 h5 id2 h6 id3 Hm Hv Hi.
  subst magic h1 version h2 id h3 s1 h4 s2 h5 id2 h6 id3.
  rewrite <- ?app_assoc in *. cbn [app] in *.
  split; intros Hb.
  all: unfold virtio_dev_init; step_read.
  all: match goal with
       | |- context [?x =? VIRTIO_MAGIC] =>
           destruct (Z.eqb_spec x VIRTIO_MAGIC) as [_ |]; [| contradiction]
       end.
  all: cbv [negb]; cbv iota; step_read.
  all: match goal with
       | |- context [?x =? VIRTIO_VERSION] =>
           destruct (Z.eqb_spec x VIRTIO_VERSION) as [_ |]; [| contradiction]
       end.
  all: cbv [negb]; cbv iota; step_read; rewrite <- ?app_assoc; cbn [app].
  all: match goal with
       | |- context [if ?x =? 0 then _ else _] =>
           destruct (Z.eqb_spec x 0) as [| _]; [contradiction |]
       end.
  all: step_write_mb; change (u32 0) with 0.
  all: step_read; step_write_mb; step_read; step_write_mb; step_read.
  all: rewrite <- ?app_assoc; cbn [app].
  - match goal with
    | |- context [if ?x =? VIRTIO_DEV_BLK then _ else _] =>
        destruct (Z.eqb_spec x VIRTIO_DEV_BLK) as [_ |]; [| contradiction]
    end.
    reflexivity.
  - match goal with
    | |- context [if ?x =? VIRTIO_DEV_BLK then _ else _] =>
        destruct (Z.eqb_spec x VIRTIO_DEV_BLK) as [| _]; [contradiction |]
    end.
    cbv [bind READ32 printf modify ret].
    cbn [mmio dev console set_mmio set_console].
    rewrite <- ?app_assoc. cbn [app]. reflexivity.
Qed.

Lemma virtio_dev_init_handshake_witness :
  let st := machine (slot_device VIRTIO_MAGIC 2 1) in
  exists st',
    virtio_dev_init 0x1000 48 st = Some (None, st') /\
    mmio_writes (mmio st') = [(0x1000, Status, 0); (0x1000, Status, 1); (0x1000, Status, 2)] /\
    console st' = [Msg "unsupported virtio device ID 0x%x\n" [] [1]].
Proof.
  intros st.
  destruct (virtio_dev_init_handshake 0x1000 48 st) as (_ & H).
  - vm_compute. reflexivity.
  - vm_compute. reflexivity.
  - vm_compute. discriminate.
  - eexists. split.
    + apply H. vm_compute. discriminate.
    + split; vm_compute; reflexivity.
Defined.

(** *** More on submitting a read *)

(** Runs [virtio_blk_read] on a state whose block device has the queue
    [vq], given the facts that say so, and leaves the properties of the
    resulting state to prove. *)
Ltac blk_read_run Hq Hvq Hslab :=
  unfold virtio_blk_read, slab_alloc_blkreq;
  unfold bind at 1; unfold bind at 1; unfold gets at 1; rewrite Hslab;
  unfold alloc;
  cbv [bind kmem_lookup_phys gets modify deref_virtq kstore64 kstore32 kstore16
       kload16 mb WRITE32 ret];
  cbn [phys_of virtqs set_alloc_count set_reqs set_kmem set_mmio kmem mmio];
  rewrite Hq, Hvq;
  eexists; split; [reflexivity |];
  cbn [kmem mmio reqs alloc_count virtqs blkdev console
       set_kmem set_mmio set_reqs set_alloc_count];
  unfold load16, load32, load64, store16, store32, store64.

(** X25.  Beyond the descriptor chain, a block read records the request
    and publishes it: the header it takes from the slab holds the type
    IN and the sector asked for; the slot of the avail ring at the old
    avail index holds 0, the number of the head descriptor, whatever
    that index is (it is used as it stands, the ring position is not
    reduced modulo the queue length).  Of kernel memory only the first
    three descriptors, that ring slot and the avail index change; the
    queue structures, the block device handle and the console are
    untouched, and one allocation was made. *)
Theorem virtio_blk_read_publishes (blk : virtio_blk) (sector data : Z) (st : kernel)
    (q slab : Z) (vq : virtqueue) :
  virtq blk = Some q ->
  virtqs st !! q = Some vq ->
  blkreq_slab st = Some slab ->
  desc vq + 3 * sizeof_virtqueue_desc <= avail vq ->
  let hdr := u32 (alloc_pick st (alloc_count st)) in
  let slot := avail vq + 4 + 2 * avail_idx (kmem st) vq in
  exists st',
    virtio_blk_read blk sector data st = Some (None, st') /\
    reqs st' !! hdr = Some {| type := VIRTIO_BLK_T_IN; Virtio.sector := u32 sector |} /\
    load16 (kmem st') slot = 0 /\
    (forall x, ~ (desc vq <= x < desc vq + 3 * sizeof_virtqueue_desc) ->
               ~ (slot <= x < slot + 2) ->
               ~ (avail vq + 2 <= x < avail vq + 4) ->
               kmem st' x = kmem st x) /\
    alloc_count st' = S (alloc_count st) /\
    virtqs st' = virtqs st /\
    blkdev st' = blkdev st /\
    console st' = console st.
Proof.
  intros Hq Hvq Hslab Hlay hdr slot.
  blk_read_run Hq Hvq Hslab.
  unfold sizeof_virtqueue_desc in *.
  match goal with
  | |- context [storen 2 ?m (avail vq + 4 + 2 * _) 0] => set (m12 := m) in *
  end.
  assert (Hidx : loadn 2 m12 (avail vq + 2) = avail_idx (kmem st) vq).
  { subst m12. unfold avail_idx, load16. repeat mem_step. reflexivity. }
  rewrite Hidx in *. fold slot.
  split; [apply lookup_insert_eq |].
  assert (Hs : avail vq + 4 <= slot).
  { subst slot. pose proof (load16_range (kmem st) (avail vq + 2)) as Hr.
    unfold avail_idx. lia. }
  split.
  { rewrite loadn_storen_other by lia.
    rewrite loadn_storen_same. reflexivity. }
  split.
  { intros x Hd Hsl Hix.
    rewrite !storen_outside by (cbn [Z.of_nat Pos.of_succ_nat Pos.succ]; lia).
    subst m12.
    rewrite !storen_outside by (cbn [Z.of_nat Pos.of_succ_nat Pos.succ]; lia).
    reflexivity. }
  repeat split; reflexivity.
Qed.

Lemma virtio_blk_read_publishes_witness :
  let st := blk_ready in
  exists st',
    virtio_blk_read (blkdev st) 42 (buffer st) st = Some (None, st') /\
    reqs st' !! 0x40003000 = Some {| type := VIRTIO_BLK_T_IN; Virtio.sector := 42 |} /\
    load16 (kmem st') (0x40001820 + 4) = 0 /\
    alloc_count st' = 4%nat.
Proof.
  intros st.
  set (vq := {| phys := 0x40000000; len := 128; desc := 0x40001020;
                avail := 0x40001820; used_event := 0x40001924;
                used := 0x40001928; avail_event := 0x40001d2c |}).
  assert (H1 : virtq (blkdev st) = Some 0x40001000) by (vm_compute; reflexivity).
  assert (H2 : virtqs st !! 0x40001000 = Some vq) by (vm_compute; reflexivity).
  assert (H3 : blkreq_slab st = Some 0x40002000) by (vm_compute; reflexivity).
  assert (H4 : desc vq + 3 * sizeof_virtqueue_desc <= avail vq)
    by (vm_compute; discriminate).
  destruct (virtio_blk_read_publishes (blkdev st) 42 (buffer st) st _ _ vq H1 H2 H3 H4)
    as (st' & R1 & R2 & R3 & _ & R5 & _).
  exists st'. split; [exact R1 |]. split; [exact R2 |].
  split; [exact R3 | exact R5].
Defined.

(** X26.  The ring position is the avail index itself.  In a queue laid
    out as [virtq_create] lays it out, used_event follows the [len]
    slots of the avail ring; once the avail index has reached [len],
    the next read stores its ring entry on used_event, which reads 0
    afterwards whatever it held. *)
Theorem virtio_blk_read_ring_overrun (blk : virtio_blk) (sector data : Z) (st : kernel)
    (q slab : Z) (vq : virtqueue) :
  virtq blk = Some q ->
  virtqs st !! q = Some vq ->
  blkreq_slab st = Some slab ->
  desc vq + 3 * sizeof_virtqueue_desc <= avail vq ->
  used_event vq = avail vq + sizeof_virtqueue_avail + len vq * sizeof_uint16_t ->
  avail_idx (kmem st) vq = len vq ->
  exists st',
    virtio_blk_read blk sector data st = Some (None, st') /\
    load16 (kmem st') (used_event vq) = 0 /\
    avail_idx (kmem st') vq = u16 (len vq + 1).
Proof.
  intros Hq Hvq Hslab Hlay Hue Hfull.
  blk_read_run Hq Hvq Hslab.
  unfold sizeof_virtqueue_desc, sizeof_virtqueue_avail, sizeof_uint16_t in *.
  match goal with
  | |- context [storen 2 ?m (avail vq + 4 + 2 * _) 0] => set (m12 := m) in *
  end.
  assert (Hidx : loadn 2 m12 (avail vq + 2) = avail_idx (kmem st) vq).
  { subst m12. unfold avail_idx, load16. repeat mem_step. reflexivity. }
  rewrite Hidx, Hfull in *.
  pose proof (load16_range (kmem st) (avail vq + 2)) as Hr.
  unfold avail_idx in Hfull. rewrite Hfull in Hr.
  replace (avail vq + 4 + 2 * len vq) with (used_event vq) by lia.
  split.
  { rewrite loadn_storen_other by lia. rewrite loadn_storen_same. reflexivity. }
  unfold avail_idx, load16. rewrite loadn_storen_same.
  rewrite loadn_storen_other by lia. rewrite Hidx. reflexivity.
Qed.

Lemma virtio_blk_read_ring_overrun_witness :
  let st := set_kmem (store16 (store16 (kmem blk_ready) (0x40001820 + 2) 128)
                        0x40001924 0xffff) blk_ready in
  load16 (kmem st) 0x40001924 = 0xffff /\
  exists st',
    virtio_blk_read (blkdev st) 42 (buffer st) st = Some (None, st') /\
    load16 (kmem st') 0x40001924 = 0.
Proof.
  intros st.
  set (vq := {| phys := 0x40000000; len := 128; desc := 0x40001020;
                avail := 0x40001820; used_event := 0x40001924;
                used := 0x40001928; avail_event := 0x40001d2c |}).
  assert (H1 : virtq (blkdev st) = Some 0x40001000) by (vm_compute; reflexivity).
  assert (H2 : virtqs st !! 0x40001000 = Some vq) by (vm_compute; reflexivity).
  assert (H3 : blkreq_slab st = Some 0x40002000) by (vm_compute; reflexivity).
  assert (H4 : desc vq + 3 * sizeof_virtqueue_desc <= avail vq)
    by (vm_compute; discriminate).
  assert (H5 : used_event vq = avail vq + sizeof_virtqueue_avail + len vq * sizeof_uint16_t)
    by (vm_compute; reflexivity).
  assert (H6 : avail_idx (kmem st) vq = len vq) by (vm_compute; reflexivity).
  split; [vm_compute; reflexivity |].
  destruct (virtio_blk_read_ring_overrun (blkdev st) 42 (buffer st) st _ _ vq
              H1 H2 H3 H4 H5 H6) as (st' & R1 & R2 & _).
  exists st'. split; [exact R1 | exact R2].
Defined.

(** *** The shell commands *)

(** X27.  The read command ignores the sector it is given.  Called with
    anything but two arguments it prints the usage line and returns 1,
    and does nothing else.  Called with two, it parses the second but
    submits a read of sector 0 into the global buffer, whatever the
    argument says, and returns 0. *)
Theorem virtio_blk_cmd_read_sector (atoi : string -> Z) (argc : Z) (argv : list string)
    (st : kernel) (q slab : Z) (vq : virtqueue) :
  virtq (blkdev st) = Some q ->
  virtqs st !! q = Some vq ->
  blkreq_slab st = Some slab ->
  (argc <> 2 ->
   virtio_blk_cmd_read atoi argc argv st
   = Some (Some 1, set_console (console st ++ [Msg "usage: read SECTOR\n" [] []]) st)) /\
  (argc = 2 ->
   exists st',
     virtio_blk_cmd_read atoi argc argv st = Some (Some 0, st') /\
     reqs st' !! u32 (alloc_pick st (alloc_count st))
     = Some {| type := VIRTIO_BLK_T_IN; sector := 0 |} /\
     mmio st' = mmio st ++ [Barrier; Barrier;
                            MmioWrite (regs (blkdev st)) QueueNotify 0] /\
     console st' = console st).
Proof.
  intros Hq Hvq Hslab. unfold virtio_blk_cmd_read. split.
  - intros Hne. destruct (Z.eqb_spec argc 2) as [| _]; [contradiction |].
    reflexivity.
  - intros ->. cbn [Z.eqb Pos.eqb negb].
    assert (Hrun : exists st',
               virtio_blk_read (blkdev st) 0 (buffer st) st = Some (None, st') /\
               reqs st' !! u32 (alloc_pick st (alloc_count st))
               = Some {| type := VIRTIO_BLK_T_IN; sector := 0 |} /\
               mmio st' = mmio st ++ [Barrier; Barrier;
                                      MmioWrite (regs (blkdev st)) QueueNotify 0] /\
               console st' = console st).
    { blk_read_run Hq Hvq Hslab.
      split; [apply lookup_insert_eq |].
      split; [rewrite <- !app_assoc; reflexivity | reflexivity]. }
    destruct Hrun as (st' & Hr & Hreq & Hbus & Hcon).
    exists st'. split; [| split; [exact Hreq | split; [exact Hbus | exact Hcon]]].
    unfold bind at 1. unfold gets at 1.
    unfold bind at 1. unfold gets at 1.
    unfold bind at 1. rewrite Hr. reflexivity.
Qed.

Lemma virtio_blk_cmd_read_sector_witness :
  exists st',
    virtio_blk_cmd_read (fun _ => 42) 2 ["read"; "42"]%string blk_ready
    = Some (Some 0, st') /\
    reqs st' !! 0x40003000 = Some {| type := VIRTIO_BLK_T_IN; sector := 0 |}.
Proof.
  set (vq := {| phys := 0x40000000; len := 128; desc := 0x40001020;
                avail := 0x40001820; used_event := 0x40001924;
                used := 0x40001928; avail_event := 0x40001d2c |}).
  assert (H1 : virtq (blkdev blk_ready) = Some 0x40001000) by (vm_compute; reflexivity).
  assert (H2 : virtqs blk_ready !! 0x40001000 = Some vq) by (vm_compute; reflexivity).
  assert (H3 : blkreq_slab blk_ready = Some 0x40002000) by (vm_compute; reflexivity).
  destruct (proj2 (virtio_blk_cmd_read_sector (fun _ => 42) 2 ["read"; "42"]%string
                     blk_ready _ _ vq H1 H2 H3) eq_refl)
    as (st' & R1 & R2 & _).
  exists st'. split; [exact R1 | exact R2].
Defined.

(** X28.  The status command is read-only but for one register: with a
    block device in place it reads Status, DeviceID, VendorID,
    InterruptStatus and MagicValue, prints them with the avail and used
    indices as they stand in memory, selects queue 0 (its only register
    write, followed by a barrier) and reads QueueReady.  Kernel memory,
    the queues, the requests, the block device handle and the
    allocators are as before; ten lines are printed; the function ends
    without a [return]. *)
Theorem virtio_blk_cmd_status_reads (argc : Z) (argv : list string) (st : kernel)
    (q : Z) (vq : virtqueue) :
  virtq (blkdev st) = Some q ->
  virtqs st !! q = Some vq ->
  exists st',
    virtio_blk_cmd_status argc argv st = Some (None, st') /\
    mmio_writes (mmio st') = mmio_writes (mmio st) ++ [(regs (blkdev st), QueueSel, 0)] /\
    map (fun e => match e with
                  | MmioRead _ r _ => Some r
                  | _ => None
                  end) (skipn (length (mmio st)) (mmio st'))
    = [Some Status; Some DeviceID; Some VendorID; Some InterruptStatus;
       Some MagicValue; None; None; Some QueueReady] /\
    In (Msg "    avail.idx = %u\n" [] [avail_idx (kmem st) vq]) (console st') /\
    In (Msg "    used.idx = %u\n" [] [load16 (kmem st) (used vq + 2)]) (console st') /\
    length (console st') = (length (console st) + 10)%nat /\
    kmem st' = kmem st /\ virtqs st' = virtqs st /\ reqs st' = reqs st /\
    blkdev st' = blkdev st /\ alloc_count st' = alloc_count st.
Proof.
  intros Hq Hvq. unfold virtio_blk_cmd_status.
  cbv [bind READ32 WRITE32 mb printf modify gets ret deref_virtq kload16
       kmem_lookup_phys
       dev mmio kmem virtqs reqs console blkdev blkreq_slab phys_of alloc_pick
       alloc_count irqs buffer set_mmio set_console].
  fold (dev st) (mmio st) (kmem st) (virtqs st) (reqs st) (console st)
       (blkdev st) (blkreq_slab st) (phys_of st) (alloc_pick st)
       (alloc_count st) (irqs st) (buffer st).
  rewrite Hq. cbv beta iota. rewrite Hvq. cbv beta iota. rewrite Hvq. cbv beta iota.
  eexists. split; [reflexivity |].
  cbv [mmio console kmem virtqs reqs blkdev alloc_count].
  fold (kmem st) (virtqs st) (reqs st) (blkdev st) (alloc_count st).
  split.
  { rewrite !mmio_writes_app. cbn [mmio_writes]. rewrite ?app_nil_r. reflexivity. }
  split.
  { rewrite <- !app_assoc. rewrite skipn_app, skipn_all, Nat.sub_diag.
    reflexivity. }
  split.
  { rewrite !in_app_iff. left. left. right. left. reflexivity. }
  split.
  { rewrite !in_app_iff. left. right. left. reflexivity. }
  split.
  { rewrite !length_app. cbn [length]. lia. }
  repeat split; reflexivity.
Qed.

Lemma virtio_blk_cmd_status_reads_witness :
  exists st',
    virtio_blk_cmd_status 1 ["status"]%string blk_ready = Some (None, st') /\
    mmio_writes (mmio st') = mmio_writes (mmio blk_ready) ++ [(0x1000, QueueSel, 0)] /\
    kmem st' = kmem blk_ready.
Proof.
  set (vq := {| phys := 0x40000000; len := 128; desc := 0x40001020;
                avail := 0x40001820; used_event := 0x40001924;
                used := 0x40001928; avail_event := 0x40001d2c |}).
  assert (H1 : virtq (blkdev blk_ready) = Some 0x40001000) by (vm_compute; reflexivity).
  assert (H2 : virtqs blk_ready !! 0x40001000 = Some vq) by (vm_compute; reflexivity).
  destruct (virtio_blk_cmd_status_reads 1 ["status"]%string blk_ready _ vq H1 H2)
    as (st' & R1 & R2 & _ & _ & _ & _ & R3 & _).
  exists st'. split; [exact R1 |]. split; [exact R2 | exact R3].
Defined.

(** *** A machine without virtio devices *)

(** A slot whose magic value is wrong: two reads, one console line. *)
Lemma virtio_dev_init_no_magic (virt intid : Z) (st : kernel) :
  u32 (dev st (mmio st) virt MagicValue) <> VIRTIO_MAGIC ->
  exists m1 m2 line,
    virtio_dev_init virt intid st
    = Some (Some (-1),
            set_console (console st ++ [line])
              (set_mmio ((mmio st ++ [MmioRead virt MagicValue m1])
                         ++ [MmioRead virt MagicValue m2]) st)).
Proof.
  intros Hm. unfold virtio_dev_init, bind at 1. unfold READ32 at 1.
  destruct (Z.eqb_spec (u32 (dev st (mmio st) virt MagicValue)) VIRTIO_MAGIC)
    as [| _]; [contradiction |].
  cbv [negb bind READ32 printf modify ret].
  cbn [mmio dev console set_mmio set_console].
  eexists _, _, _. reflexivity.
Qed.

Lemma virtio_init_probe_absent (page_virt : Z) (slots : list nat) (st : kernel) :
  (forall h base, u32 (dev st h base MagicValue) <> VIRTIO_MAGIC) ->
  exists st',
    virtio_init_probe page_virt slots st = Some (tt, st') /\
    dev st' = dev st /\
    mmio_writes (mmio st') = mmio_writes (mmio st) /\
    length (mmio st') = (length (mmio st) + 2 * length slots)%nat /\
    length (console st') = (length (console st) + length slots)%nat /\
    kmem st' = kmem st /\ virtqs st' = virtqs st /\ blkdev st' = blkdev st /\
    blkreq_slab st' = blkreq_slab st /\ irqs st' = irqs st /\
    alloc_count st' = alloc_count st.
Proof.
  revert st. induction slots as [|i slots IH]; intros st Hdev.
  - exists st. cbn [virtio_init_probe ret length]. rewrite !Nat.add_0_r.
    repeat split; reflexivity.
  - cbn [virtio_init_probe]. unfold bind at 1.
    destruct (virtio_dev_init_no_magic (u32 (page_virt + 512 * Z.of_nat i))
                (32 + 16 + Z.of_nat i) st (Hdev _ _)) as (m1 & m2 & line & E).
    rewrite E.
    match goal with
    | |- context [virtio_init_probe page_virt slots ?k] =>
        destruct (IH k) as (st' & R & Rd & Rw & Rl & Rc & Rrest)
    end.
    { intros h base. apply Hdev. }
    exists st'. split; [exact R |]. split; [exact Rd |].
    cbn [mmio console kmem virtqs blkdev blkreq_slab irqs alloc_count
         set_mmio set_console] in *.
    split.
    { rewrite Rw, !mmio_writes_app. cbn [mmio_writes]. rewrite !app_nil_r.
      reflexivity. }
    split; [rewrite Rl, !length_app; cbn [length]; lia |].
    split; [rewrite Rc, length_app; cbn [length]; lia |].
    exact Rrest.
Qed.

(** X29.  On a machine where no slot reads the virtio magic value,
    probing is harmless and [virtio_init] is not.  Probing any list of
    slots only reads (two register reads and one console line per
    slot, no register write) and leaves memory, queues, the block
    device handle, the slab and the interrupt controller as they were.
    But [virtio_init] then submits its read of sector 0 whether or not
    a block device was found: with the handle's queue pointer still
    NULL, the read faults on the NULL pointer and [virtio_init] does not
    return. *)
Theorem virtio_init_no_device (st : kernel) :
  (forall h base, u32 (dev st h base MagicValue) <> VIRTIO_MAGIC) ->
  (forall page_virt slots,
      exists st',
        virtio_init_probe page_virt slots st = Some (tt, st') /\
        mmio_writes (mmio st') = mmio_writes (mmio st) /\
        length (mmio st') = (length (mmio st) + 2 * length slots)%nat /\
        length (console st') = (length (console st) + length slots)%nat /\
        kmem st' = kmem st /\ virtqs st' = virtqs st /\ blkdev st' = blkdev st /\
        blkreq_slab st' = blkreq_slab st /\ irqs st' = irqs st) /\
  (virtq (blkdev st) = None -> virtio_init st = None).
Proof.
  intros Hdev. split.
  - intros page_virt slots.
    destruct (virtio_init_probe_absent page_virt slots st Hdev)
      as (st' & R & _ & Rw & Rl & Rc & Rk & Rq & Rb & Rs & Ri & _).
    exists st'. auto 10.
  - intros Hnull. unfold virtio_init.
    unfold bind at 1. unfold alloc at 1.
    unfold bind at 1. unfold kmem_map_pages at 1. unfold modify at 1.
    unfold bind at 1.
    match goal with
    | |- context [virtio_init_probe ?pv ?sl ?k] =>
        destruct (virtio_init_probe_absent pv sl k) as (st' & R & _ & _ & _ & _ & _ & _ & Rb & _)
    end.
    { intros h base. apply Hdev. }
    rewrite R.
    unfold bind at 1. unfold gets at 1.
    unfold bind at 1. unfold gets at 1.
    unfold bind at 1.
    cbn [blkdev set_phys_of set_alloc_count] in Rb. rewrite Rb.
    unfold virtio_blk_read, slab_alloc_blkreq.
    unfold bind at 1. unfold bind at 1. unfold gets at 1.
    destruct (blkreq_slab st'); [| reflexivity].
    unfold alloc.
    cbv [bind kmem_lookup_phys gets modify deref_virtq].
    rewrite Hnull. reflexivity.
Qed.

Lemma virtio_init_no_device_witness :
  let st := machine (slot_device 0 0 0) in
  virtio_init st = None /\
  exists st',
    virtio_init_probe 0x40000000 (seq 0 32) st = Some (tt, st') /\
    mmio_writes (mmio st') = [] /\
    length (mmio st') = 64%nat.
Proof.
  intros st.
  assert (H : forall h base, u32 (dev st h base MagicValue) <> VIRTIO_MAGIC).
  { intros h base. vm_compute. discriminate. }
  destruct (virtio_init_no_device st H) as (Hp & Hi).
  split; [apply Hi; reflexivity |].
  destruct (Hp 0x40000000 (seq 0 32)) as (st' & R1 & R2 & R3 & _).
  exists st'. split; [exact R1 |]. split; [exact R2 | exact R3].
Defined.

(** *** Printing a 64-bit value *)

(** X30.  The two macros that split a 64-bit value for printing are
    exact: for a value below 2^64, [LO32] is its low 32 bits, [HI32]
    its high 32 bits, and the two recompose the value. *)
Theorem HI32_LO32_split (x : Z) :
  0 <= x < 2 ^ 64 ->
  LO32 x = x mod 2 ^ 32 /\
  HI32 x = x / 2 ^ 32 /\
  x = HI32 x * 2 ^ 32 + LO32 x.
Proof.
  intros Hx.
  assert (Hlo : LO32 x = x mod 2 ^ 32).
  { unfold LO32. change 4294967295 with (Z.ones 32).
    rewrite Z.land_comm, Z.land_ones by lia.
    unfold u32. apply Z.mod_mod. lia. }
  assert (Hhi : HI32 x = x / 2 ^ 32).
  { unfold HI32. rewrite Z.shiftr_land.
    change (Z.shiftr 18446744069414584320 32) with (Z.ones 32).
    rewrite Z.land_comm, Z.land_ones by lia.
    rewrite Z.shiftr_div_pow2 by lia.
    assert (Hq : 0 <= x / 2 ^ 32 < 2 ^ 32).
    { split; [apply Z.div_pos; lia | apply Z.div_lt_upper_bound; lia]. }
    unfold u32. rewrite Z.mod_mod by lia. apply Z.mod_small. exact Hq. }
  split; [exact Hlo |]. split; [exact Hhi |].
  rewrite Hlo, Hhi. pose proof (Z.div_mod x (2 ^ 32) ltac:(lia)). lia.
Qed.

Lemma HI32_LO32_split_witness :
  HI32 0x123456789abcdef0 = 0x12345678 /\ LO32 0x123456789abcdef0 = 0x9abcdef0 /\
  0x123456789abcdef0 = HI32 0x123456789abcdef0 * 2 ^ 32 + LO32 0x123456789abcdef0.
Proof.
  destruct (HI32_LO32_split 0x123456789abcdef0) as (H1 & H2 & H3).
  - vm_compute. split; [discriminate | reflexivity].
  - split; [rewrite H2; reflexivity |]. split; [rewrite H1; reflexivity | exact H3].
Defined.

End VirtioFacts.
